(** * CarScene: the storage layer and its routes

    The development follows the class [DatabaseStorage] (the module the
    routes import as [./storage]), the table and validation declarations
    imported from [@shared/schema] and the handlers of [registerRoutes].
    The relational store is a record of tables, each table the list of its
    rows in insertion order; a storage method is a function from the store
    to its result and the next store.  Calls run one after the other. *)

From Stdlib Require Import String Ascii List ZArith Bool Arith Lia.
From Stdlib Require Import Permutation Sorted DecimalString DecimalNat.
Import ListNotations.
Local Open Scope string_scope.
Local Open Scope list_scope.


(** ** JavaScript values the code relies on *)

Definition Id := string.
Definition Timestamp := Z.

(** A rejected promise / thrown [Error] carries its message. *)
Inductive result (A : Type) : Type :=
| Ok (a : A)
| Throw (msg : string).
Arguments Ok {A} a.
Arguments Throw {A} msg.

Definition bind {A B} (r : result A) (k : A -> result B) : result B :=
  match r with
  | Ok a => k a
  | Throw m => Throw m
  end.

Notation "x <- r ;; k" := (bind r (fun x => k))
  (at level 61, r at next level, right associativity).

(** [await Promise.all(rows.map(async row => ...))]: every callback must
    fulfil; one rejection rejects the whole. *)
Fixpoint promiseAll {A B} (f : A -> result B) (rows : list A) : result (list B) :=
  match rows with
  | [] => Ok []
  | row :: rest =>
      match f row, promiseAll f rest with
      | Ok b, Ok bs => Ok (b :: bs)
      | Throw m, _ => Throw m
      | Ok _, Throw m => Throw m
      end
  end.

(** [if (s)] on a [string | undefined]: [undefined] and the empty string are
    falsy. *)
Definition truthy (s : option string) : bool :=
  match s with
  | Some s => negb (s =? "")
  | None => false
  end.

(** [!!row] for the first row of a select. *)
Definition notNot {A} (row : option A) : bool :=
  match row with
  | Some _ => true
  | None => false
  end.

(** ** Tables and insert types (@shared/schema) *)

(** The columns are the ones the storage methods read and write.  A
    [varchar] or [text] column without [notNull()] is an option.
    [createdAt] is a number, not an option: the column defaults to [now()]
    and no insert of the storage layer supplies it. *)

Module Schema.

Record User := mkUser {
  user_id : Id;
  user_email : option string;
  user_firstName : option string;
  user_lastName : option string;
  user_bio : option string;
  user_profileImageUrl : option string;
  user_createdAt : Timestamp;
  user_updatedAt : Timestamp
}.

Record Post := mkPost {
  post_id : Id;
  post_userId : Id;
  post_content : option string;
  post_imageUrl : option string;
  post_locationId : option Id;
  post_createdAt : Timestamp
}.

Record Video := mkVideo {
  video_id : Id;
  video_userId : Id;
  video_videoUrl : option string;
  video_thumbnailUrl : option string;
  video_locationId : option Id;
  video_createdAt : Timestamp
}.

Record Location := mkLocation {
  location_id : Id;
  location_userId : Id;
  location_lat : option string;
  location_lng : option string;
  location_label : option string;
  location_createdAt : Timestamp
}.

Record Like := mkLike {
  like_id : Id;
  like_userId : Id;
  like_postId : option Id;
  like_videoId : option Id;
  like_createdAt : Timestamp
}.

Record Comment := mkComment {
  comment_id : Id;
  comment_userId : Id;
  comment_postId : option Id;
  comment_videoId : option Id;
  comment_text : option string;
  comment_createdAt : Timestamp
}.

Record Follow := mkFollow {
  follow_id : Id;
  follow_followerId : Id;
  follow_followingId : Id;
  follow_createdAt : Timestamp
}.

Record Save := mkSave {
  save_id : Id;
  save_userId : Id;
  save_postId : option Id;
  save_videoId : option Id;
  save_createdAt : Timestamp
}.

(** The insert types: what the zod schemas let through. *)

Record UpsertUser := mkUpsertUser {
  uu_id : option Id;
  uu_email : option string;
  uu_firstName : option string;
  uu_lastName : option string;
  uu_profileImageUrl : option string
}.

Record InsertPost := mkInsertPost {
  ip_userId : Id;
  ip_content : option string;
  ip_imageUrl : option string;
  ip_locationId : option Id
}.

Record InsertVideo := mkInsertVideo {
  iv_userId : Id;
  iv_videoUrl : string;
  iv_thumbnailUrl : option string;
  iv_locationId : option Id
}.

Record InsertLocation := mkInsertLocation {
  il_userId : Id;
  il_lat : string;
  il_lng : string;
  il_label : option string
}.

Record InsertComment := mkInsertComment {
  ic_userId : Id;
  ic_postId : option Id;
  ic_videoId : option Id;
  ic_text : string
}.

(** The enriched views.  [pwd_user] is the runtime value of the [user]
    property: [getSavedPosts] writes [user!], which checks nothing, so the
    property can hold [null].  [pwd_isSaved] is [None] when the object
    has no [isSaved] property. *)

Record PostWithDetails := mkPostWithDetails {
  pwd_post : Post;
  pwd_user : option User;
  pwd_location : option Location;
  pwd_likesCount : nat;
  pwd_commentsCount : nat;
  pwd_isLiked : bool;
  pwd_isSaved : option bool
}.

Record VideoWithDetails := mkVideoWithDetails {
  vwd_video : Video;
  vwd_user : option User;
  vwd_location : option Location;
  vwd_likesCount : nat;
  vwd_commentsCount : nat;
  vwd_isLiked : bool;
  vwd_isSaved : option bool
}.

Record CommentWithUser := mkCommentWithUser {
  cwu_comment : Comment;
  cwu_user : User
}.

Record LocationWithDetails := mkLocationWithDetails {
  lwd_location : Location;
  lwd_user : User;
  lwd_postsCount : nat
}.

Record UserProfile := mkUserProfile {
  up_user : User;
  up_postsCount : nat;
  up_followersCount : nat;
  up_followingCount : nat;
  up_isFollowing : bool
}.

End Schema.
Import Schema.

(** ** The store *)

(** The tables, and the number of identifiers handed out so far. *)
Record Db := mkDb {
  users : list User;
  posts : list Post;
  videos : list Video;
  locations : list Location;
  likes : list Like;
  comments : list Comment;
  follows : list Follow;
  saves : list Save;
  serial : nat
}.

Definition emptyDb : Db := mkDb [] [] [] [] [] [] [] [] 0.

(** Modelled from the spec: the default of the [id] columns is not among
    the table declarations of the repository; the spec says that identifiers
    are opaque unique strings and that timestamps are assigned by the server
    at creation.  An insert without [id] takes the next identifier of the
    store, the decimal numeral of [serial], and every inserting method
    takes the server's clock reading as [now]. *)
Definition idOfNat (n : nat) : Id := NilEmpty.string_of_uint (Nat.to_uint n).

Definition genId (db : Db) : Id := idOfNat (serial db).

Definition with_users (db : Db) (t : list User) : Db :=
  mkDb t (posts db) (videos db) (locations db) (likes db) (comments db)
       (follows db) (saves db) (serial db).
Definition with_posts (db : Db) (t : list Post) : Db :=
  mkDb (users db) t (videos db) (locations db) (likes db) (comments db)
       (follows db) (saves db) (serial db).
Definition with_videos (db : Db) (t : list Video) : Db :=
  mkDb (users db) (posts db) t (locations db) (likes db) (comments db)
       (follows db) (saves db) (serial db).
Definition with_locations (db : Db) (t : list Location) : Db :=
  mkDb (users db) (posts db) (videos db) t (likes db) (comments db)
       (follows db) (saves db) (serial db).
Definition with_likes (db : Db) (t : list Like) : Db :=
  mkDb (users db) (posts db) (videos db) (locations db) t (comments db)
       (follows db) (saves db) (serial db).
Definition with_comments (db : Db) (t : list Comment) : Db :=
  mkDb (users db) (posts db) (videos db) (locations db) (likes db) t
       (follows db) (saves db) (serial db).
Definition with_follows (db : Db) (t : list Follow) : Db :=
  mkDb (users db) (posts db) (videos db) (locations db) (likes db)
       (comments db) t (saves db) (serial db).
Definition with_saves (db : Db) (t : list Save) : Db :=
  mkDb (users db) (posts db) (videos db) (locations db) (likes db)
       (comments db) (follows db) t (serial db).
Definition tick (db : Db) : Db :=
  mkDb (users db) (posts db) (videos db) (locations db) (likes db)
       (comments db) (follows db) (saves db) (S (serial db)).

(** ** The query builder (drizzle-orm over PostgreSQL) *)

Module Sql.

(** [eq(column, value)] on a nullable column: NULL matches nothing. *)
Definition eqCol (c : option Id) (v : Id) : bool :=
  match c with
  | Some x => x =? v
  | None => false
  end.

(** [eq(left.column, right.id)] in a join condition. *)
Definition eqRef (c : option Id) (k : Id) : bool := eqCol c k.

(** [sql`${column} IS NOT NULL`]. *)
Definition isNotNull (c : option Id) : bool := notNot c.

(** [select().from(t).where(p)]. *)
Definition selectWhere {A} (p : A -> bool) (t : list A) : list A := filter p t.

(** [select({ count: count() }).from(t).where(p)]. *)
Definition countWhere {A} (p : A -> bool) (t : list A) : nat :=
  length (filter p t).

(** [delete(t).where(p).returning()]: the deleted rows and what stays. *)
Definition deleteWhere {A} (p : A -> bool) (t : list A) : list A * list A :=
  (filter p t, filter (fun r => negb (p r)) t).

(** [.leftJoin(right, on)]: every left row with each matching right row,
    or once with NULL when none matches. *)
Definition leftJoin {A B} (on : A -> B -> bool) (l : list A) (r : list B)
  : list (A * option B) :=
  flat_map (fun a =>
    match filter (on a) r with
    | [] => [(a, None)]
    | ms => map (fun b => (a, Some b)) ms
    end) l.

(** [.innerJoin(right, on)]. *)
Definition innerJoin {A B} (on : A -> B -> bool) (l : list A) (r : list B)
  : list (A * B) :=
  flat_map (fun a => map (fun b => (a, b)) (filter (on a) r)) l.

(** [.orderBy(desc(key))].  PostgreSQL leaves the order of rows with equal
    keys open; the model keeps them in the order it met them. *)
Fixpoint insertDesc {A} (key : A -> Timestamp) (x : A) (l : list A) : list A :=
  match l with
  | [] => [x]
  | y :: l' =>
      if (key x <? key y)%Z then y :: insertDesc key x l' else x :: l
  end.

Fixpoint orderByDesc {A} (key : A -> Timestamp) (l : list A) : list A :=
  match l with
  | [] => []
  | x :: l' => insertDesc key x (orderByDesc key l')
  end.

(** [.limit(n)].  The query builder writes the LIMIT clause for a number
    [n >= 0] only, so a negative [n] leaves the query without one and every
    row comes back.  PostgreSQL reads the count as a bigint and refuses a
    number that does not fit.  The count is a whole number here, as the
    routes pass it. *)
Definition limit {A} (n : Z) (l : list A) : result (list A) :=
  if (n <? 0)%Z then Ok l
  else if (n <? 2 ^ 63)%Z then Ok (firstn (Z.to_nat n) l)
  else Throw "value out of range for type bigint".

End Sql.
Import Sql.

(** ** server/storage.ts: class DatabaseStorage *)

Module Storage.

(** *** User operations *)

Definition getUser (id : Id) (db : Db) : option User :=
  hd_error (selectWhere (fun u => user_id u =? id) (users db)).

Definition emailIs (e : string) (u : User) : bool :=
  match user_email u with
  | Some e' => e' =? e
  | None => false
  end.

(** A property left [undefined] in [.set({...})] is not written. *)
Definition orKeep {A} (v : option A) (old : option A) : option A :=
  match v with
  | Some _ => v
  | None => old
  end.

(** [insert(users).values(userData).onConflictDoUpdate({ target: users.id,
    set: excluded.* }).returning()], with [id] the identifier of the row
    to insert. *)
Definition insertOrUpdateUser (now : Timestamp) (userData : UpsertUser)
  (id : Id) (db : Db) : option User * Db :=
  match selectWhere (fun u => user_id u =? id) (users db) with
  | _ :: _ =>
      let upd u :=
        if user_id u =? id then
          mkUser (user_id u) (uu_email userData) (uu_firstName userData)
                 (uu_lastName userData) (user_bio u)
                 (uu_profileImageUrl userData) (user_createdAt u) now
        else u in
      let t := map upd (users db) in
      (hd_error (selectWhere (fun u => user_id u =? id) t), with_users db t)
  | [] =>
      let user :=
        mkUser id (uu_email userData) (uu_firstName userData)
               (uu_lastName userData) None (uu_profileImageUrl userData)
               now now in
      (Some user, with_users db (users db ++ [user]))
  end.

(** [update(users).set({ firstName, lastName, profileImageUrl, updatedAt })
    .where(eq(users.email, e)).returning()]. *)
Definition updateUserByEmail (now : Timestamp) (userData : UpsertUser)
  (e : string) (db : Db) : option User * Db :=
  let upd u :=
    if emailIs e u then
      mkUser (user_id u) (user_email u)
             (orKeep (uu_firstName userData) (user_firstName u))
             (orKeep (uu_lastName userData) (user_lastName u))
             (user_bio u)
             (orKeep (uu_profileImageUrl userData) (user_profileImageUrl u))
             (user_createdAt u) now
    else u in
  let t := map upd (users db) in
  (hd_error (selectWhere (emailIs e) t), with_users db t).

Definition upsertUser (now : Timestamp) (userData : UpsertUser) (db : Db)
  : option User * Db :=
  let existing :=
    match uu_email userData with
    | Some e =>
        if truthy (uu_email userData) then
          match firstn 1 (selectWhere (emailIs e) (users db)) with
          | _ :: _ => Some e
          | [] => None
          end
        else None
    | None => None
    end in
  match existing with
  | Some e => updateUserByEmail now userData e db
  | None =>
      match uu_id userData with
      | Some id => insertOrUpdateUser now userData id db
      | None => insertOrUpdateUser now userData (genId db) (tick db)
      end
  end.

Definition isFollowing (followerId followingId : Id) (db : Db) : bool :=
  notNot (hd_error (selectWhere
    (fun f => (follow_followerId f =? followerId)
              && (follow_followingId f =? followingId)) (follows db))).

Definition getUserProfile (userId : Id) (currentUserId : option Id) (db : Db)
  : option UserProfile :=
  match hd_error (selectWhere (fun u => user_id u =? userId) (users db)) with
  | None => None
  | Some user =>
      let postsCount := countWhere (fun p => post_userId p =? userId) (posts db) in
      let followersCount :=
        countWhere (fun f => follow_followingId f =? userId) (follows db) in
      let followingCount :=
        countWhere (fun f => follow_followerId f =? userId) (follows db) in
      let following :=
        match currentUserId with
        | Some cur =>
            if truthy currentUserId && negb (cur =? userId)
            then isFollowing cur userId db else false
        | None => false
        end in
      Some (mkUserProfile user postsCount followersCount followingCount following)
  end.

Definition updateUserBio (now : Timestamp) (userId : Id) (bio : option string)
  (db : Db) : option User * Db :=
  let upd u :=
    if user_id u =? userId then
      mkUser (user_id u) (user_email u) (user_firstName u) (user_lastName u)
             bio (user_profileImageUrl u) (user_createdAt u) now
    else u in
  let t := map upd (users db) in
  (hd_error (selectWhere (fun u => user_id u =? userId) t), with_users db t).

(** [data.x !== undefined] guards every field; the route passes [null] to
    clear the bio and the image, hence the nested option. *)
Record ProfileData := mkProfileData {
  pd_firstName : option string;
  pd_lastName : option string;
  pd_bio : option (option string);
  pd_profileImageUrl : option (option string)
}.

Definition orKeepNull {A} (v : option (option A)) (old : option A) : option A :=
  match v with
  | Some x => x
  | None => old
  end.

Definition updateUserProfile (now : Timestamp) (userId : Id) (data : ProfileData)
  (db : Db) : option User * Db :=
  let upd u :=
    if user_id u =? userId then
      mkUser (user_id u) (user_email u)
             (orKeep (pd_firstName data) (user_firstName u))
             (orKeep (pd_lastName data) (user_lastName u))
             (orKeepNull (pd_bio data) (user_bio u))
             (orKeepNull (pd_profileImageUrl data) (user_profileImageUrl u))
             (user_createdAt u) now
    else u in
  let t := map upd (users db) in
  (hd_error (selectWhere (fun u => user_id u =? userId) t), with_users db t).

(** *** Post operations *)

Definition createPost (now : Timestamp) (postData : InsertPost) (db : Db)
  : Post * Db :=
  let post := mkPost (genId db) (ip_userId postData) (ip_content postData)
                     (ip_imageUrl postData) (ip_locationId postData) now in
  (post, tick (with_posts db (posts db ++ [post]))).

Definition getPost (id : Id) (db : Db) : option Post :=
  hd_error (selectWhere (fun p => post_id p =? id) (posts db)).

Definition getUserPosts (userId : Id) (db : Db) : list Post :=
  orderByDesc post_createdAt
    (selectWhere (fun p => post_userId p =? userId) (posts db)).

(** [from(posts).leftJoin(users, ...).leftJoin(locations, ...)]. *)
Definition postRows (db : Db) : list (Post * option User * option Location) :=
  leftJoin (fun (pu : Post * option User) l =>
              eqRef (post_locationId (fst pu)) (location_id l))
    (leftJoin (fun p u => post_userId p =? user_id u) (posts db) (users db))
    (locations db).

Definition rowPost (r : Post * option User * option Location) : Post :=
  fst (fst r).

Definition getFeedPosts (userId : Id) (lim : option Z) (db : Db)
  : result (list PostWithDetails) :=
  let n := match lim with Some n => n | None => 20%Z end in
  feedPosts <- limit n
    (orderByDesc (fun r => post_createdAt (rowPost r)) (postRows db)) ;;
  promiseAll (fun r : Post * option User * option Location =>
    let '(post, user, location) := r in
    match user with
    | None => Throw "Post has no user"
    | Some user =>
        let likesCount :=
          countWhere (fun l => eqCol (like_postId l) (post_id post)) (likes db) in
        let commentsCount :=
          countWhere (fun c => eqCol (comment_postId c) (post_id post))
                     (comments db) in
        let userLike :=
          hd_error (selectWhere
            (fun l => eqCol (like_postId l) (post_id post)
                      && (like_userId l =? userId)) (likes db)) in
        let userSave :=
          hd_error (selectWhere
            (fun s => eqCol (save_postId s) (post_id post)
                      && (save_userId s =? userId)) (saves db)) in
        Ok (mkPostWithDetails post (Some user) location likesCount
              commentsCount (notNot userLike) (Some (notNot userSave)))
    end) feedPosts.

Definition getPostWithDetails (postId : Id) (currentUserId : option Id) (db : Db)
  : option PostWithDetails :=
  match hd_error (selectWhere (fun r => post_id (rowPost r) =? postId)
                              (postRows db)) with
  | None => None
  | Some (post, None, _) => None
  | Some (post, Some user, location) =>
      let likesCount :=
        countWhere (fun l => eqCol (like_postId l) postId) (likes db) in
      let commentsCount :=
        countWhere (fun c => eqCol (comment_postId c) postId) (comments db) in
      let isLiked :=
        match currentUserId with
        | Some cur =>
            if truthy currentUserId then
              notNot (hd_error (selectWhere
                (fun l => eqCol (like_postId l) postId
                          && (like_userId l =? cur)) (likes db)))
            else false
        | None => false
        end in
      Some (mkPostWithDetails post (Some user) location likesCount
              commentsCount isLiked None)
  end.

Definition deletePost (postId userId : Id) (db : Db) : bool * Db :=
  let '(deleted, kept) :=
    deleteWhere (fun p => (post_id p =? postId) && (post_userId p =? userId))
                (posts db) in
  ((0 <? length deleted)%nat, with_posts db kept).

Definition deletePostAdmin (postId : Id) (db : Db) : bool * Db :=
  let '(deleted, kept) :=
    deleteWhere (fun p => post_id p =? postId) (posts db) in
  ((0 <? length deleted)%nat, with_posts db kept).

(** *** Video operations *)

Definition createVideo (now : Timestamp) (videoData : InsertVideo) (db : Db)
  : Video * Db :=
  let video := mkVideo (genId db) (iv_userId videoData)
                       (Some (iv_videoUrl videoData))
                       (iv_thumbnailUrl videoData) (iv_locationId videoData)
                       now in
  (video, tick (with_videos db (videos db ++ [video]))).

Definition getVideo (id : Id) (db : Db) : option Video :=
  hd_error (selectWhere (fun v => video_id v =? id) (videos db)).

Definition getUserVideos (userId : Id) (db : Db) : list Video :=
  orderByDesc video_createdAt
    (selectWhere (fun v => video_userId v =? userId) (videos db)).

Definition videoRows (db : Db) : list (Video * option User * option Location) :=
  leftJoin (fun (vu : Video * option User) l =>
              eqRef (video_locationId (fst vu)) (location_id l))
    (leftJoin (fun v u => video_userId v =? user_id u) (videos db) (users db))
    (locations db).

Definition rowVideo (r : Video * option User * option Location) : Video :=
  fst (fst r).

Definition getFeedVideos (userId : Id) (lim : option Z) (db : Db)
  : result (list VideoWithDetails) :=
  let n := match lim with Some n => n | None => 20%Z end in
  feedVideos <- limit n
    (orderByDesc (fun r => video_createdAt (rowVideo r)) (videoRows db)) ;;
  promiseAll (fun r : Video * option User * option Location =>
    let '(video, user, location) := r in
    match user with
    | None => Throw "Video has no user"
    | Some user =>
        let likesCount :=
          countWhere (fun l => eqCol (like_videoId l) (video_id video))
                     (likes db) in
        let commentsCount :=
          countWhere (fun c => eqCol (comment_videoId c) (video_id video))
                     (comments db) in
        let userLike :=
          hd_error (selectWhere
            (fun l => eqCol (like_videoId l) (video_id video)
                      && (like_userId l =? userId)) (likes db)) in
        let userSave :=
          hd_error (selectWhere
            (fun s => eqCol (save_videoId s) (video_id video)
                      && (save_userId s =? userId)) (saves db)) in
        Ok (mkVideoWithDetails video (Some user) location likesCount
              commentsCount (notNot userLike) (Some (notNot userSave)))
    end) feedVideos.

Definition getVideoWithDetails (videoId : Id) (currentUserId : option Id)
  (db : Db) : option VideoWithDetails :=
  match hd_error (selectWhere (fun r => video_id (rowVideo r) =? videoId)
                              (videoRows db)) with
  | None => None
  | Some (video, None, _) => None
  | Some (video, Some user, location) =>
      let likesCount :=
        countWhere (fun l => eqCol (like_videoId l) videoId) (likes db) in
      let commentsCount :=
        countWhere (fun c => eqCol (comment_videoId c) videoId) (comments db) in
      let isLiked :=
        match currentUserId with
        | Some cur =>
            if truthy currentUserId then
              notNot (hd_error (selectWhere
                (fun l => eqCol (like_videoId l) videoId
                          && (like_userId l =? cur)) (likes db)))
            else false
        | None => false
        end in
      Some (mkVideoWithDetails video (Some user) location likesCount
              commentsCount isLiked None)
  end.

Definition deleteVideo (videoId userId : Id) (db : Db) : bool * Db :=
  let '(deleted, kept) :=
    deleteWhere (fun v => (video_id v =? videoId) && (video_userId v =? userId))
                (videos db) in
  ((0 <? length deleted)%nat, with_videos db kept).

Definition deleteVideoAdmin (videoId : Id) (db : Db) : bool * Db :=
  let '(deleted, kept) :=
    deleteWhere (fun v => video_id v =? videoId) (videos db) in
  ((0 <? length deleted)%nat, with_videos db kept).

(** *** Location operations *)

Definition createLocation (now : Timestamp) (locationData : InsertLocation)
  (db : Db) : Location * Db :=
  let location := mkLocation (genId db) (il_userId locationData)
                             (Some (il_lat locationData))
                             (Some (il_lng locationData))
                             (il_label locationData) now in
  (location, tick (with_locations db (locations db ++ [location]))).

Definition getLocation (id : Id) (db : Db) : option Location :=
  hd_error (selectWhere (fun l => location_id l =? id) (locations db)).

Definition getAllLocations (db : Db) : result (list LocationWithDetails) :=
  let allLocations :=
    orderByDesc (fun r : Location * option User => location_createdAt (fst r))
      (leftJoin (fun l u => location_userId l =? user_id u)
                (locations db) (users db)) in
  promiseAll (fun r : Location * option User =>
    let '(location, user) := r in
    match user with
    | None => Throw "Location has no user"
    | Some user =>
        let postsCount :=
          countWhere (fun p => eqCol (post_locationId p) (location_id location))
                     (posts db) in
        Ok (mkLocationWithDetails location user postsCount)
    end) allLocations.

Definition getUserLocations (userId : Id) (db : Db) : list Location :=
  orderByDesc location_createdAt
    (selectWhere (fun l => location_userId l =? userId) (locations db)).

Definition deleteLocation (locationId userId : Id) (db : Db) : bool * Db :=
  let '(deleted, kept) :=
    deleteWhere (fun l => (location_id l =? locationId)
                          && (location_userId l =? userId)) (locations db) in
  ((0 <? length deleted)%nat, with_locations db kept).

Definition deleteLocationAdmin (locationId : Id) (db : Db) : bool * Db :=
  let '(deleted, kept) :=
    deleteWhere (fun l => location_id l =? locationId) (locations db) in
  ((0 <? length deleted)%nat, with_locations db kept).

(** *** Like operations *)

Definition likesPost (userId postId : Id) (l : Like) : bool :=
  (like_userId l =? userId) && eqCol (like_postId l) postId.

Definition likesVideo (userId videoId : Id) (l : Like) : bool :=
  (like_userId l =? userId) && eqCol (like_videoId l) videoId.

Definition likePost (now : Timestamp) (userId postId : Id) (db : Db)
  : Like * Db :=
  (* Check if like already exists *)
  match firstn 1 (selectWhere (likesPost userId postId) (likes db)) with
  | existingLike :: _ => (existingLike, db)
  | [] =>
      let like := mkLike (genId db) userId (Some postId) None now in
      (like, tick (with_likes db (likes db ++ [like])))
  end.

Definition unlikePost (userId postId : Id) (db : Db) : bool * Db :=
  let '(deleted, kept) := deleteWhere (likesPost userId postId) (likes db) in
  ((0 <? length deleted)%nat, with_likes db kept).

Definition likeVideo (now : Timestamp) (userId videoId : Id) (db : Db)
  : Like * Db :=
  match firstn 1 (selectWhere (likesVideo userId videoId) (likes db)) with
  | existingLike :: _ => (existingLike, db)
  | [] =>
      let like := mkLike (genId db) userId None (Some videoId) now in
      (like, tick (with_likes db (likes db ++ [like])))
  end.

Definition unlikeVideo (userId videoId : Id) (db : Db) : bool * Db :=
  let '(deleted, kept) := deleteWhere (likesVideo userId videoId) (likes db) in
  ((0 <? length deleted)%nat, with_likes db kept).

Definition isLikedPost (userId postId : Id) (db : Db) : bool :=
  notNot (hd_error (selectWhere (likesPost userId postId) (likes db))).

Definition isLikedVideo (userId videoId : Id) (db : Db) : bool :=
  notNot (hd_error (selectWhere (likesVideo userId videoId) (likes db))).

(** *** Comment operations *)

Definition createComment (now : Timestamp) (commentData : InsertComment)
  (db : Db) : Comment * Db :=
  let comment := mkComment (genId db) (ic_userId commentData)
                           (ic_postId commentData) (ic_videoId commentData)
                           (Some (ic_text commentData)) now in
  (comment, tick (with_comments db (comments db ++ [comment]))).

Definition commentRows (db : Db) : list (Comment * option User) :=
  leftJoin (fun c u => comment_userId c =? user_id u) (comments db) (users db).

Definition withUser (r : Comment * option User) : result CommentWithUser :=
  let '(comment, user) := r in
  match user with
  | None => Throw "Comment has no user"
  | Some user => Ok (mkCommentWithUser comment user)
  end.

Definition getPostComments (postId : Id) (db : Db)
  : result (list CommentWithUser) :=
  let postComments :=
    orderByDesc (fun r : Comment * option User => comment_createdAt (fst r))
      (selectWhere (fun r => eqCol (comment_postId (fst r)) postId)
                   (commentRows db)) in
  promiseAll withUser postComments.

Definition getVideoComments (videoId : Id) (db : Db)
  : result (list CommentWithUser) :=
  let videoComments :=
    orderByDesc (fun r : Comment * option User => comment_createdAt (fst r))
      (selectWhere (fun r => eqCol (comment_videoId (fst r)) videoId)
                   (commentRows db)) in
  promiseAll withUser videoComments.

Definition deleteComment (commentId userId : Id) (db : Db) : bool * Db :=
  let '(deleted, kept) :=
    deleteWhere (fun c => (comment_id c =? commentId)
                          && (comment_userId c =? userId)) (comments db) in
  ((0 <? length deleted)%nat, with_comments db kept).

Definition deleteCommentAdmin (commentId : Id) (db : Db) : bool * Db :=
  let '(deleted, kept) :=
    deleteWhere (fun c => comment_id c =? commentId) (comments db) in
  ((0 <? length deleted)%nat, with_comments db kept).

(** *** Admin operations: all content, for moderation *)

Definition getAllPosts (db : Db) : result (list PostWithDetails) :=
  let allPosts :=
    orderByDesc (fun r => post_createdAt (rowPost r)) (postRows db) in
  promiseAll (fun r : Post * option User * option Location =>
    let '(post, user, location) := r in
    match user with
    | None => Throw "Post has no user"
    | Some user =>
        let likesCount :=
          countWhere (fun l => eqCol (like_postId l) (post_id post)) (likes db) in
        let commentsCount :=
          countWhere (fun c => eqCol (comment_postId c) (post_id post))
                     (comments db) in
        (* Admin view doesn't need user-specific like status *)
        Ok (mkPostWithDetails post (Some user) location likesCount
              commentsCount false None)
    end) allPosts.

Definition getAllVideos (db : Db) : result (list VideoWithDetails) :=
  let allVideos :=
    orderByDesc (fun r => video_createdAt (rowVideo r)) (videoRows db) in
  promiseAll (fun r : Video * option User * option Location =>
    let '(video, user, location) := r in
    match user with
    | None => Throw "Video has no user"
    | Some user =>
        let likesCount :=
          countWhere (fun l => eqCol (like_videoId l) (video_id video))
                     (likes db) in
        let commentsCount :=
          countWhere (fun c => eqCol (comment_videoId c) (video_id video))
                     (comments db) in
        Ok (mkVideoWithDetails video (Some user) location likesCount
              commentsCount false None)
    end) allVideos.

Definition getAllComments (db : Db) : result (list CommentWithUser) :=
  let allComments :=
    orderByDesc (fun r : Comment * option User => comment_createdAt (fst r))
                (commentRows db) in
  promiseAll withUser allComments.

(** *** Follow operations *)

Definition followUser (now : Timestamp) (followerId followingId : Id) (db : Db)
  : Follow * Db :=
  let follow := mkFollow (genId db) followerId followingId now in
  (follow, tick (with_follows db (follows db ++ [follow]))).

Definition unfollowUser (followerId followingId : Id) (db : Db) : bool * Db :=
  let '(deleted, kept) :=
    deleteWhere (fun f => (follow_followerId f =? followerId)
                          && (follow_followingId f =? followingId))
                (follows db) in
  ((0 <? length deleted)%nat, with_follows db kept).

(** *** Save operations *)

Definition savesPost (userId postId : Id) (s : Save) : bool :=
  (save_userId s =? userId) && eqCol (save_postId s) postId.

Definition savesVideo (userId videoId : Id) (s : Save) : bool :=
  (save_userId s =? userId) && eqCol (save_videoId s) videoId.

Definition savePost (now : Timestamp) (userId postId : Id) (db : Db)
  : Save * Db :=
  match hd_error (selectWhere (savesPost userId postId) (saves db)) with
  | Some existingSave => (existingSave, db)
  | None =>
      let save := mkSave (genId db) userId (Some postId) None now in
      (save, tick (with_saves db (saves db ++ [save])))
  end.

Definition unsavePost (userId postId : Id) (db : Db) : bool * Db :=
  let '(deleted, kept) := deleteWhere (savesPost userId postId) (saves db) in
  ((0 <? length deleted)%nat, with_saves db kept).

Definition saveVideo (now : Timestamp) (userId videoId : Id) (db : Db)
  : Save * Db :=
  match hd_error (selectWhere (savesVideo userId videoId) (saves db)) with
  | Some existingSave => (existingSave, db)
  | None =>
      let save := mkSave (genId db) userId None (Some videoId) now in
      (save, tick (with_saves db (saves db ++ [save])))
  end.

Definition unsaveVideo (userId videoId : Id) (db : Db) : bool * Db :=
  let '(deleted, kept) := deleteWhere (savesVideo userId videoId) (saves db) in
  ((0 <? length deleted)%nat, with_saves db kept).

(** [from(saves).innerJoin(posts, ...).leftJoin(users, ...)
    .leftJoin(locations, ...)]. *)
Definition savedPostRows (db : Db)
  : list (Save * Post * option User * option Location) :=
  leftJoin (fun (spu : Save * Post * option User) l =>
              eqRef (post_locationId (snd (fst spu))) (location_id l))
    (leftJoin (fun (sp : Save * Post) u => post_userId (snd sp) =? user_id u)
       (innerJoin (fun s p => eqRef (save_postId s) (post_id p))
                  (saves db) (posts db))
       (users db))
    (locations db).

Definition rowSave {A} (r : Save * A * option User * option Location) : Save :=
  fst (fst (fst r)).

Definition getSavedPosts (userId : Id) (db : Db) : list PostWithDetails :=
  let savedPosts :=
    orderByDesc (fun r => save_createdAt (rowSave r))
      (selectWhere
         (fun r => (save_userId (rowSave r) =? userId)
                   && isNotNull (save_postId (rowSave r)))
         (savedPostRows db)) in
  map (fun r : Save * Post * option User * option Location =>
    let '(_, post, user, location) := r in
    let likesCount :=
      countWhere (fun l => eqCol (like_postId l) (post_id post)) (likes db) in
    let commentsCount :=
      countWhere (fun c => eqCol (comment_postId c) (post_id post))
                 (comments db) in
    let isLiked := isLikedPost userId (post_id post) db in
    (* user: user! *)
    mkPostWithDetails post user location likesCount commentsCount isLiked None)
    savedPosts.

Definition savedVideoRows (db : Db)
  : list (Save * Video * option User * option Location) :=
  leftJoin (fun (svu : Save * Video * option User) l =>
              eqRef (video_locationId (snd (fst svu))) (location_id l))
    (leftJoin (fun (sv : Save * Video) u => video_userId (snd sv) =? user_id u)
       (innerJoin (fun s v => eqRef (save_videoId s) (video_id v))
                  (saves db) (videos db))
       (users db))
    (locations db).

Definition getSavedVideos (userId : Id) (db : Db) : list VideoWithDetails :=
  let savedVideos :=
    orderByDesc (fun r => save_createdAt (rowSave r))
      (selectWhere
         (fun r => (save_userId (rowSave r) =? userId)
                   && isNotNull (save_videoId (rowSave r)))
         (savedVideoRows db)) in
  map (fun r : Save * Video * option User * option Location =>
    let '(_, video, user, location) := r in
    let likesCount :=
      countWhere (fun l => eqCol (like_videoId l) (video_id video)) (likes db) in
    let commentsCount :=
      countWhere (fun c => eqCol (comment_videoId c) (video_id video))
                 (comments db) in
    let isLiked := isLikedVideo userId (video_id video) db in
    mkVideoWithDetails video user location likesCount commentsCount isLiked None)
    savedVideos.

Definition isSavedPost (userId postId : Id) (db : Db) : bool :=
  notNot (hd_error (selectWhere (savesPost userId postId) (saves db))).

Definition isSavedVideo (userId videoId : Id) (db : Db) : bool :=
  notNot (hd_error (selectWhere (savesVideo userId videoId) (saves db))).

End Storage.

(** ** shared/schema.ts: the comment validation schema *)

Module Zod.

(** The request body as parsed JSON, one level deep. *)
Inductive JsValue : Type :=
| JsUndefined
| JsNull
| JsBool (b : bool)
| JsNumber (n : Z)
| JsString (s : string).

Definition JsObject := list (string * JsValue).

Fixpoint getProp (o : JsObject) (k : string) : JsValue :=
  match o with
  | [] => JsUndefined
  | (k', v) :: o' => if k' =? k then v else getProp o' k
  end.

(** [{ ...body, userId }]: the later property wins. *)
Definition spreadWith (body : JsObject) (k : string) (v : JsValue) : JsObject :=
  (k, v) :: body.

(** [z.string()]. *)
Definition zString (v : JsValue) : result string :=
  match v with
  | JsString s => Ok s
  | JsUndefined => Throw "Required"
  | _ => Throw "Expected string"
  end.

(** [z.string().optional()]. *)
Definition zStringOptional (v : JsValue) : result (option string) :=
  match v with
  | JsUndefined => Ok None
  | JsString s => Ok (Some s)
  | _ => Throw "Expected string"
  end.

(** [insertCommentSchema.parse]: unknown keys are stripped, the four
    declared ones are checked one by one. *)
Definition insertCommentSchema (o : JsObject) : result InsertComment :=
  userId <- zString (getProp o "userId") ;;
  postId <- zStringOptional (getProp o "postId") ;;
  videoId <- zStringOptional (getProp o "videoId") ;;
  text <- zString (getProp o "text") ;;
  Ok (mkInsertComment userId postId videoId text).

End Zod.
Import Zod.

(** ** server/routes.ts: the handlers behind [isAuthenticated] *)

Module Routes.

Inductive Payload : Type :=
| Message (m : string)
| Success
| LikeJson (l : Like)
| CommentJson (c : Comment)
| FollowJson (f : Follow).

Record Response := mkResponse {
  status : nat;
  payload : Payload
}.

(** [res.json(x)] answers 200. *)
Definition json (p : Payload) : Response := mkResponse 200 p.

(** [app.post('/api/likes/post/:postId')]; [sub] is [req.user.claims.sub]. *)
Definition postLikesPost (now : Timestamp) (sub postId : Id) (db : Db)
  : Response * Db :=
  let '(like, db') := Storage.likePost now sub postId db in
  (json (LikeJson like), db').

(** [app.delete('/api/likes/post/:postId')]. *)
Definition deleteLikesPost (sub postId : Id) (db : Db) : Response * Db :=
  let '(_, db') := Storage.unlikePost sub postId db in
  (* Return success even if like didn't exist (idempotent delete) *)
  (json Success, db').

(** [app.post('/api/comments')]. *)
Definition postComments (now : Timestamp) (sub : Id) (body : JsObject) (db : Db)
  : Response * Db :=
  match insertCommentSchema (spreadWith body "userId" (JsString sub)) with
  | Ok commentData =>
      let '(comment, db') := Storage.createComment now commentData db in
      (json (CommentJson comment), db')
  | Throw m => (mkResponse 400 (Message m), db)
  end.

(** [app.post('/api/follows/:userId')]. *)
Definition postFollows (now : Timestamp) (sub userId : Id) (db : Db)
  : Response * Db :=
  let followerId := sub in
  let followingId := userId in
  if followerId =? followingId then
    (mkResponse 400 (Message "Cannot follow yourself"), db)
  else
    let '(follow, db') := Storage.followUser now followerId followingId db in
    (json (FollowJson follow), db').

(** [app.delete('/api/follows/:userId')]. *)
Definition deleteFollows (sub userId : Id) (db : Db) : Response * Db :=
  let '(unfollowed, db') := Storage.unfollowUser sub userId db in
  if unfollowed then (json Success, db')
  else (mkResponse 404 (Message "Follow relationship not found"), db').

End Routes.

(** ** Reachable stores

    A store is reachable when the storage methods build it from the empty
    store, one call after the other. *)

Inductive Op : Type :=
| UpsertUser (now : Timestamp) (userData : UpsertUser)
| UpdateUserBio (now : Timestamp) (userId : Id) (bio : option string)
| UpdateUserProfile (now : Timestamp) (userId : Id) (data : Storage.ProfileData)
| CreatePost (now : Timestamp) (postData : InsertPost)
| DeletePost (postId userId : Id)
| DeletePostAdmin (postId : Id)
| CreateVideo (now : Timestamp) (videoData : InsertVideo)
| DeleteVideo (videoId userId : Id)
| DeleteVideoAdmin (videoId : Id)
| CreateLocation (now : Timestamp) (locationData : InsertLocation)
| DeleteLocation (locationId userId : Id)
| DeleteLocationAdmin (locationId : Id)
| LikePost (now : Timestamp) (userId postId : Id)
| UnlikePost (userId postId : Id)
| LikeVideo (now : Timestamp) (userId videoId : Id)
| UnlikeVideo (userId videoId : Id)
| CreateComment (now : Timestamp) (commentData : InsertComment)
| DeleteComment (commentId userId : Id)
| DeleteCommentAdmin (commentId : Id)
| FollowUser (now : Timestamp) (followerId followingId : Id)
| UnfollowUser (followerId followingId : Id)
| SavePost (now : Timestamp) (userId postId : Id)
| UnsavePost (userId postId : Id)
| SaveVideo (now : Timestamp) (userId videoId : Id)
| UnsaveVideo (userId videoId : Id).

Definition exec (op : Op) (db : Db) : Db :=
  match op with
  | UpsertUser now d => snd (Storage.upsertUser now d db)
  | UpdateUserBio now u b => snd (Storage.updateUserBio now u b db)
  | UpdateUserProfile now u d => snd (Storage.updateUserProfile now u d db)
  | CreatePost now d => snd (Storage.createPost now d db)
  | DeletePost p u => snd (Storage.deletePost p u db)
  | DeletePostAdmin p => snd (Storage.deletePostAdmin p db)
  | CreateVideo now d => snd (Storage.createVideo now d db)
  | DeleteVideo v u => snd (Storage.deleteVideo v u db)
  | DeleteVideoAdmin v => snd (Storage.deleteVideoAdmin v db)
  | CreateLocation now d => snd (Storage.createLocation now d db)
  | DeleteLocation l u => snd (Storage.deleteLocation l u db)
  | DeleteLocationAdmin l => snd (Storage.deleteLocationAdmin l db)
  | LikePost now u p => snd (Storage.likePost now u p db)
  | UnlikePost u p => snd (Storage.unlikePost u p db)
  | LikeVideo now u v => snd (Storage.likeVideo now u v db)
  | UnlikeVideo u v => snd (Storage.unlikeVideo u v db)
  | CreateComment now d => snd (Storage.createComment now d db)
  | DeleteComment c u => snd (Storage.deleteComment c u db)
  | DeleteCommentAdmin c => snd (Storage.deleteCommentAdmin c db)
  | FollowUser now a b => snd (Storage.followUser now a b db)
  | UnfollowUser a b => snd (Storage.unfollowUser a b db)
  | SavePost now u p => snd (Storage.savePost now u p db)
  | UnsavePost u p => snd (Storage.unsavePost u p db)
  | SaveVideo now u v => snd (Storage.saveVideo now u v db)
  | UnsaveVideo u v => snd (Storage.unsaveVideo u v db)
  end.

Inductive reachable : Db -> Prop :=
| reachable_empty : reachable emptyDb
| reachable_step (op : Op) (db : Db) : reachable db -> reachable (exec op db).

Definition run (ops : list Op) (db : Db) : Db :=
  fold_left (fun d op => exec op d) ops db.

(** * Statements

    The predicates of the properties below, and the stores they are
    evaluated on. *)

(** [a] may come before [b] in a newest-first listing. *)
Definition descending {A} (key : A -> Timestamp) : A -> A -> Prop :=
  fun a b => (key b <= key a)%Z.

(** The methods that write the [likes] table. *)
Definition writesLikes (op : Op) : bool :=
  match op with
  | LikePost _ _ _ | UnlikePost _ _ | LikeVideo _ _ _ | UnlikeVideo _ _ => true
  | _ => false
  end.

(** The Like rows of a (user, post) pair. *)
Definition likeRows (userId postId : Id) (db : Db) : list Like :=
  selectWhere (Storage.likesPost userId postId) (likes db).

(** At most one Like row per (user, post). *)
Definition likesUnique (db : Db) : Prop :=
  forall u p, length (likeRows u p db) <= 1.

Definition followPair (f : Follow) : Id * Id :=
  (follow_followerId f, follow_followingId f).

(** At most one Follow row per (follower, followee). *)
Definition followsUnique (db : Db) : Prop :=
  NoDup (map followPair (follows db)).

Definition ownedPost (postId userId : Id) (p : Post) : bool :=
  (post_id p =? postId) && (post_userId p =? userId).

(** Every table but [posts], and the identifier supply, are the same. *)
Definition sameButPosts (db db' : Db) : Prop :=
  users db' = users db /\ videos db' = videos db
  /\ locations db' = locations db /\ likes db' = likes db
  /\ comments db' = comments db /\ follows db' = follows db
  /\ saves db' = saves db /\ serial db' = serial db.

Definition sameButVideos (db db' : Db) : Prop :=
  users db' = users db /\ posts db' = posts db
  /\ locations db' = locations db /\ likes db' = likes db
  /\ comments db' = comments db /\ follows db' = follows db
  /\ saves db' = saves db /\ serial db' = serial db.

Definition ownedVideo (videoId userId : Id) (v : Video) : bool :=
  (video_id v =? videoId) && (video_userId v =? userId).

(** Exactly one of [postId] and [videoId] is set. *)
Definition exactlyOne (postId videoId : option Id) : bool :=
  xorb (notNot postId) (notNot videoId).

Definition likeTarget (l : Like) : Prop :=
  exactlyOne (like_postId l) (like_videoId l) = true.
Definition commentTarget (c : Comment) : Prop :=
  exactlyOne (comment_postId c) (comment_videoId c) = true.
Definition saveTarget (s : Save) : Prop :=
  exactlyOne (save_postId s) (save_videoId s) = true.

Definition targetsExclusive (db : Db) : Prop :=
  Forall likeTarget (likes db)
  /\ Forall commentTarget (comments db)
  /\ Forall saveTarget (saves db).

(** Every post has its owner in [users]. *)
Definition postOwnersStored (db : Db) : Prop :=
  forall p, In p (posts db) ->
    exists u, In u (users db) /\ user_id u = post_userId p.




(** The rows a query with [.limit(n)] takes from its ordered rows. *)
Definition fetched {A} (n : Z) (rows : list A) : list A :=
  if (n <? 0)%Z then rows else firstn (Z.to_nat n) rows.



(** Two posts of a stored user, a feed of one: the newer post. *)
Definition feedDb : Db :=
  run [UpsertUser 0%Z (mkUpsertUser (Some "u1") (Some "u1@example.com") None None None);
       CreatePost 1%Z (mkInsertPost "u1" (Some "first") None None);
       CreatePost 2%Z (mkInsertPost "u1" (Some "second") None None)] emptyDb.

(** A post and a video of a user that was never stored, both saved by
    [u1]. *)
Definition ownerlessDb : Db :=
  run [CreatePost 1%Z (mkInsertPost "ghost" (Some "hello") None None);
       SavePost 2%Z "u1" "0";
       CreateVideo 3%Z (mkInsertVideo "ghost" "clip.mp4" None None);
       SaveVideo 4%Z "u1" "2"] emptyDb.

(** A's post "0", then B likes it, saves it and comments on it. *)
Definition scenarioDb : Db :=
  run [UpsertUser 0%Z (mkUpsertUser (Some "A") (Some "a@example.com") None None None);
       UpsertUser 0%Z (mkUpsertUser (Some "B") (Some "b@example.com") None None None);
       CreatePost 1%Z (mkInsertPost "A" (Some "hello") None None);
       LikePost 2%Z "B" "0";
       SavePost 3%Z "B" "0";
       CreateComment 4%Z (mkInsertComment "B" (Some "0") None "nice!")] emptyDb.

(** The counts and flags of a view, [isSaved] last. *)
Definition flags (d : PostWithDetails) : nat * nat * bool * option bool :=
  (pwd_likesCount d, pwd_commentsCount d, pwd_isLiked d, pwd_isSaved d).

(** The keys of a table are distinct and were all drawn from the supply. *)
Definition generated (n : nat) (ids : list Id) : Prop :=
  NoDup ids /\ Forall (fun id => exists k, k < n /\ id = idOfNat k) ids.

Definition keysGenerated (db : Db) : Prop :=
  generated (serial db) (map post_id (posts db))
  /\ generated (serial db) (map video_id (videos db))
  /\ generated (serial db) (map location_id (locations db))
  /\ generated (serial db) (map like_id (likes db))
  /\ generated (serial db) (map comment_id (comments db))
  /\ generated (serial db) (map follow_id (follows db))
  /\ generated (serial db) (map save_id (saves db)).

(** The user ids come from the caller; [onConflictDoUpdate] keeps them
    distinct. *)
Definition userKeysUnique (db : Db) : Prop := NoDup (map user_id (users db)).

(** ** server/utils/adminCheck.ts *)

Module AdminCheck.

(** [s.split(',')]: the pieces between the commas; the empty string has
    one piece, itself. *)
Fixpoint split (sep : ascii) (s : string) : list string :=
  match s with
  | EmptyString => [EmptyString]
  | String c s' =>
      if Ascii.eqb c sep then EmptyString :: split sep s'
      else match split sep s' with
           | piece :: pieces => String c piece :: pieces
           | [] => [String c EmptyString]
           end
  end.

(** [process.env.ADMIN_EMAILS || '']. *)
Definition orEmpty (v : option string) : string :=
  match v with
  | Some s => if truthy v then s else ""
  | None => ""
  end.

Section Builtins.

(** [String.prototype.toLowerCase] and [String.prototype.trim]. *)
Variables toLowerCase trim : string -> string.

Definition adminList (ADMIN_EMAILS : option string) : list string :=
  map (fun e => toLowerCase (trim e)) (split "," (orEmpty ADMIN_EMAILS)).

(** [list.includes(x)] on strings. *)
Definition includes (l : list string) (x : string) : bool :=
  existsb (fun y => y =? x) l.

Definition isAdmin (ADMIN_EMAILS : option string) (email : option string) : bool :=
  match email with
  | Some e =>
      if negb (truthy email) then false
      else includes (adminList ADMIN_EMAILS) (toLowerCase e)
  | None => false
  end.

End Builtins.

(** The two built-ins on ASCII text, to run [isAdmin] on examples. *)
Definition lowerChar (c : ascii) : ascii :=
  let n := nat_of_ascii c in
  if (65 <=? n)%nat && (n <=? 90)%nat then ascii_of_nat (n + 32) else c.

Fixpoint asciiLower (s : string) : string :=
  match s with
  | EmptyString => EmptyString
  | String c s' => String (lowerChar c) (asciiLower s')
  end.

Definition isBlank (c : ascii) : bool :=
  let n := nat_of_ascii c in
  (n =? 32)%nat || ((9 <=? n)%nat && (n <=? 13)%nat).

Fixpoint trimStart (s : string) : string :=
  match s with
  | EmptyString => EmptyString
  | String c s' => if isBlank c then trimStart s' else s
  end.

Fixpoint trimEnd (s : string) : string :=
  match s with
  | EmptyString => EmptyString
  | String c s' =>
      match trimEnd s' with
      | EmptyString => if isBlank c then EmptyString else String c EmptyString
      | rest => String c rest
      end
  end.

Definition asciiTrim (s : string) : string := trimEnd (trimStart s).

End AdminCheck.

(** ** More handlers of [registerRoutes] *)

Module Api.

Inductive Json : Type :=
| JMessage (m : string)
| JSuccess
| JPost (p : PostWithDetails)
| JPosts (l : list PostWithDetails)
| JVideos (l : list VideoWithDetails)
| JLocations (l : list LocationWithDetails)
| JComments (l : list CommentWithUser)
| JProfile (p : UserProfile).

Record Reply := mkReply {
  code : nat;
  body : Json
}.

(** [res.json(x)] answers 200. *)
Definition ok (j : Json) : Reply := mkReply 200 j.

(** [req.params.userId || currentUserId]. *)
Definition orElse (param : option string) (fallback : string) : string :=
  match param with
  | Some s => if truthy param then s else fallback
  | None => fallback
  end.

Section Handlers.

Variables toLowerCase trim : string -> string.
(** [process.env.ADMIN_EMAILS]. *)
Variable ADMIN_EMAILS : option string.

Definition isAdmin (email : option string) : bool :=
  AdminCheck.isAdmin toLowerCase trim ADMIN_EMAILS email.

Definition forbidden : Reply :=
  mkReply 403 (JMessage "Forbidden - Admin access required").

(** [app.get('/api/admin/posts')]; [email] is [req.user.claims.email]. *)
Definition getAdminPosts (email : option string) (db : Db) : Reply :=
  if negb (isAdmin email) then forbidden
  else match Storage.getAllPosts db with
       | Ok posts => ok (JPosts posts)
       | Throw _ => mkReply 500 (JMessage "Failed to fetch posts")
       end.

(** [app.get('/api/admin/videos')]. *)
Definition getAdminVideos (email : option string) (db : Db) : Reply :=
  if negb (isAdmin email) then forbidden
  else match Storage.getAllVideos db with
       | Ok videos => ok (JVideos videos)
       | Throw _ => mkReply 500 (JMessage "Failed to fetch videos")
       end.

(** [app.get('/api/admin/locations')]. *)
Definition getAdminLocations (email : option string) (db : Db) : Reply :=
  if negb (isAdmin email) then forbidden
  else match Storage.getAllLocations db with
       | Ok locations => ok (JLocations locations)
       | Throw _ => mkReply 500 (JMessage "Failed to fetch locations")
       end.

(** [app.get('/api/admin/comments')]. *)
Definition getAdminComments (email : option string) (db : Db) : Reply :=
  if negb (isAdmin email) then forbidden
  else match Storage.getAllComments db with
       | Ok comments => ok (JComments comments)
       | Throw _ => mkReply 500 (JMessage "Failed to fetch comments")
       end.

(** [app.delete('/api/posts/:postId')]; [sub] is [req.user.claims.sub]. *)
Definition deletePosts (sub : Id) (email : option string) (postId : Id) (db : Db)
  : Reply * Db :=
  let admin := isAdmin email in
  let '(deleted, db') :=
    if admin then Storage.deletePostAdmin postId db
    else Storage.deletePost postId sub db in
  if negb deleted
  then (mkReply 404 (JMessage "Post not found or unauthorized"), db')
  else (ok JSuccess, db').

End Handlers.

(** [app.get('/api/users/profile/:userId?')]. *)
Definition getUsersProfile (sub : Id) (param : option string) (db : Db) : Reply :=
  let currentUserId := sub in
  let userId := orElse param currentUserId in
  match Storage.getUserProfile userId (Some currentUserId) db with
  | None => mkReply 404 (JMessage "User not found")
  | Some profile => ok (JProfile profile)
  end.


(** [app.get('/api/posts/:postId')]. *)
Definition getPostsById (sub : Id) (postId : Id) (db : Db) : Reply :=
  match Storage.getPostWithDetails postId (Some sub) db with
  | None => mkReply 404 (JMessage "Post not found")
  | Some post => ok (JPost post)
  end.

End Api.

(** ** Statements about the rest of the storage layer *)

(** The Save rows of a (user, post) pair. *)
Definition saveRows (userId postId : Id) (db : Db) : list Save :=
  selectWhere (Storage.savesPost userId postId) (saves db).

(** A table with at most one row per pair that [sel] can pick. *)
Definition pairwiseUnique {A} (sel : Id -> Id -> A -> bool) (t : list A) : Prop :=
  forall u p, length (filter (sel u p) t) <= 1.

(** At most one Like row per (user, video), one Save row per (user, post)
    and per (user, video). *)
Definition videoLikesUnique (db : Db) : Prop :=
  forall u v, length (selectWhere (Storage.likesVideo u v) (likes db)) <= 1.

Definition savesUnique (db : Db) : Prop :=
  forall u p, length (saveRows u p db) <= 1.

Definition videoSavesUnique (db : Db) : Prop :=
  forall u v, length (selectWhere (Storage.savesVideo u v) (saves db)) <= 1.

(** The methods that write the [saves] table. *)
Definition writesSaves (op : Op) : bool :=
  match op with
  | SavePost _ _ _ | UnsavePost _ _ | SaveVideo _ _ _ | UnsaveVideo _ _ => true
  | _ => false
  end.

(** The Follow rows from [a] to [b]. *)
Definition followRows (a b : Id) (db : Db) : list Follow :=
  selectWhere (fun f => (follow_followerId f =? a) && (follow_followingId f =? b))
              (follows db).

(** [posts.locationId], looked up. *)
Definition taggedLocation (place : option Id) (db : Db) : option Location :=
  match place with
  | Some l => Storage.getLocation l db
  | None => None
  end.

(** The like flag of a detail view: only a named viewer has one. *)
Definition likedBy (viewer : option Id) (postId : Id) (db : Db) : bool :=
  match viewer with
  | Some cur => truthy viewer && Storage.isLikedPost cur postId db
  | None => false
  end.

(** The detail view of a post, put together from the single-row getters. *)
Definition detailsFromGetters (postId : Id) (viewer : option Id) (db : Db)
  : option PostWithDetails :=
  match Storage.getPost postId db with
  | None => None
  | Some post =>
      match Storage.getUser (post_userId post) db with
      | None => None
      | Some user =>
          Some (mkPostWithDetails post (Some user)
                  (taggedLocation (post_locationId post) db)
                  (countWhere (fun l => eqCol (like_postId l) postId) (likes db))
                  (countWhere (fun c => eqCol (comment_postId c) postId)
                              (comments db))
                  (likedBy viewer postId db) None)
      end
  end.

(** The comments of a post all have their author stored. *)
Definition authorsStored (postId : Id) (db : Db) : Prop :=
  forall c, In c (comments db) -> eqCol (comment_postId c) postId = true ->
    exists user, In user (users db) /\ user_id user = comment_userId c.

(** ** Statements about the routes *)

(** What [z.string()] and [z.string().optional()] let through. *)
Definition isString (v : JsValue) : bool :=
  match v with
  | JsString _ => true
  | _ => false
  end.

Definition isOptionalString (v : JsValue) : bool :=
  match v with
  | JsUndefined | JsString _ => true
  | _ => false
  end.

Definition stringOf (v : JsValue) : option string :=
  match v with
  | JsString s => Some s
  | _ => None
  end.

(** A comment body the route accepts: a text, and a [postId] and a
    [videoId] that are strings where present.  Its [userId] is not looked
    at. *)
Definition acceptableComment (body : JsObject) : bool :=
  isString (getProp body "text")
  && isOptionalString (getProp body "postId")
  && isOptionalString (getProp body "videoId").

(** No comma in the string. *)
Fixpoint commaFree (s : string) : bool :=
  match s with
  | EmptyString => true
  | String c s' => negb (Ascii.eqb c ",") && commaFree s'
  end.

(** The like flag of a video's detail view. *)
Definition videoLikedBy (viewer : option Id) (videoId : Id) (db : Db) : bool :=
  match viewer with
  | Some cur => truthy viewer && Storage.isLikedVideo cur videoId db
  | None => false
  end.

(** The detail view of a video, put together from the single-row getters. *)
Definition videoDetailsFromGetters (videoId : Id) (viewer : option Id) (db : Db)
  : option VideoWithDetails :=
  match Storage.getVideo videoId db with
  | None => None
  | Some video =>
      match Storage.getUser (video_userId video) db with
      | None => None
      | Some user =>
          Some (mkVideoWithDetails video (Some user)
                  (taggedLocation (video_locationId video) db)
                  (countWhere (fun l => eqCol (like_videoId l) videoId) (likes db))
                  (countWhere (fun c => eqCol (comment_videoId c) videoId)
                              (comments db))
                  (videoLikedBy viewer videoId db) None)
      end
  end.

(** * Properties *)

(** ** Lists, filters and the query builder *)

Lemma filter_nil_neg {A} (p : A -> bool) (l : list A) :
  filter p l = [] -> filter (fun r => negb (p r)) l = l.
Proof.
  induction l as [|x l IH]; simpl; [reflexivity|].
  destruct (p x); simpl; [discriminate|].
  intros H. now rewrite IH.
Qed.

Lemma filter_neg_idem {A} (p : A -> bool) (l : list A) :
  filter p (filter (fun r => negb (p r)) l) = [].
Proof.
  induction l as [|x l IH]; simpl; [reflexivity|].
  destruct (p x) eqn:E; simpl; [assumption|].
  now rewrite E.
Qed.

Lemma filter_length_le {A} (p q : A -> bool) (l : list A) :
  length (filter p (filter q l)) <= length (filter p l).
Proof.
  induction l as [|x l IH]; simpl; [lia|].
  destruct (q x); simpl; destruct (p x); simpl; lia.
Qed.

Lemma filter_positive {A} (p : A -> bool) (l : list A) :
  (0 <? length (filter p l))%nat = true <-> exists x, In x l /\ p x = true.
Proof.
  rewrite Nat.ltb_lt. split.
  - destruct (filter p l) as [|x t] eqn:E; simpl; [lia|].
    intros _. exists x. apply filter_In. rewrite E. now left.
  - intros [x Hx]. apply filter_In in Hx.
    destruct (filter p l); [contradiction | simpl; lia].
Qed.

Lemma firstn_one_nil {A} (l : list A) : firstn 1 l = [] -> l = [].
Proof. destruct l; [reflexivity | discriminate]. Qed.

Lemma hd_error_none {A} (l : list A) : hd_error l = None -> l = [].
Proof. destruct l; [reflexivity | discriminate]. Qed.

Lemma leftJoin_fst {A B} (on : A -> B -> bool) (l : list A) (r : list B) x :
  In x (leftJoin on l r) -> In (fst x) l.
Proof.
  unfold leftJoin. rewrite in_flat_map. intros [a [Ha Hx]].
  destruct (filter (on a) r) as [|b bs].
  - destruct Hx as [<-|[]]. exact Ha.
  - apply in_map_iff in Hx. destruct Hx as [b' [<- _]]. exact Ha.
Qed.

Lemma leftJoin_none {A B} (on : A -> B -> bool) (l : list A) (r : list B) a :
  In (a, None) (leftJoin on l r) -> forall b, In b r -> on a b = false.
Proof.
  unfold leftJoin. rewrite in_flat_map. intros [a' [_ Hx]] b Hb.
  destruct (filter (on a') r) as [|b0 bs] eqn:E.
  - destruct Hx as [Hx|[]]. injection Hx as ->.
    destruct (on a b) eqn:Eon; [|reflexivity].
    assert (In b (filter (on a) r)) by (apply filter_In; auto).
    rewrite E in H. contradiction.
  - apply in_map_iff in Hx. destruct Hx as [b' [Heq _]]. discriminate.
Qed.

Lemma leftJoin_covers {A B} (on : A -> B -> bool) (l : list A) (r : list B) a :
  In a l -> exists b, In (a, b) (leftJoin on l r).
Proof.
  intros Ha. unfold leftJoin.
  destruct (filter (on a) r) as [|b0 bs] eqn:E.
  - exists None. apply in_flat_map. exists a. split; [exact Ha|].
    rewrite E. now left.
  - exists (Some b0). apply in_flat_map. exists a. split; [exact Ha|].
    rewrite E. now left.
Qed.

(** *** ORDER BY ... DESC *)

Lemma insertDesc_perm {A} (key : A -> Timestamp) x l :
  Permutation (x :: l) (insertDesc key x l).
Proof.
  induction l as [|y l IH]; simpl; [reflexivity|].
  destruct (key x <? key y)%Z; [|reflexivity].
  rewrite perm_swap. now constructor.
Qed.

Lemma orderByDesc_perm {A} (key : A -> Timestamp) l :
  Permutation l (orderByDesc key l).
Proof.
  induction l as [|x l IH]; simpl; [constructor|].
  rewrite <- insertDesc_perm. now constructor.
Qed.

Lemma insertDesc_sorted {A} (key : A -> Timestamp) x l :
  StronglySorted (descending key) l ->
  StronglySorted (descending key) (insertDesc key x l).
Proof.
  induction 1 as [|y l Hs IH Hy]; simpl.
  - repeat constructor.
  - destruct (key x <? key y)%Z eqn:E.
    + constructor; [exact IH|].
      rewrite <- insertDesc_perm. constructor; [|exact Hy].
      unfold descending. apply Z.ltb_lt in E. lia.
    + apply Z.ltb_ge in E. constructor; [now constructor|].
      constructor; [exact E|].
      eapply Forall_impl; [|exact Hy].
      unfold descending. intros; lia.
Qed.

Lemma orderByDesc_sorted {A} (key : A -> Timestamp) l :
  StronglySorted (descending key) (orderByDesc key l).
Proof.
  induction l as [|x l IH]; simpl; [constructor|].
  now apply insertDesc_sorted.
Qed.

Lemma orderByDesc_In {A} (key : A -> Timestamp) l x :
  In x (orderByDesc key l) <-> In x l.
Proof.
  split; apply Permutation_in;
    [symmetry |]; apply orderByDesc_perm.
Qed.

Lemma firstn_In {A} n (l : list A) x : In x (firstn n l) -> In x l.
Proof.
  intros H. rewrite <- (firstn_skipn n l). apply in_or_app. now left.
Qed.

Lemma firstn_sorted {A} (R : A -> A -> Prop) n l :
  StronglySorted R l -> StronglySorted R (firstn n l).
Proof.
  intros H. revert n. induction H as [|x l Hs IH Hx]; intros [|n]; simpl;
    try constructor.
  - apply IH.
  - rewrite Forall_forall in *. intros y Hy. apply Hx.
    eapply firstn_In. exact Hy.
Qed.

Lemma map_sorted {A B} (f : A -> B) (key : B -> Timestamp) l :
  StronglySorted (descending (fun a => key (f a))) l ->
  StronglySorted (descending key) (map f l).
Proof.
  induction 1 as [|x l Hs IH Hx]; simpl; constructor; [exact IH|].
  rewrite Forall_forall in *. intros y Hy.
  apply in_map_iff in Hy. destruct Hy as [a [<- Ha]]. now apply Hx.
Qed.

(** *** Promise.all *)

Lemma promiseAll_ok {A B} (f : A -> result B) rows out :
  promiseAll f rows = Ok out -> Forall2 (fun r b => f r = Ok b) rows out.
Proof.
  revert out. induction rows as [|r rows IH]; simpl; intros out H.
  - injection H as <-. constructor.
  - destruct (f r) eqn:Ef; [|discriminate].
    destruct (promiseAll f rows) eqn:Ep; [|discriminate].
    injection H as <-. constructor; auto.
Qed.

Lemma promiseAll_total {A B} (f : A -> result B) rows :
  Forall (fun r => exists b, f r = Ok b) rows ->
  exists out, promiseAll f rows = Ok out.
Proof.
  induction 1 as [|r rows [b Hb] _ [out IH]]; simpl.
  - now exists [].
  - rewrite Hb, IH. now exists (b :: out).
Qed.

Lemma promiseAll_throw {A B} (f : A -> result B) rows r m :
  In r rows -> f r = Throw m -> (forall r' m', f r' = Throw m' -> m' = m) ->
  promiseAll f rows = Throw m.
Proof.
  intros Hin Hf Hm. induction rows as [|x rows IH]; simpl; [contradiction|].
  destruct Hin as [->|Hin].
  - now rewrite Hf.
  - destruct (f x) eqn:Ex.
    + now rewrite (IH Hin).
    + f_equal. now apply (Hm x).
Qed.

(** ** Which method writes which table *)

Ltac split_code :=
  repeat match goal with
  | |- context [match ?x with _ => _ end] => destruct x
  end; simpl; try reflexivity.

Lemma upsertUser_frame now d db :
  let db' := snd (Storage.upsertUser now d db) in
  posts db' = posts db /\ videos db' = videos db /\ locations db' = locations db
  /\ likes db' = likes db /\ comments db' = comments db
  /\ follows db' = follows db /\ saves db' = saves db.
Proof.
  assert (Hins : forall id db0,
            posts db0 = posts db -> videos db0 = videos db ->
            locations db0 = locations db -> likes db0 = likes db ->
            comments db0 = comments db -> follows db0 = follows db ->
            saves db0 = saves db ->
            let db' := snd (Storage.insertOrUpdateUser now d id db0) in
            posts db' = posts db /\ videos db' = videos db
            /\ locations db' = locations db /\ likes db' = likes db
            /\ comments db' = comments db /\ follows db' = follows db
            /\ saves db' = saves db).
  { intros id db0 ? ? ? ? ? ? ?. unfold Storage.insertOrUpdateUser.
    destruct (selectWhere _ (users db0)); simpl; repeat split; assumption. }
  unfold Storage.upsertUser.
  destruct (uu_email d) as [e|]; [destruct (truthy (Some e))|].
  - destruct (firstn 1 _); simpl.
    + destruct (uu_id d); apply Hins; reflexivity.
    + repeat split; reflexivity.
  - destruct (uu_id d); apply Hins; reflexivity.
  - destruct (uu_id d); apply Hins; reflexivity.
Qed.

Lemma likes_frame op db :
  writesLikes op = false -> likes (exec op db) = likes db.
Proof.
  destruct op; simpl; try discriminate; intros _;
    try (unfold Storage.deletePost, Storage.deletePostAdmin, Storage.deleteVideo,
           Storage.deleteVideoAdmin, Storage.deleteLocation,
           Storage.deleteLocationAdmin, Storage.deleteComment,
           Storage.deleteCommentAdmin, Storage.unfollowUser,
           Storage.savePost, Storage.saveVideo, Storage.unsavePost,
           Storage.unsaveVideo; split_code).
  apply upsertUser_frame.
Qed.

(** ** Likes: get-or-create *)

Lemma likesPost_new now id u p u' p' :
  Storage.likesPost u p (mkLike id u' (Some p') None now) = true ->
  u' = u /\ p' = p.
Proof.
  unfold Storage.likesPost. simpl. rewrite andb_true_iff.
  now rewrite !String.eqb_eq.
Qed.

Lemma likePost_unique now u p db :
  likesUnique db -> likesUnique (snd (Storage.likePost now u p db)).
Proof.
  intros Hu. unfold Storage.likePost.
  destruct (firstn 1 _) eqn:E; simpl; [|exact Hu].
  apply firstn_one_nil in E.
  intros u0 p0. unfold likesUnique, likeRows, selectWhere in *. simpl.
  rewrite filter_app, length_app. simpl.
  destruct (Storage.likesPost u0 p0 _) eqn:El; simpl.
  - apply likesPost_new in El. destruct El as [-> ->]. rewrite E. simpl. lia.
  - specialize (Hu u0 p0). lia.
Qed.

Lemma likeVideo_unique now u v db :
  likesUnique db -> likesUnique (snd (Storage.likeVideo now u v db)).
Proof.
  intros Hu. unfold Storage.likeVideo.
  destruct (firstn 1 _) eqn:E; simpl; [|exact Hu].
  intros u0 p0. unfold likesUnique, likeRows, selectWhere in *. simpl.
  rewrite filter_app, length_app. simpl.
  unfold Storage.likesPost at 2. simpl. rewrite andb_false_r. simpl.
  specialize (Hu u0 p0). lia.
Qed.

Lemma deleteLikes_unique (q : Like -> bool) db :
  likesUnique db ->
  likesUnique (with_likes db (snd (deleteWhere q (likes db)))).
Proof.
  intros Hu u0 p0. unfold likeRows, selectWhere. simpl.
  etransitivity; [apply filter_length_le | apply Hu].
Qed.

Lemma exec_likesUnique op db : likesUnique db -> likesUnique (exec op db).
Proof.
  intros Hu. destruct (writesLikes op) eqn:W.
  - destruct op; try discriminate; simpl.
    + now apply likePost_unique.
    + now apply deleteLikes_unique.
    + now apply likeVideo_unique.
    + now apply deleteLikes_unique.
  - intros u p. unfold likeRows. rewrite (likes_frame op db W). apply Hu.
Qed.

Lemma reachable_likesUnique db : reachable db -> likesUnique db.
Proof.
  induction 1 as [|op db _ IH].
  - intros u p. simpl. lia.
  - now apply exec_likesUnique.
Qed.

Lemma run_reachable ops db : reachable db -> reachable (run ops db).
Proof.
  revert db. induction ops as [|op ops IH]; intros db H; simpl; [exact H|].
  apply IH. now constructor.
Qed.

Lemma with_likes_same db : with_likes db (likes db) = db.
Proof. now destruct db. Qed.

Lemma with_posts_same db : with_posts db (posts db) = db.
Proof. now destruct db. Qed.

Lemma likePost_again now now' u p db :
  Storage.likePost now' u p (snd (Storage.likePost now u p db))
  = Storage.likePost now u p db.
Proof.
  unfold Storage.likePost at 2 3.
  destruct (firstn 1 (selectWhere _ (likes db))) as [|l0 t] eqn:E; simpl.
  - apply firstn_one_nil in E. unfold Storage.likePost. simpl.
    unfold selectWhere in *. rewrite filter_app, E. simpl.
    unfold Storage.likesPost at 1. simpl. now rewrite !String.eqb_refl.
  - unfold Storage.likePost. now rewrite E.
Qed.

Lemma likePost_returned_row now u p db :
  In (fst (Storage.likePost now u p db))
     (likeRows u p (snd (Storage.likePost now u p db))).
Proof.
  unfold Storage.likePost, likeRows.
  destruct (firstn 1 (selectWhere _ (likes db))) as [|l0 t] eqn:E; simpl.
  - unfold selectWhere. rewrite filter_app. apply in_or_app. right. simpl.
    unfold Storage.likesPost at 1. simpl. rewrite !String.eqb_refl. now left.
  - eapply firstn_In. rewrite E. now left.
Qed.

(** C1.  In every reachable store, liking a post twice leaves exactly one
    Like row of the pair: the second [likePost] returns the row the first
    returned and writes nothing.  [unlikePost] on a pair without a Like row
    returns [false] and leaves the store as it is, and the route answers 200
    with [success]. *)
Theorem likePost_idempotent :
  forall (db : Db) (now1 now2 : Timestamp) (u p : Id),
    reachable db ->
    let first := Storage.likePost now1 u p db in
    let second := Storage.likePost now2 u p (snd first) in
    likeRows u p (snd second) = [fst first]
    /\ fst second = fst first
    /\ snd second = snd first
    /\ (forall db0, likeRows u p db0 = [] ->
          Storage.unlikePost u p db0 = (false, db0)
          /\ Routes.deleteLikesPost u p db0 = (Routes.json Routes.Success, db0)).
Proof.
  intros db now1 now2 u p Hr first second.
  assert (Hsame : second = first) by apply likePost_again.
  rewrite Hsame. repeat split.
  - assert (Hu : likesUnique (snd first)).
    { apply likePost_unique. now apply reachable_likesUnique. }
    specialize (Hu u p).
    pose proof (likePost_returned_row now1 u p db) as Hin. fold first in Hin.
    destruct (likeRows u p (snd first)) as [|a [|b t]]; simpl in *.
    + contradiction.
    + destruct Hin as [->|[]]. reflexivity.
    + lia.
  - unfold Storage.unlikePost, deleteWhere. unfold likeRows, selectWhere in H.
    rewrite H, (filter_nil_neg _ _ H). simpl. now rewrite with_likes_same.
  - unfold Routes.deleteLikesPost, Storage.unlikePost, deleteWhere.
    unfold likeRows, selectWhere in H.
    rewrite (filter_nil_neg _ _ H). simpl. now rewrite with_likes_same.
Qed.

Lemma likePost_idempotent_witness :
  likeRows "u1" "p1"
    (snd (Storage.likePost 2%Z "u1" "p1"
            (snd (Storage.likePost 1%Z "u1" "p1" emptyDb))))
  = [mkLike "0" "u1" (Some "p1") None 1%Z].
Proof.
  exact (proj1 (likePost_idempotent emptyDb 1%Z 2%Z "u1" "p1" reachable_empty)).
Defined.

(** ** Follows *)

Lemma followUser_appends now a b db :
  follows (snd (Storage.followUser now a b db))
  = follows db ++ [mkFollow (genId db) a b now].
Proof. reflexivity. Qed.

Lemma followUser_twice_not_unique now1 now2 a b db :
  ~ followsUnique (snd (Storage.followUser now2 a b
                          (snd (Storage.followUser now1 a b db)))).
Proof.
  unfold followsUnique. rewrite !followUser_appends, <- app_assoc, map_app.
  simpl. intros H. apply NoDup_remove_2 in H. apply H.
  apply in_or_app. right. now left.
Qed.

(** C2.  The store reached by two [followUser] calls for the same pair holds
    two Follow rows with that follower and followee: the uniqueness of Follow
    rows does not survive [followUser]. *)
Theorem followUser_twice_duplicates :
  let db := run [FollowUser 1%Z "a" "b"; FollowUser 2%Z "a" "b"] emptyDb in
  reachable db
  /\ follows db = [mkFollow "0" "a" "b" 1%Z; mkFollow "1" "a" "b" 2%Z]
  /\ ~ followsUnique db.
Proof.
  split; [|split].
  - apply run_reachable. constructor.
  - reflexivity.
  - apply (followUser_twice_not_unique 1%Z 2%Z "a" "b" emptyDb).
Qed.

(** C10.  [followUser] compares nothing: called with the same user on both
    sides it appends a Follow row whose follower is its followee.  The route
    handler is the one that refuses the pair. *)
Theorem followUser_accepts_self :
  forall (now : Timestamp) (u : Id) (db : Db),
    let r := Storage.followUser now u u db in
    follows (snd r) = follows db ++ [fst r]
    /\ follow_followerId (fst r) = u
    /\ follow_followingId (fst r) = u
    /\ Routes.status (fst (Routes.postFollows now u u db)) = 400.
Proof.
  intros now u db. simpl. repeat split.
  unfold Routes.postFollows. now rewrite String.eqb_refl.
Qed.

(** C6.  When the caller's id is the [:userId] of the path, the follow
    handler answers 400 and hands back the store it was given: no Follow
    row is written and no identifier is used up. *)
Theorem postFollows_self_rejected :
  forall (now : Timestamp) (sub userId : Id) (db : Db),
    sub = userId ->
    Routes.postFollows now sub userId db
    = (Routes.mkResponse 400 (Routes.Message "Cannot follow yourself"), db).
Proof.
  intros now sub userId db ->. unfold Routes.postFollows.
  now rewrite String.eqb_refl.
Qed.

Lemma postFollows_self_rejected_witness :
  Routes.postFollows 5%Z "u1" "u1" emptyDb
  = (Routes.mkResponse 400 (Routes.Message "Cannot follow yourself"), emptyDb).
Proof.
  exact (postFollows_self_rejected 5%Z "u1" "u1" emptyDb eq_refl).
Defined.

(** With two different ids the handler goes through [followUser]. *)
Lemma postFollows_other now sub userId db :
  sub <> userId ->
  Routes.postFollows now sub userId db
  = (Routes.json (Routes.FollowJson (fst (Storage.followUser now sub userId db))),
     snd (Storage.followUser now sub userId db)).
Proof.
  intros H. unfold Routes.postFollows.
  apply String.eqb_neq in H. now rewrite H.
Qed.

(** ** Deleting posts and videos *)

Lemma deletePost_spec postId userId db :
  Storage.deletePost postId userId db
  = (Nat.ltb 0 (length (filter (ownedPost postId userId) (posts db))),
     with_posts db (filter (fun p => negb (ownedPost postId userId p)) (posts db))).
Proof. reflexivity. Qed.

Lemma deletePostAdmin_spec postId db :
  Storage.deletePostAdmin postId db
  = (Nat.ltb 0 (length (filter (fun p => post_id p =? postId) (posts db))),
     with_posts db (filter (fun p => negb (post_id p =? postId)) (posts db))).
Proof. reflexivity. Qed.

Lemma filter_none {A} (q : A -> bool) (l : list A) :
  (forall x, In x l -> q x = false) -> filter q l = [].
Proof.
  induction l as [|x l IH]; simpl; intros H; [reflexivity|].
  rewrite (H x (or_introl eq_refl)). apply IH. intros y Hy. apply H. now right.
Qed.

(** C5.  [deletePost] answers [true] exactly when a post with that id and
    that owner is stored, and then a second call answers [false]; called by
    a user who owns no post of that id it answers [false] and leaves the
    store as it was; [deletePostAdmin] answers [true] exactly when a post of
    that id is stored, whoever owns it, and no post of that id is left. *)
Theorem deletePost_owner_scoped :
  forall (db : Db) (p owner v : Id),
    (forall x, In x (posts db) -> post_id x = p -> post_userId x <> v) ->
    (fst (Storage.deletePost p owner db) = true
       <-> exists x, In x (posts db) /\ post_id x = p /\ post_userId x = owner)
    /\ fst (Storage.deletePost p owner (snd (Storage.deletePost p owner db)))
       = false
    /\ Storage.deletePost p v db = (false, db)
    /\ (fst (Storage.deletePostAdmin p db) = true
          <-> exists x, In x (posts db) /\ post_id x = p)
    /\ (forall x, In x (posts (snd (Storage.deletePostAdmin p db))) ->
          post_id x <> p).
Proof.
  intros db p owner v Hv.
  split; [split|split; [|split; [|split; [split|]]]].
  - rewrite deletePost_spec. simpl. intros H. apply filter_positive in H.
    destruct H as [x [Hx Ho]]. exists x. unfold ownedPost in Ho.
    apply andb_true_iff in Ho. now rewrite !String.eqb_eq in Ho.
  - intros [x [Hx [Hp Ho]]]. rewrite deletePost_spec. simpl.
    apply filter_positive. exists x. split; [exact Hx|].
    unfold ownedPost. now rewrite Hp, Ho, !String.eqb_refl.
  - rewrite !deletePost_spec. simpl. now rewrite filter_neg_idem.
  - rewrite deletePost_spec.
    assert (E : filter (ownedPost p v) (posts db) = []).
    { apply filter_none. intros x Hx. unfold ownedPost.
      destruct (post_id x =? p) eqn:Ep; [|reflexivity].
      apply String.eqb_eq in Ep. apply String.eqb_neq. now apply Hv. }
    rewrite E, (filter_nil_neg _ _ E). simpl. now rewrite with_posts_same.
  - rewrite deletePostAdmin_spec. simpl. intros H. apply filter_positive in H.
    destruct H as [x [Hx Ho]]. exists x. now rewrite String.eqb_eq in Ho.
  - intros [x [Hx Hp]]. rewrite deletePostAdmin_spec. simpl.
    apply filter_positive. exists x. now rewrite Hp, String.eqb_refl.
  - rewrite deletePostAdmin_spec. simpl. intros x Hin Hp.
    apply filter_In in Hin. destruct Hin as [_ Hn].
    now rewrite Hp, String.eqb_refl in Hn.
Qed.

Lemma deletePost_owner_scoped_witness :
  let db := snd (Storage.createPost 1%Z
                   (mkInsertPost "owner" (Some "hello") None None) emptyDb) in
  Storage.deletePost "0" "visitor" db = (false, db)
  /\ fst (Storage.deletePost "0" "owner" db) = true
  /\ fst (Storage.deletePostAdmin "0" db) = true.
Proof.
  intros db.
  assert (Hv : forall x, In x (posts db) -> post_id x = "0" ->
                         post_userId x <> "visitor").
  { intros x [<-|[]] _. discriminate. }
  destruct (deletePost_owner_scoped db "0" "owner" "visitor" Hv)
    as [_ [_ [Hkeep _]]].
  split; [exact Hkeep | split; reflexivity].
Defined.

(** C9.  The four delete methods of posts and videos take the matching rows
    out of their own table and write nothing else: the Like, Comment and
    Save rows that point at the deleted post or video stay where they are. *)
Theorem delete_no_cascade :
  forall (db : Db) (id userId : Id),
    (let db' := snd (Storage.deletePost id userId db) in
     posts db' = filter (fun p => negb (ownedPost id userId p)) (posts db)
     /\ sameButPosts db db')
    /\ (let db' := snd (Storage.deletePostAdmin id db) in
        posts db' = filter (fun p => negb (post_id p =? id)) (posts db)
        /\ sameButPosts db db')
    /\ (let db' := snd (Storage.deleteVideo id userId db) in
        videos db' = filter (fun v => negb (ownedVideo id userId v)) (videos db)
        /\ sameButVideos db db')
    /\ (let db' := snd (Storage.deleteVideoAdmin id db) in
        videos db' = filter (fun v => negb (video_id v =? id)) (videos db)
        /\ sameButVideos db db').
Proof.
  intros db id userId.
  unfold sameButPosts, sameButVideos; simpl; repeat split; reflexivity.
Qed.

(** The rows that pointed at a deleted post are still counted. *)
Lemma deletePost_keeps_likes id userId db :
  countWhere (fun l => eqCol (like_postId l) id)
             (likes (snd (Storage.deletePost id userId db)))
  = countWhere (fun l => eqCol (like_postId l) id) (likes db).
Proof. reflexivity. Qed.

(** ** One target per Like, Comment and Save *)

Lemma Forall_snoc {A} (P : A -> Prop) l x :
  Forall P (l ++ [x]) <-> Forall P l /\ P x.
Proof.
  rewrite Forall_app. split; intros [H1 H2]; split; auto.
  now inversion H2.
Qed.

Lemma likePost_targets now u p db :
  targetsExclusive db -> targetsExclusive (snd (Storage.likePost now u p db)).
Proof.
  intros [Hl [Hc Hs]]. unfold Storage.likePost.
  destruct (firstn 1 _); simpl; [|now repeat split].
  repeat split; simpl; try assumption.
  apply Forall_snoc. now split.
Qed.

Lemma likeVideo_targets now u v db :
  targetsExclusive db -> targetsExclusive (snd (Storage.likeVideo now u v db)).
Proof.
  intros [Hl [Hc Hs]]. unfold Storage.likeVideo.
  destruct (firstn 1 _); simpl; [|now repeat split].
  repeat split; simpl; try assumption.
  apply Forall_snoc. now split.
Qed.

Lemma savePost_targets now u p db :
  targetsExclusive db -> targetsExclusive (snd (Storage.savePost now u p db)).
Proof.
  intros [Hl [Hc Hs]]. unfold Storage.savePost.
  destruct (hd_error _); simpl; [now repeat split|].
  repeat split; simpl; try assumption.
  apply Forall_snoc. now split.
Qed.

Lemma saveVideo_targets now u v db :
  targetsExclusive db -> targetsExclusive (snd (Storage.saveVideo now u v db)).
Proof.
  intros [Hl [Hc Hs]]. unfold Storage.saveVideo.
  destruct (hd_error _); simpl; [now repeat split|].
  repeat split; simpl; try assumption.
  apply Forall_snoc. now split.
Qed.

Lemma createComment_targets now input db :
  targetsExclusive db ->
  (targetsExclusive (snd (Storage.createComment now input db))
   <-> exactlyOne (ic_postId input) (ic_videoId input) = true).
Proof.
  intros [Hl [Hc Hs]]. unfold targetsExclusive. simpl.
  rewrite Forall_snoc. unfold commentTarget at 2. simpl. tauto.
Qed.

(** C7, as the code has it.  The like and save methods write rows with
    exactly one target, so they keep the one-target property of the three
    tables.  [createComment] stores the [postId] and [videoId] it is given:
    it keeps the property exactly when its input has one of the two. *)
Theorem create_keeps_one_target :
  forall (db : Db) (now : Timestamp) (u t : Id),
    targetsExclusive db ->
    targetsExclusive (snd (Storage.likePost now u t db))
    /\ targetsExclusive (snd (Storage.likeVideo now u t db))
    /\ targetsExclusive (snd (Storage.savePost now u t db))
    /\ targetsExclusive (snd (Storage.saveVideo now u t db))
    /\ (forall input,
          targetsExclusive (snd (Storage.createComment now input db))
          <-> exactlyOne (ic_postId input) (ic_videoId input) = true).
Proof.
  intros db now u t H. split; [|split; [|split; [|split]]].
  - now apply likePost_targets.
  - now apply likeVideo_targets.
  - now apply savePost_targets.
  - now apply saveVideo_targets.
  - intros input. now apply createComment_targets.
Qed.

Lemma emptyDb_targets : targetsExclusive emptyDb.
Proof. repeat split; constructor. Qed.

Lemma create_keeps_one_target_witness :
  targetsExclusive (snd (Storage.likePost 1%Z "u1" "p1" emptyDb))
  /\ targetsExclusive
       (snd (Storage.createComment 1%Z
               (mkInsertComment "u1" (Some "p1") None "nice!") emptyDb)).
Proof.
  destruct (create_keeps_one_target emptyDb 1%Z "u1" "p1" emptyDb_targets)
    as [Hlike [_ [_ [_ Hcomment]]]].
  split; [exact Hlike|]. apply Hcomment. reflexivity.
Defined.

(** The comment schema accepts a body without [postId] and [videoId]; the
    route answers 200 and the stored Comment row has no target. *)
Lemma createComment_without_target :
  let body := [("text", JsString "nice!")] in
  let input := mkInsertComment "u1" None None "nice!" in
  let row := mkComment "0" "u1" None None (Some "nice!") 1%Z in
  insertCommentSchema (spreadWith body "userId" (JsString "u1")) = Ok input
  /\ fst (Routes.postComments 1%Z "u1" body emptyDb)
     = Routes.json (Routes.CommentJson row)
  /\ comments (snd (Storage.createComment 1%Z input emptyDb)) = [row]
  /\ targetsExclusive emptyDb
  /\ ~ targetsExclusive (snd (Storage.createComment 1%Z input emptyDb)).
Proof.
  repeat split; try constructor.
  intros [_ [Hc _]]. simpl in Hc. inversion Hc as [|? ? Hrow _].
  discriminate Hrow.
Qed.

(** ... and one with both. *)
Lemma createComment_with_both_targets :
  let body := [("postId", JsString "p1"); ("videoId", JsString "v1");
               ("text", JsString "nice!")] in
  let input := mkInsertComment "u1" (Some "p1") (Some "v1") "nice!" in
  insertCommentSchema (spreadWith body "userId" (JsString "u1")) = Ok input
  /\ ~ targetsExclusive (snd (Storage.createComment 1%Z input emptyDb)).
Proof.
  split; [reflexivity|].
  intros [_ [Hc _]]. simpl in Hc. inversion Hc as [|? ? Hrow _].
  discriminate Hrow.
Qed.

(** ** The feeds *)

Lemma Forall2_map_eq {A B C} (g : B -> C) (h : A -> C) rows out :
  Forall2 (fun r b => g b = h r) rows out -> map g out = map h rows.
Proof. induction 1; simpl; congruence. Qed.

Lemma sorted_of_map {A B} (f : A -> B) (key : B -> Timestamp) l :
  StronglySorted (descending key) (map f l) ->
  StronglySorted (descending (fun a => key (f a))) l.
Proof.
  induction l as [|x l IH]; simpl; intros H; [constructor|].
  inversion H as [|? ? Hs Hx]; subst. constructor; [now apply IH|].
  rewrite Forall_forall in *. intros y Hy. apply Hx. now apply in_map.
Qed.

Lemma sorted_transport {A B C} (g : B -> C) (h : A -> C)
      (key : C -> Timestamp) rows out :
  map g out = map h rows ->
  StronglySorted (descending (fun r => key (h r))) rows ->
  StronglySorted (descending (fun b => key (g b))) out.
Proof.
  intros E H. apply sorted_of_map. rewrite E. now apply map_sorted.
Qed.

Lemma postRows_post db r : In r (Storage.postRows db) -> In (Storage.rowPost r) (posts db).
Proof.
  intros H. apply leftJoin_fst in H. now apply leftJoin_fst in H.
Qed.


Lemma postRows_owner db post location :
  In (post, None, location) (Storage.postRows db) ->
  forall u, In u (users db) -> user_id u <> post_userId post.
Proof.
  intros H u Hu E. apply leftJoin_fst in H. simpl in H.
  pose proof (leftJoin_none _ _ _ _ H u Hu) as Hn. simpl in Hn.
  rewrite E, String.eqb_refl in Hn. discriminate.
Qed.


Lemma limit_rows {A} n (l out : list A) :
  limit n l = Ok out -> out = fetched n l.
Proof.
  unfold limit, fetched. destruct (n <? 0)%Z; [now intros [= <-]|].
  destruct (n <? 2 ^ 63)%Z; [now intros [= <-] | discriminate].
Qed.

Lemma limit_in_range {A} n (l : list A) :
  (0 <= n)%Z -> (n < 2 ^ 63)%Z -> limit n l = Ok (firstn (Z.to_nat n) l).
Proof.
  intros H0 H1. unfold limit.
  apply Z.ltb_ge in H0. apply Z.ltb_lt in H1. now rewrite H0, H1.
Qed.



Lemma fetched_sorted {A} (R : A -> A -> Prop) n l :
  StronglySorted R l -> StronglySorted R (fetched n l).
Proof. unfold fetched. destruct (n <? 0)%Z; [auto | apply firstn_sorted]. Qed.

Lemma getFeedPosts_ok viewer n db out :
  Storage.getFeedPosts viewer (Some n) db = Ok out ->
  map pwd_post out
  = map Storage.rowPost
      (fetched n
         (orderByDesc (fun r => post_createdAt (Storage.rowPost r))
                      (Storage.postRows db))).
Proof.
  unfold Storage.getFeedPosts, bind.
  destruct (limit n _) as [rows|] eqn:El; [|discriminate].
  apply limit_rows in El. subst rows.
  intros H. apply promiseAll_ok in H.
  apply Forall2_map_eq. eapply Forall2_impl; [|exact H].
  intros [[post [user|]] location] b Hb; simpl in Hb; [|discriminate].
  now injection Hb as <-.
Qed.






Lemma map_In_back {A B C} (g : B -> C) (h : A -> C) out rows r :
  map g out = map h rows -> In r rows -> exists b, In b out /\ g b = h r.
Proof.
  intros E Hr. apply (in_map h) in Hr. rewrite <- E in Hr.
  apply in_map_iff in Hr. destruct Hr as [b [Hb Hin]]. now exists b.
Qed.



(** In a newest-first list, what the first [k] rows leave out is no newer
    than any of them, and they are [k] then. *)
Lemma sorted_app_older {A} (key : A -> Timestamp) (l1 l2 : list A) x y :
  StronglySorted (descending key) (l1 ++ l2) ->
  In x l1 -> In y l2 -> (key y <= key x)%Z.
Proof.
  induction l1 as [|a l1 IH]; simpl; intros Hs Hx Hy; [contradiction|].
  inversion Hs as [|? ? Hs' Ha]; subst. destruct Hx as [->|Hx].
  - rewrite Forall_forall in Ha. apply Ha. apply in_or_app. now right.
  - now apply IH.
Qed.








(** So it is in every store: under a negative limit the feed lists every
    stored post. *)
Lemma getFeedPosts_negative viewer n db out :
  (n < 0)%Z ->
  Storage.getFeedPosts viewer (Some n) db = Ok out ->
  forall p, In p (posts db) -> exists d, In d out /\ pwd_post d = p.
Proof.
  intros Hn H p Hp. apply getFeedPosts_ok in H.
  unfold fetched in H. apply Z.ltb_lt in Hn. rewrite Hn in H.
  destruct (leftJoin_covers (fun p u => post_userId p =? user_id u)
              (posts db) (users db) p Hp) as [u Hu].
  destruct (leftJoin_covers
              (fun (pu : Post * option User) l =>
                 eqRef (post_locationId (fst pu)) (location_id l))
              _ (locations db) (p, u) Hu) as [l Hl].
  assert (Hin : In (p, u, l)
                   (orderByDesc (fun r => post_createdAt (Storage.rowPost r))
                                (Storage.postRows db)))
    by (apply orderByDesc_In; exact Hl).
  destruct (map_In_back _ _ _ _ _ H Hin) as [d [Hd Ed]]. now exists d.
Qed.

(** A limit that is no bigint makes the database refuse the query. *)
Lemma getFeedPosts_too_large viewer n db :
  (2 ^ 63 <= n)%Z ->
  exists m, Storage.getFeedPosts viewer (Some n) db = Throw m.
Proof.
  intros Hn. unfold Storage.getFeedPosts, bind, limit.
  assert ((n <? 0)%Z = false) as -> by (apply Z.ltb_ge; lia).
  assert ((n <? 2 ^ 63)%Z = false) as -> by (apply Z.ltb_ge; lia).
  eexists. reflexivity.
Qed.

(** Without a limit the feed takes 20. *)
Lemma getFeedPosts_default viewer db :
  Storage.getFeedPosts viewer None db = Storage.getFeedPosts viewer (Some 20%Z) db.
Proof. reflexivity. Qed.

Example feedDb_feed :
  match Storage.getFeedPosts "u2" (Some 1%Z) feedDb with
  | Ok out => map (fun d => post_content (pwd_post d)) out
  | Throw _ => []
  end = [Some "second"].
Proof. reflexivity. Qed.

(** Two posts created at the same clock reading both come back: the order
    is non-increasing, and no more than that. *)
Example feed_with_ties :
  match Storage.getFeedPosts "u1" (Some 20%Z)
          (run [UpsertUser 0%Z (mkUpsertUser (Some "u1") None None None None);
                CreatePost 7%Z (mkInsertPost "u1" (Some "first") None None);
                CreatePost 7%Z (mkInsertPost "u1" (Some "second") None None)]
               emptyDb) with
  | Ok out => map (fun d => post_createdAt (pwd_post d)) out
  | Throw _ => []
  end = [7%Z; 7%Z].
Proof. reflexivity. Qed.

(** ** Enrichment when the owner is missing *)

Lemma leftJoin_unmatched {A B} (on : A -> B -> bool) (l : list A) (r : list B) a :
  In a l -> (forall b, In b r -> on a b = false) ->
  In (a, None) (leftJoin on l r).
Proof.
  intros Ha Hn. unfold leftJoin. apply in_flat_map. exists a.
  split; [exact Ha|]. rewrite (filter_none _ _ Hn). now left.
Qed.

(** A post whose owner is not stored comes out of the join with a NULL
    user. *)
Lemma postRows_ownerless db p :
  In p (posts db) ->
  (forall u, In u (users db) -> user_id u <> post_userId p) ->
  exists location, In (p, None, location) (Storage.postRows db).
Proof.
  intros Hp Hn. unfold Storage.postRows. apply leftJoin_covers.
  apply leftJoin_unmatched; [exact Hp|].
  intros u Hu. apply String.eqb_neq. intros E. now apply (Hn u Hu).
Qed.

Lemma videoRows_ownerless db v :
  In v (videos db) ->
  (forall u, In u (users db) -> user_id u <> video_userId v) ->
  exists location, In (v, None, location) (Storage.videoRows db).
Proof.
  intros Hv Hn. unfold Storage.videoRows. apply leftJoin_covers.
  apply leftJoin_unmatched; [exact Hv|].
  intros u Hu. apply String.eqb_neq. intros E. now apply (Hn u Hu).
Qed.

(** [getAllPosts] and [getAllVideos] fetch every row: one ownerless post
    (video) makes them throw. *)
Lemma getAllPosts_ownerless db p :
  In p (posts db) ->
  (forall u, In u (users db) -> user_id u <> post_userId p) ->
  Storage.getAllPosts db = Throw "Post has no user".
Proof.
  intros Hp Hn. destruct (postRows_ownerless db p Hp Hn) as [location Hr].
  unfold Storage.getAllPosts.
  eapply promiseAll_throw with (r := (p, None, location)).
  - now apply orderByDesc_In.
  - reflexivity.
  - intros [[post [user|]] loc] m; simpl; intros H; [discriminate|].
    now injection H.
Qed.

Lemma getAllVideos_ownerless db v :
  In v (videos db) ->
  (forall u, In u (users db) -> user_id u <> video_userId v) ->
  Storage.getAllVideos db = Throw "Video has no user".
Proof.
  intros Hv Hn. destruct (videoRows_ownerless db v Hv Hn) as [location Hr].
  unfold Storage.getAllVideos.
  eapply promiseAll_throw with (r := (v, None, location)).
  - now apply orderByDesc_In.
  - reflexivity.
  - intros [[video [user|]] loc] m; simpl; intros H; [discriminate|].
    now injection H.
Qed.


Lemma getFeedVideos_ownerless viewer n db video location :
  (0 <= n)%Z -> (n < 2 ^ 63)%Z ->
  In (video, None, location)
     (firstn (Z.to_nat n)
        (orderByDesc (fun r => video_createdAt (Storage.rowVideo r))
                     (Storage.videoRows db))) ->
  Storage.getFeedVideos viewer (Some n) db = Throw "Video has no user".
Proof.
  intros H0 H1 Hr. unfold Storage.getFeedVideos, bind.
  rewrite (limit_in_range n _ H0 H1).
  eapply promiseAll_throw with (r := (video, None, location)).
  - exact Hr.
  - reflexivity.
  - intros [[p [user|]] loc] m; simpl; intros H; [discriminate|].
    now injection H.
Qed.

(** C8.  On a reachable store with an ownerless post and video, the feeds
    and the admin listings throw, but [getSavedPosts] and [getSavedVideos]
    return the rows with [user] left null. *)
Theorem getSaved_returns_ownerless_rows :
  reachable ownerlessDb
  /\ Storage.getFeedPosts "u1" (Some 20%Z) ownerlessDb = Throw "Post has no user"
  /\ Storage.getFeedVideos "u1" (Some 20%Z) ownerlessDb = Throw "Video has no user"
  /\ Storage.getAllPosts ownerlessDb = Throw "Post has no user"
  /\ Storage.getAllVideos ownerlessDb = Throw "Video has no user"
  /\ Storage.getSavedPosts "u1" ownerlessDb
     = [mkPostWithDetails (mkPost "0" "ghost" (Some "hello") None None 1%Z)
                          None None 0 0 false None]
  /\ Storage.getSavedVideos "u1" ownerlessDb
     = [mkVideoWithDetails
          (mkVideo "2" "ghost" (Some "clip.mp4") None None 3%Z)
          None None 0 0 false None].
Proof.
  split; [apply run_reachable; constructor|].
  repeat split; reflexivity.
Qed.

(** ** The like, save, comment scenario *)

(** C3.  After A's post "0" was liked, saved and commented by B, the detail
    view has one like and one comment and is liked for B only, but it has no
    [isSaved] for B, although the save is stored and the feed reports it. *)
Theorem getPostWithDetails_has_no_isSaved :
  reachable scenarioDb
  /\ option_map flags (Storage.getPostWithDetails "0" (Some "A") scenarioDb)
     = Some (1, 1, false, None)
  /\ option_map flags (Storage.getPostWithDetails "0" (Some "B") scenarioDb)
     = Some (1, 1, true, None)
  /\ Storage.isSavedPost "B" "0" scenarioDb = true
  /\ match Storage.getFeedPosts "B" (Some 20%Z) scenarioDb with
     | Ok out => map flags out
     | Throw _ => []
     end = [(1, 1, true, Some true)].
Proof.
  split; [apply run_reachable; constructor|].
  repeat split; reflexivity.
Qed.

Lemma eqCol_false (c : option Id) (v : Id) : c <> Some v -> eqCol c v = false.
Proof.
  destruct c as [x|]; simpl; [|reflexivity].
  intros H. apply String.eqb_neq. congruence.
Qed.

Lemma leftJoin_app {X Y} (on : X -> Y -> bool) l1 l2 r :
  leftJoin on (l1 ++ l2) r = leftJoin on l1 r ++ leftJoin on l2 r.
Proof. unfold leftJoin. apply flat_map_app. Qed.

Lemma leftJoin_head {X Y} (on : X -> Y -> bool) a l r :
  exists b rest, leftJoin on (a :: l) r = (a, b) :: rest.
Proof.
  unfold leftJoin. simpl. destruct (filter (on a) r) as [|b0 bs]; simpl.
  - now exists None, (leftJoin on l r).
  - now eexists (Some b0), _.
Qed.

Lemma leftJoin_head_match {X Y} (on : X -> Y -> bool) a l r :
  (exists b, In b r /\ on a b = true) ->
  exists b rest, leftJoin on (a :: l) r = (a, Some b) :: rest.
Proof.
  intros [b [Hb Hon]]. unfold leftJoin. simpl.
  destruct (filter (on a) r) as [|b0 bs] eqn:E; simpl.
  - assert (In b (filter (on a) r)) by (apply filter_In; auto).
    rewrite E in H. contradiction.
  - now eexists b0, _.
Qed.

(** The same scenario from any store in which A is a stored user and the id
    the new post receives is not yet referred to. *)
Section Scenario.

Variables (db : Db) (A B : Id).
Variables (nowP nowL nowS nowC : Timestamp).
Variables (content image : option string) (place : option Id).

Let P : Id := genId db.
Let post : Post := mkPost P A content image place nowP.
Let db1 : Db := snd (Storage.createPost nowP (mkInsertPost A content image place) db).
Let db2 : Db := snd (Storage.likePost nowL B P db1).
Let db3 : Db := snd (Storage.savePost nowS B P db2).
Let db4 : Db :=
  snd (Storage.createComment nowC (mkInsertComment B (Some P) None "nice!") db3).

Hypothesis A_stored : exists u, In u (users db) /\ user_id u = A.
Hypothesis A_not_B : A <> B.
Hypothesis A_named : A <> "".
Hypothesis B_named : B <> "".
Hypothesis P_new : forall p, In p (posts db) -> post_id p <> P.
Hypothesis P_unliked : forall l, In l (likes db) -> like_postId l <> Some P.
Hypothesis P_uncommented :
  forall c, In c (comments db) -> comment_postId c <> Some P.

Lemma scenario_likes :
  likes db4 = likes db ++ [mkLike (genId db1) B (Some P) None nowL].
Proof.
  assert (E2 : likes db2 = likes db ++ [mkLike (genId db1) B (Some P) None nowL]).
  { unfold db2, Storage.likePost, selectWhere.
    rewrite (filter_none (Storage.likesPost B P) (likes db1)); [reflexivity|].
    intros l Hl. unfold Storage.likesPost.
    rewrite (eqCol_false _ _ (P_unliked l Hl)). apply andb_false_r. }
  rewrite <- E2. transitivity (likes db3).
  - exact (likes_frame (CreateComment nowC _) db3 eq_refl).
  - exact (likes_frame (SavePost nowS B P) db2 eq_refl).
Qed.

Lemma scenario_comments :
  exists id, comments db4 = comments db ++ [mkComment id B (Some P) None (Some "nice!") nowC].
Proof.
  unfold db4, Storage.createComment. simpl. eexists.
  f_equal. unfold db3, Storage.savePost.
  destruct (hd_error _); simpl; unfold db2, Storage.likePost;
    destruct (firstn 1 _); reflexivity.
Qed.

Lemma scenario_posts :
  posts db4 = posts db ++ [post] /\ users db4 = users db
  /\ locations db4 = locations db.
Proof.
  unfold db4, Storage.createComment. simpl.
  unfold db3, Storage.savePost.
  destruct (hd_error _); simpl; unfold db2, Storage.likePost;
    destruct (firstn 1 _); simpl; repeat split; reflexivity.
Qed.

Lemma scenario_saved : Storage.isSavedPost B P db4 = true.
Proof.
  unfold Storage.isSavedPost, db4, Storage.createComment. simpl.
  unfold db3, Storage.savePost.
  destruct (hd_error (selectWhere (Storage.savesPost B P) (saves db2))) eqn:E;
    simpl.
  - now rewrite E.
  - unfold selectWhere in *. apply hd_error_none in E.
    rewrite filter_app, E. simpl.
    unfold Storage.savesPost. simpl. now rewrite !String.eqb_refl.
Qed.

(** The joined row of the new post is the first with its id. *)
Lemma scenario_row :
  exists user location,
    hd_error (selectWhere (fun r => post_id (Storage.rowPost r) =? P)
                          (Storage.postRows db4))
    = Some (post, Some user, location).
Proof.
  destruct scenario_posts as [Ep [Eu El]].
  unfold Storage.postRows. rewrite Ep, Eu, El, !leftJoin_app.
  unfold selectWhere. rewrite filter_app.
  rewrite (filter_none _ (leftJoin _ (leftJoin _ (posts db) _) _)).
  - destruct (leftJoin_head_match
                (fun (p : Post) u => post_userId p =? user_id u) post []
                (users db)) as [user [rest1 E1]].
    { destruct A_stored as [u [Hu Eu']]. exists u. split; [exact Hu|].
      simpl. rewrite Eu'. apply String.eqb_refl. }
    rewrite E1.
    destruct (leftJoin_head
                (fun (pu : Post * option User) l =>
                   eqRef (post_locationId (fst pu)) (location_id l))
                (post, Some user) rest1 (locations db))
      as [location [rest2 E2]].
    rewrite E2. simpl. rewrite String.eqb_refl. simpl.
    now exists user, location.
  - intros r Hr. apply String.eqb_neq. apply P_new.
    apply leftJoin_fst in Hr. now apply leftJoin_fst in Hr.
Qed.

Lemma scenario_likesCount :
  countWhere (fun l => eqCol (like_postId l) P) (likes db4) = 1.
Proof.
  rewrite scenario_likes. unfold countWhere. rewrite filter_app, length_app.
  rewrite (filter_none _ (likes db)).
  - simpl. now rewrite String.eqb_refl.
  - intros l Hl. apply eqCol_false. now apply P_unliked.
Qed.

Lemma scenario_commentsCount :
  countWhere (fun c => eqCol (comment_postId c) P) (comments db4) = 1.
Proof.
  destruct scenario_comments as [id ->].
  unfold countWhere. rewrite filter_app, length_app.
  rewrite (filter_none _ (comments db)).
  - simpl. now rewrite String.eqb_refl.
  - intros c Hc. apply eqCol_false. now apply P_uncommented.
Qed.

Lemma scenario_liked_by (viewer : Id) :
  notNot (hd_error (selectWhere
    (fun l => eqCol (like_postId l) P && (like_userId l =? viewer))
    (likes db4))) = (B =? viewer).
Proof.
  rewrite scenario_likes. unfold selectWhere. rewrite filter_app.
  rewrite (filter_none _ (likes db)).
  - simpl. rewrite String.eqb_refl. simpl. now destruct (B =? viewer).
  - intros l Hl. rewrite (eqCol_false _ _ (P_unliked l Hl)). reflexivity.
Qed.

Lemma scenario_view (viewer : Id) :
  viewer <> "" ->
  option_map flags (Storage.getPostWithDetails P (Some viewer) db4)
  = Some (1, 1, B =? viewer, None).
Proof.
  intros Hv. destruct scenario_row as [user [location Hrow]].
  unfold Storage.getPostWithDetails. rewrite Hrow. cbv zeta.
  rewrite scenario_likesCount, scenario_commentsCount, scenario_liked_by.
  unfold truthy. apply String.eqb_neq in Hv. now rewrite Hv.
Qed.

(** The part of C3 that holds: one like, one comment, liked for B and not
    for A; [isSaved] is absent although the save is stored. *)
Lemma scenario_details :
  option_map flags (Storage.getPostWithDetails P (Some A) db4)
  = Some (1, 1, false, None)
  /\ option_map flags (Storage.getPostWithDetails P (Some B) db4)
     = Some (1, 1, true, None)
  /\ Storage.isSavedPost B P db4 = true.
Proof.
  rewrite (scenario_view A A_named), (scenario_view B B_named).
  rewrite String.eqb_refl.
  assert ((B =? A) = false) as -> by (apply String.eqb_neq; congruence).
  repeat split. apply scenario_saved.
Qed.

End Scenario.

(** ** Generated identifiers are primary keys *)

Lemma idOfNat_inj n m : idOfNat n = idOfNat m -> n = m.
Proof.
  unfold idOfNat. intros H.
  apply (f_equal NilEmpty.uint_of_string) in H.
  rewrite !NilEmpty.usu in H. injection H as H.
  now apply Unsigned.to_uint_inj.
Qed.

Lemma generated_mono n m ids : n <= m -> generated n ids -> generated m ids.
Proof.
  intros Hle [Hd Hb]. split; [exact Hd|].
  eapply Forall_impl; [|exact Hb]. intros id [k [Hk ->]]. exists k. split; [lia|auto].
Qed.

Lemma generated_snoc {A} (key : A -> Id) n l x :
  key x = idOfNat n -> generated n (map key l) ->
  generated (S n) (map key (l ++ [x])).
Proof.
  intros Hx [Hd Hb]. rewrite map_app. simpl. rewrite Hx. split.
  - rewrite Forall_forall in Hb.
    apply (Permutation_NoDup (l := idOfNat n :: map key l)).
    + apply Permutation_cons_append.
    + constructor; [|exact Hd].
      intros Hin. destruct (Hb _ Hin) as [k [Hk E]].
      apply idOfNat_inj in E. lia.
  - apply Forall_app. split.
    + eapply Forall_impl; [|exact Hb]. intros id [k [Hk ->]].
      exists k. split; [lia|auto].
    + constructor; [|constructor]. exists n. split; [lia|auto].
Qed.

Lemma generated_filter {A} (key : A -> Id) (q : A -> bool) n l :
  generated n (map key l) -> generated n (map key (filter q l)).
Proof.
  intros [Hd Hb]. split.
  - induction l as [|x l IH]; simpl in *; [constructor|].
    inversion Hd as [|? ? Hx Hd']; subst.
    inversion Hb as [|? ? _ Hb']; subst.
    destruct (q x); simpl; [|now apply IH].
    constructor; [|now apply IH].
    intros Hin. apply Hx. apply in_map_iff in Hin.
    destruct Hin as [y [Ey Hy]]. apply filter_In in Hy.
    apply in_map_iff. exists y. tauto.
  - rewrite Forall_forall in *. intros id Hin. apply Hb.
    apply in_map_iff in Hin. destruct Hin as [y [Ey Hy]].
    apply filter_In in Hy. apply in_map_iff. exists y. tauto.
Qed.

Lemma upsertUser_serial now d db :
  serial db <= serial (snd (Storage.upsertUser now d db)).
Proof.
  assert (Hins : forall id db0,
            serial db <= serial db0 ->
            serial db <= serial (snd (Storage.insertOrUpdateUser now d id db0))).
  { intros id db0 H. unfold Storage.insertOrUpdateUser.
    destruct (selectWhere _ (users db0)); simpl; exact H. }
  unfold Storage.upsertUser.
  destruct (uu_email d) as [e|]; [destruct (truthy (Some e))|].
  - destruct (firstn 1 _); simpl.
    + destruct (uu_id d); apply Hins; simpl; lia.
    + lia.
  - destruct (uu_id d); apply Hins; simpl; lia.
  - destruct (uu_id d); apply Hins; simpl; lia.
Qed.

Ltac keys_step :=
  match goal with
  | |- generated (S _) (map _ (_ ++ [_])) =>
      apply generated_snoc; [reflexivity | assumption]
  | |- generated _ (map _ (filter _ _)) => apply generated_filter; assumption
  | |- generated (S ?n) ?ids =>
      apply (generated_mono n (S n) ids); [lia | assumption]
  | |- generated _ _ => assumption
  end.

Lemma exec_keysGenerated op db : keysGenerated db -> keysGenerated (exec op db).
Proof.
  intros H. destruct op; simpl;
    try (unfold Storage.likePost, Storage.likeVideo, Storage.savePost,
           Storage.saveVideo;
         match goal with
         | |- context [match ?x with _ => _ end] => destruct x
         end; simpl; try exact H);
    try (destruct H as [? [? [? [? [? [? ?]]]]]];
         unfold keysGenerated; simpl;
         (split; [|split; [|split; [|split; [|split; [|split]]]]]);
         keys_step).
  (* upsertUser *)
  pose proof (upsertUser_frame now userData db) as F. simpl in F.
  pose proof (upsertUser_serial now userData db) as Hs.
  unfold keysGenerated in *.
  destruct F as [-> [-> [-> [-> [-> [-> ->]]]]]].
  destruct H as [? [? [? [? [? [? ?]]]]]].
  (split; [|split; [|split; [|split; [|split; [|split]]]]]);
    (eapply generated_mono; [exact Hs | assumption]).
Qed.

(** In every reachable store the identifiers of the rows the server
    created are pairwise distinct in their table, as primary keys are. *)
Lemma reachable_keysGenerated db : reachable db -> keysGenerated db.
Proof.
  induction 1 as [|op db _ IH].
  - unfold keysGenerated, generated. simpl. repeat split; constructor.
  - now apply exec_keysGenerated.
Qed.

Lemma map_update_ids (q : User -> bool) (upd : User -> User) l :
  (forall u, user_id (upd u) = user_id u) ->
  map user_id (map (fun u => if q u then upd u else u) l) = map user_id l.
Proof.
  intros H. rewrite map_map. apply map_ext. intros u. now destruct (q u).
Qed.

Lemma insertOrUpdateUser_keys now d id db :
  userKeysUnique db ->
  userKeysUnique (snd (Storage.insertOrUpdateUser now d id db)).
Proof.
  unfold userKeysUnique, Storage.insertOrUpdateUser, selectWhere. intros H.
  destruct (filter _ (users db)) eqn:E; simpl.
  - rewrite map_app. simpl.
    apply (Permutation_NoDup (l := id :: map user_id (users db)));
      [apply Permutation_cons_append|].
    constructor; [|exact H]. intros Hin. apply in_map_iff in Hin.
    destruct Hin as [u [Eu Hu]].
    assert (In u (filter (fun u => user_id u =? id) (users db))) as Hf.
    { apply filter_In. split; [exact Hu|]. rewrite Eu. apply String.eqb_refl. }
    rewrite E in Hf. contradiction.
  - rewrite (map_update_ids (fun u => user_id u =? id)); [exact H|reflexivity].
Qed.

Lemma upsertUser_keys now d db :
  userKeysUnique db -> userKeysUnique (snd (Storage.upsertUser now d db)).
Proof.
  intros H. unfold Storage.upsertUser.
  assert (Ht : userKeysUnique (tick db)) by exact H.
  destruct (uu_email d) as [e|]; [destruct (truthy (Some e))|].
  - destruct (firstn 1 _); simpl.
    + destruct (uu_id d); now apply insertOrUpdateUser_keys.
    + unfold userKeysUnique. simpl.
      rewrite (map_update_ids (Storage.emailIs e)); [exact H|reflexivity].
  - destruct (uu_id d); now apply insertOrUpdateUser_keys.
  - destruct (uu_id d); now apply insertOrUpdateUser_keys.
Qed.

Lemma exec_userKeysUnique op db : userKeysUnique db -> userKeysUnique (exec op db).
Proof.
  intros H. destruct op; simpl;
    try (unfold Storage.likePost, Storage.likeVideo, Storage.savePost,
           Storage.saveVideo;
         match goal with
         | |- context [match ?x with _ => _ end] => destruct x
         end; simpl);
    try exact H.
  - now apply upsertUser_keys.
  - unfold userKeysUnique. simpl.
    rewrite (map_update_ids (fun u => user_id u =? userId)); [exact H|reflexivity].
  - unfold userKeysUnique. simpl.
    rewrite (map_update_ids (fun u => user_id u =? userId)); [exact H|reflexivity].
Qed.

Lemma reachable_userKeysUnique db : reachable db -> userKeysUnique db.
Proof.
  induction 1 as [|op db _ IH]; [constructor | now apply exec_userKeysUnique].
Qed.

(** With distinct user ids the join of a post with [users] yields one row
    per post: the feed cannot show a post twice for its owner's sake. *)
Lemma leftJoin_users_one db :
  userKeysUnique db ->
  length (leftJoin (fun p u => post_userId p =? user_id u) (posts db) (users db))
  = length (posts db).
Proof.
  unfold userKeysUnique. intros H.
  assert (Hone : forall id, length (filter (fun u => id =? user_id u) (users db)) <= 1).
  { intros id. induction (users db) as [|u l IH]; simpl; [lia|].
    inversion H as [|? ? Hu Hl]; subst. specialize (IH Hl).
    destruct (id =? user_id u) eqn:E; simpl; [|exact IH].
    apply String.eqb_eq in E. subst id.
    rewrite (filter_none _ l); [simpl; lia|].
    intros x Hx. apply String.eqb_neq. intros Ex. apply Hu.
    rewrite Ex. now apply in_map. }
  induction (posts db) as [|p l IH]; simpl; [reflexivity|].
  rewrite length_app, IH. specialize (Hone (post_userId p)).
  destruct (filter _ (users db)) as [|u [|u' t]]; simpl in *; try lia.
Qed.

(** * The rest of the storage layer *)

(** ** Saves and video likes: get-or-create *)

Lemma saves_frame op db :
  writesSaves op = false -> saves (exec op db) = saves db.
Proof.
  destruct op; simpl; try discriminate; intros _;
    try (unfold Storage.deletePost, Storage.deletePostAdmin, Storage.deleteVideo,
           Storage.deleteVideoAdmin, Storage.deleteLocation,
           Storage.deleteLocationAdmin, Storage.deleteComment,
           Storage.deleteCommentAdmin, Storage.unfollowUser,
           Storage.likePost, Storage.likeVideo, Storage.unlikePost,
           Storage.unlikeVideo; split_code).
  apply upsertUser_frame.
Qed.

(** A table with at most one row per pair stays so when a row of a pair
    without rows is appended, when a row no selector picks is appended, and
    when rows are deleted. *)
Section Pairs.

Context {A : Type} (sel : Id -> Id -> A -> bool).

Lemma pairwiseUnique_new t x u p :
  pairwiseUnique sel t -> filter (sel u p) t = [] ->
  (forall u0 p0, sel u0 p0 x = true -> u0 = u /\ p0 = p) ->
  pairwiseUnique sel (t ++ [x]).
Proof.
  intros Hu E Hx u0 p0. rewrite filter_app, length_app. simpl.
  destruct (sel u0 p0 x) eqn:Es; simpl.
  - destruct (Hx _ _ Es) as [-> ->]. rewrite E. simpl. lia.
  - specialize (Hu u0 p0). lia.
Qed.

Lemma pairwiseUnique_other t x :
  pairwiseUnique sel t -> (forall u0 p0, sel u0 p0 x = false) ->
  pairwiseUnique sel (t ++ [x]).
Proof.
  intros Hu Hx u0 p0. rewrite filter_app, length_app. simpl.
  rewrite Hx. simpl. specialize (Hu u0 p0). lia.
Qed.

Lemma pairwiseUnique_filter t (q : A -> bool) :
  pairwiseUnique sel t -> pairwiseUnique sel (filter q t).
Proof.
  intros Hu u0 p0. etransitivity; [apply filter_length_le | apply Hu].
Qed.

End Pairs.

Lemma pair_selected (u p u0 p0 : Id) :
  (u =? u0) && eqCol (Some p) p0 = true -> u0 = u /\ p0 = p.
Proof.
  simpl. rewrite andb_true_iff, !String.eqb_eq. intros [-> ->]. now split.
Qed.

Lemma exec_savesUnique op db : savesUnique db -> savesUnique (exec op db).
Proof.
  intros Hu. destruct (writesSaves op) eqn:W.
  - destruct op; try discriminate; simpl.
    + unfold Storage.savePost.
      destruct (hd_error _) eqn:E; simpl; [exact Hu|].
      apply hd_error_none in E.
      apply (pairwiseUnique_new Storage.savesPost _ _ userId postId Hu E).
      intros u0 p0. apply pair_selected.
    + apply (pairwiseUnique_filter Storage.savesPost _ _ Hu).
    + unfold Storage.saveVideo.
      destruct (hd_error _); simpl; [exact Hu|].
      apply (pairwiseUnique_other Storage.savesPost _ _ Hu).
      intros u0 p0. apply andb_false_r.
    + apply (pairwiseUnique_filter Storage.savesPost _ _ Hu).
  - intros u p. unfold saveRows. rewrite (saves_frame op db W). apply Hu.
Qed.

Lemma exec_videoSavesUnique op db :
  videoSavesUnique db -> videoSavesUnique (exec op db).
Proof.
  intros Hu. destruct (writesSaves op) eqn:W.
  - destruct op; try discriminate; simpl.
    + unfold Storage.savePost.
      destruct (hd_error _); simpl; [exact Hu|].
      apply (pairwiseUnique_other Storage.savesVideo _ _ Hu).
      intros u0 p0. apply andb_false_r.
    + apply (pairwiseUnique_filter Storage.savesVideo _ _ Hu).
    + unfold Storage.saveVideo.
      destruct (hd_error _) eqn:E; simpl; [exact Hu|].
      apply hd_error_none in E.
      apply (pairwiseUnique_new Storage.savesVideo _ _ userId videoId Hu E).
      intros u0 p0. apply pair_selected.
    + apply (pairwiseUnique_filter Storage.savesVideo _ _ Hu).
  - intros u p. rewrite (saves_frame op db W). apply Hu.
Qed.

Lemma exec_videoLikesUnique op db :
  videoLikesUnique db -> videoLikesUnique (exec op db).
Proof.
  intros Hu. destruct (writesLikes op) eqn:W.
  - destruct op; try discriminate; simpl.
    + unfold Storage.likePost.
      destruct (firstn 1 _); simpl; [|exact Hu].
      apply (pairwiseUnique_other Storage.likesVideo _ _ Hu).
      intros u0 p0. apply andb_false_r.
    + apply (pairwiseUnique_filter Storage.likesVideo _ _ Hu).
    + unfold Storage.likeVideo.
      destruct (firstn 1 _) eqn:E; simpl; [|exact Hu].
      apply firstn_one_nil in E.
      apply (pairwiseUnique_new Storage.likesVideo _ _ userId videoId Hu E).
      intros u0 p0. apply pair_selected.
    + apply (pairwiseUnique_filter Storage.likesVideo _ _ Hu).
  - intros u p. rewrite (likes_frame op db W). apply Hu.
Qed.

Lemma reachable_pairs db :
  reachable db -> savesUnique db /\ videoSavesUnique db /\ videoLikesUnique db.
Proof.
  induction 1 as [|op db _ [I1 [I2 I3]]].
  - repeat split; intros u p; simpl; lia.
  - split; [|split].
    + now apply exec_savesUnique.
    + now apply exec_videoSavesUnique.
    + now apply exec_videoLikesUnique.
Qed.

Lemma with_saves_same db : with_saves db (saves db) = db.
Proof. now destruct db. Qed.

Lemma singleton_of_unique {A} (l : list A) x :
  In x l -> length l <= 1 -> l = [x].
Proof.
  destruct l as [|a [|b t]]; simpl; intros Hin Hl.
  - contradiction.
  - destruct Hin as [->|[]]. reflexivity.
  - lia.
Qed.

Lemma savePost_again now now' u p db :
  Storage.savePost now' u p (snd (Storage.savePost now u p db))
  = Storage.savePost now u p db.
Proof.
  unfold Storage.savePost at 2 3.
  destruct (hd_error (selectWhere _ (saves db))) as [s0|] eqn:E; simpl.
  - unfold Storage.savePost. now rewrite E.
  - apply hd_error_none in E. unfold Storage.savePost. simpl.
    unfold selectWhere in *. rewrite filter_app, E. simpl.
    unfold Storage.savesPost at 1. simpl. now rewrite !String.eqb_refl.
Qed.

Lemma savePost_returned_row now u p db :
  In (fst (Storage.savePost now u p db))
     (saveRows u p (snd (Storage.savePost now u p db))).
Proof.
  unfold Storage.savePost, saveRows.
  destruct (hd_error (selectWhere _ (saves db))) as [s0|] eqn:E; simpl.
  - destruct (selectWhere _ (saves db)); [discriminate|].
    injection E as ->. now left.
  - unfold selectWhere. rewrite filter_app. apply in_or_app. right. simpl.
    unfold Storage.savesPost at 1. simpl. rewrite !String.eqb_refl. now left.
Qed.

(** X1.  In every reachable store, saving a post twice leaves exactly one
    Save row of the pair: the second [savePost] returns the row of the first
    and writes nothing, and [isSavedPost] is then true.  [unsavePost] on a
    pair without a Save row returns [false] and changes nothing. *)
Theorem savePost_idempotent :
  forall (db : Db) (now1 now2 : Timestamp) (u p : Id),
    reachable db ->
    let first := Storage.savePost now1 u p db in
    let second := Storage.savePost now2 u p (snd first) in
    saveRows u p (snd second) = [fst first]
    /\ second = first
    /\ Storage.isSavedPost u p (snd second) = true
    /\ (forall db0, saveRows u p db0 = [] ->
          Storage.unsavePost u p db0 = (false, db0)).
Proof.
  intros db now1 now2 u p Hr first second.
  assert (Hsame : second = first) by apply savePost_again.
  rewrite Hsame.
  assert (Hrows : saveRows u p (snd first) = [fst first]).
  { apply singleton_of_unique; [apply savePost_returned_row|].
    apply exec_savesUnique with (op := SavePost now1 u p).
    now apply reachable_pairs. }
  split; [exact Hrows|]. split; [reflexivity|]. split.
  - unfold Storage.isSavedPost. unfold saveRows in Hrows. now rewrite Hrows.
  - intros db0 H. unfold Storage.unsavePost, deleteWhere.
    unfold saveRows, selectWhere in H.
    rewrite H, (filter_nil_neg _ _ H). simpl. now rewrite with_saves_same.
Qed.

Lemma savePost_idempotent_witness :
  saveRows "u1" "p1"
    (snd (Storage.savePost 2%Z "u1" "p1"
            (snd (Storage.savePost 1%Z "u1" "p1" emptyDb))))
  = [mkSave "0" "u1" (Some "p1") None 1%Z].
Proof.
  exact (proj1 (savePost_idempotent emptyDb 1%Z 2%Z "u1" "p1" reachable_empty)).
Defined.

Lemma likeVideo_again now now' u v db :
  Storage.likeVideo now' u v (snd (Storage.likeVideo now u v db))
  = Storage.likeVideo now u v db.
Proof.
  unfold Storage.likeVideo at 2 3.
  destruct (firstn 1 (selectWhere _ (likes db))) as [|l0 t] eqn:E; simpl.
  - apply firstn_one_nil in E. unfold Storage.likeVideo. simpl.
    unfold selectWhere in *. rewrite filter_app, E. simpl.
    unfold Storage.likesVideo at 1. simpl. now rewrite !String.eqb_refl.
  - unfold Storage.likeVideo. now rewrite E.
Qed.

Lemma likeVideo_returned_row now u v db :
  In (fst (Storage.likeVideo now u v db))
     (selectWhere (Storage.likesVideo u v)
                  (likes (snd (Storage.likeVideo now u v db)))).
Proof.
  unfold Storage.likeVideo.
  destruct (firstn 1 (selectWhere _ (likes db))) as [|l0 t] eqn:E; simpl.
  - unfold selectWhere. rewrite filter_app. apply in_or_app. right. simpl.
    unfold Storage.likesVideo at 1. simpl. rewrite !String.eqb_refl. now left.
  - eapply firstn_In. rewrite E. now left.
Qed.

Lemma saveVideo_again now now' u v db :
  Storage.saveVideo now' u v (snd (Storage.saveVideo now u v db))
  = Storage.saveVideo now u v db.
Proof.
  unfold Storage.saveVideo at 2 3.
  destruct (hd_error (selectWhere _ (saves db))) as [s0|] eqn:E; simpl.
  - unfold Storage.saveVideo. now rewrite E.
  - apply hd_error_none in E. unfold Storage.saveVideo. simpl.
    unfold selectWhere in *. rewrite filter_app, E. simpl.
    unfold Storage.savesVideo at 1. simpl. now rewrite !String.eqb_refl.
Qed.

Lemma saveVideo_returned_row now u v db :
  In (fst (Storage.saveVideo now u v db))
     (selectWhere (Storage.savesVideo u v)
                  (saves (snd (Storage.saveVideo now u v db)))).
Proof.
  unfold Storage.saveVideo.
  destruct (hd_error (selectWhere _ (saves db))) as [s0|] eqn:E; simpl.
  - destruct (selectWhere _ (saves db)); [discriminate|].
    injection E as ->. now left.
  - unfold selectWhere. rewrite filter_app. apply in_or_app. right. simpl.
    unfold Storage.savesVideo at 1. simpl. rewrite !String.eqb_refl. now left.
Qed.

(** X2.  In every reachable store, [likeVideo] and [saveVideo] are
    get-or-create as well: a second call returns the row of the first,
    writes nothing, and the pair has exactly that one row. *)
Theorem video_like_save_idempotent :
  forall (db : Db) (now1 now2 : Timestamp) (u v : Id),
    reachable db ->
    (let first := Storage.likeVideo now1 u v db in
     Storage.likeVideo now2 u v (snd first) = first
     /\ selectWhere (Storage.likesVideo u v) (likes (snd first)) = [fst first])
    /\ (let first := Storage.saveVideo now1 u v db in
        Storage.saveVideo now2 u v (snd first) = first
        /\ selectWhere (Storage.savesVideo u v) (saves (snd first)) = [fst first]).
Proof.
  intros db now1 now2 u v Hr.
  destruct (reachable_pairs db Hr) as [_ [Hs Hl]]. split; simpl.
  - split; [apply likeVideo_again|].
    apply singleton_of_unique; [apply likeVideo_returned_row|].
    apply (exec_videoLikesUnique (LikeVideo now1 u v) db Hl).
  - split; [apply saveVideo_again|].
    apply singleton_of_unique; [apply saveVideo_returned_row|].
    apply (exec_videoSavesUnique (SaveVideo now1 u v) db Hs).
Qed.

Lemma video_like_save_idempotent_witness :
  Storage.likeVideo 2%Z "u1" "v1" (snd (Storage.likeVideo 1%Z "u1" "v1" emptyDb))
  = Storage.likeVideo 1%Z "u1" "v1" emptyDb.
Proof.
  exact (proj1 (proj1
    (video_like_save_idempotent emptyDb 1%Z 2%Z "u1" "v1" reachable_empty))).
Defined.

(** ** Like, save and follow as switches *)

Lemma notNot_hd_app {A} (l1 l2 : list A) :
  notNot (hd_error (l1 ++ l2)) = notNot (hd_error l1) || notNot (hd_error l2).
Proof. destruct l1; simpl; reflexivity. Qed.

Lemma positive_notNot {A} (l : list A) :
  (0 <? length l)%nat = notNot (hd_error l).
Proof. now destruct l. Qed.

Lemma filter_filter_keep {A} (q r : A -> bool) (l : list A) :
  (forall x, q x = true -> r x = false) ->
  filter q (filter (fun x => negb (r x)) l) = filter q l.
Proof.
  intros H. induction l as [|x l IH]; simpl; [reflexivity|].
  destruct (r x) eqn:Er; simpl.
  - destruct (q x) eqn:Eq; [|exact IH]. rewrite (H x Eq) in Er. discriminate.
  - now rewrite IH.
Qed.

Lemma pair_eqb_sym (a b a' b' : Id) :
  (a' =? a) && (b' =? b) = (a =? a') && (b =? b').
Proof. now rewrite (String.eqb_sym a' a), (String.eqb_sym b' b). Qed.

(** A row that [u'], [p'] selects is not selected by another pair. *)
Lemma selected_apart (u p u' p' xu : Id) (xp : option Id) :
  (u =? u') && (p =? p') = false ->
  (xu =? u') && eqCol xp p' = true -> (xu =? u) && eqCol xp p = false.
Proof.
  intros Hd Hs. apply andb_true_iff in Hs. destruct Hs as [Hu Hp].
  destruct xp as [x|]; simpl in *; [|discriminate].
  apply String.eqb_eq in Hu, Hp. subst xu x.
  now rewrite pair_eqb_sym.
Qed.

(** X3.  [likePost] switches [isLikedPost] on for its own (user, post) pair
    and for no other, and leaves [isLikedVideo] alone; [unlikePost] switches
    [isLikedPost] off for its own pair, however many rows the pair had, and
    for no other, and returns whether the pair was liked. *)
Theorem like_switch :
  forall (db : Db) (now : Timestamp) (u p u' p' : Id),
    Storage.isLikedPost u' p' (snd (Storage.likePost now u p db))
    = Storage.isLikedPost u' p' db || ((u =? u') && (p =? p'))
    /\ Storage.isLikedPost u' p' (snd (Storage.unlikePost u p db))
       = Storage.isLikedPost u' p' db && negb ((u =? u') && (p =? p'))
    /\ fst (Storage.unlikePost u p db) = Storage.isLikedPost u p db
    /\ Storage.isLikedVideo u' p' (snd (Storage.likePost now u p db))
       = Storage.isLikedVideo u' p' db.
Proof.
  intros db now u p u' p'. unfold Storage.isLikedPost, Storage.isLikedVideo.
  split; [|split; [|split]].
  - unfold Storage.likePost.
    destruct (firstn 1 (selectWhere _ (likes db))) as [|l0 t] eqn:E; simpl.
    + unfold selectWhere. rewrite filter_app, notNot_hd_app. simpl.
      unfold Storage.likesPost at 2. simpl.
      now destruct ((u =? u') && (p =? p')).
    + destruct ((u =? u') && (p =? p')) eqn:Es; [|now rewrite orb_false_r].
      apply andb_true_iff in Es. rewrite !String.eqb_eq in Es.
      destruct Es as [<- <-]. rewrite orb_true_r.
      destruct (selectWhere (Storage.likesPost u p) (likes db));
        [discriminate | reflexivity].
  - unfold Storage.unlikePost, deleteWhere, selectWhere. simpl.
    destruct ((u =? u') && (p =? p')) eqn:Es; simpl.
    + apply andb_true_iff in Es. rewrite !String.eqb_eq in Es.
      destruct Es as [<- <-]. rewrite filter_neg_idem. simpl.
      now rewrite andb_false_r.
    + rewrite andb_true_r, filter_filter_keep; [reflexivity|].
      intros x Hx. unfold Storage.likesPost in *.
      exact (selected_apart u p u' p' _ _ Es Hx).
  - unfold Storage.unlikePost, deleteWhere. simpl. apply positive_notNot.
  - unfold Storage.likePost.
    destruct (firstn 1 (selectWhere _ (likes db))); simpl; [|reflexivity].
    unfold selectWhere. rewrite filter_app. simpl.
    unfold Storage.likesVideo at 2. simpl. rewrite andb_false_r.
    now rewrite app_nil_r.
Qed.

(** X4.  [savePost] and [unsavePost] switch [isSavedPost] in the same way:
    on or off for their own (user, post) pair and for no other, and
    [unsavePost] returns whether the pair was saved. *)
Theorem save_switch :
  forall (db : Db) (now : Timestamp) (u p u' p' : Id),
    Storage.isSavedPost u' p' (snd (Storage.savePost now u p db))
    = Storage.isSavedPost u' p' db || ((u =? u') && (p =? p'))
    /\ Storage.isSavedPost u' p' (snd (Storage.unsavePost u p db))
       = Storage.isSavedPost u' p' db && negb ((u =? u') && (p =? p'))
    /\ fst (Storage.unsavePost u p db) = Storage.isSavedPost u p db
    /\ Storage.isSavedVideo u' p' (snd (Storage.savePost now u p db))
       = Storage.isSavedVideo u' p' db.
Proof.
  intros db now u p u' p'. unfold Storage.isSavedPost, Storage.isSavedVideo.
  split; [|split; [|split]].
  - unfold Storage.savePost.
    destruct (hd_error (selectWhere _ (saves db))) as [s0|] eqn:E; simpl.
    + destruct ((u =? u') && (p =? p')) eqn:Es; [|now rewrite orb_false_r].
      apply andb_true_iff in Es. rewrite !String.eqb_eq in Es.
      destruct Es as [<- <-]. rewrite orb_true_r. now rewrite E.
    + unfold selectWhere. rewrite filter_app, notNot_hd_app. simpl.
      unfold Storage.savesPost at 2. simpl.
      now destruct ((u =? u') && (p =? p')).
  - unfold Storage.unsavePost, deleteWhere, selectWhere. simpl.
    destruct ((u =? u') && (p =? p')) eqn:Es; simpl.
    + apply andb_true_iff in Es. rewrite !String.eqb_eq in Es.
      destruct Es as [<- <-]. rewrite filter_neg_idem. simpl.
      now rewrite andb_false_r.
    + rewrite andb_true_r, filter_filter_keep; [reflexivity|].
      intros x Hx. unfold Storage.savesPost in *.
      exact (selected_apart u p u' p' _ _ Es Hx).
  - unfold Storage.unsavePost, deleteWhere. simpl. apply positive_notNot.
  - unfold Storage.savePost.
    destruct (hd_error (selectWhere _ (saves db))); simpl; [reflexivity|].
    unfold selectWhere. rewrite filter_app. simpl.
    unfold Storage.savesVideo at 2. simpl. rewrite andb_false_r.
    now rewrite app_nil_r.
Qed.

(** X5.  [followUser] makes [isFollowing] true for its own (follower,
    followee) pair and changes it for no other; [unfollowUser] makes it
    false for its own pair, duplicates included, and for no other, and
    returns whether the pair was followed. *)
Theorem follow_switch :
  forall (db : Db) (now : Timestamp) (a b a' b' : Id),
    Storage.isFollowing a' b' (snd (Storage.followUser now a b db))
    = Storage.isFollowing a' b' db || ((a =? a') && (b =? b'))
    /\ Storage.isFollowing a' b' (snd (Storage.unfollowUser a b db))
       = Storage.isFollowing a' b' db && negb ((a =? a') && (b =? b'))
    /\ fst (Storage.unfollowUser a b db) = Storage.isFollowing a b db
    /\ Storage.isFollowing a b
         (snd (Storage.unfollowUser a b
            (snd (Storage.followUser now a b
               (snd (Storage.followUser now a b db)))))) = false.
Proof.
  intros db now a b a' b'. unfold Storage.isFollowing.
  split; [|split; [|split]].
  - unfold Storage.followUser, selectWhere. simpl.
    rewrite filter_app, notNot_hd_app. simpl.
    now destruct ((a =? a') && (b =? b')).
  - unfold Storage.unfollowUser, deleteWhere, selectWhere. simpl.
    destruct ((a =? a') && (b =? b')) eqn:Es; simpl.
    + apply andb_true_iff in Es. rewrite !String.eqb_eq in Es.
      destruct Es as [<- <-]. rewrite filter_neg_idem. simpl.
      now rewrite andb_false_r.
    + rewrite andb_true_r, filter_filter_keep; [reflexivity|].
      intros x Hx. apply andb_true_iff in Hx. rewrite !String.eqb_eq in Hx.
      destruct Hx as [-> ->]. now rewrite pair_eqb_sym.
  - unfold Storage.unfollowUser, deleteWhere. simpl. apply positive_notNot.
  - unfold Storage.unfollowUser, deleteWhere, selectWhere.
    cbn [snd follows with_follows]. now rewrite filter_neg_idem.
Qed.

(** ** The targets of the stored likes and saves *)

Lemma exec_likeTargets op db :
  Forall likeTarget (likes db) -> Forall likeTarget (likes (exec op db)).
Proof.
  intros H. destruct (writesLikes op) eqn:W.
  - destruct op; try discriminate; simpl.
    + unfold Storage.likePost. destruct (firstn 1 _); simpl; [|exact H].
      apply Forall_snoc. now split.
    + apply Forall_forall. rewrite Forall_forall in H.
      intros x Hx. apply filter_In in Hx. now apply H.
    + unfold Storage.likeVideo. destruct (firstn 1 _); simpl; [|exact H].
      apply Forall_snoc. now split.
    + apply Forall_forall. rewrite Forall_forall in H.
      intros x Hx. apply filter_In in Hx. now apply H.
  - now rewrite (likes_frame op db W).
Qed.

Lemma exec_saveTargets op db :
  Forall saveTarget (saves db) -> Forall saveTarget (saves (exec op db)).
Proof.
  intros H. destruct (writesSaves op) eqn:W.
  - destruct op; try discriminate; simpl.
    + unfold Storage.savePost. destruct (hd_error _); simpl; [exact H|].
      apply Forall_snoc. now split.
    + apply Forall_forall. rewrite Forall_forall in H.
      intros x Hx. apply filter_In in Hx. now apply H.
    + unfold Storage.saveVideo. destruct (hd_error _); simpl; [exact H|].
      apply Forall_snoc. now split.
    + apply Forall_forall. rewrite Forall_forall in H.
      intros x Hx. apply filter_In in Hx. now apply H.
  - now rewrite (saves_frame op db W).
Qed.

(** X6.  In every reachable store each Like row and each Save row has
    exactly one of [postId] and [videoId]; so there unliking a post leaves
    every video like in place, and unsaving a post every video save. *)
Theorem reachable_like_save_targets :
  forall (db : Db),
    reachable db ->
    Forall likeTarget (likes db)
    /\ Forall saveTarget (saves db)
    /\ (forall u p u' v,
          Storage.isLikedVideo u' v (snd (Storage.unlikePost u p db))
          = Storage.isLikedVideo u' v db)
    /\ (forall u p u' v,
          Storage.isSavedVideo u' v (snd (Storage.unsavePost u p db))
          = Storage.isSavedVideo u' v db).
Proof.
  intros db Hr.
  assert (H : Forall likeTarget (likes db) /\ Forall saveTarget (saves db)).
  { induction Hr as [|op db _ [IHl IHs]]; [split; constructor|].
    split; [now apply exec_likeTargets | now apply exec_saveTargets]. }
  destruct H as [Hl Hs]. split; [exact Hl|]. split; [exact Hs|]. split.
  - intros u p u' v. unfold Storage.isLikedVideo, Storage.unlikePost,
      deleteWhere, selectWhere. simpl.
    rewrite Forall_forall in Hl.
    f_equal. f_equal. clear Hs. induction (likes db) as [|x l IH]; [reflexivity|].
    simpl. assert (Hx := Hl x (or_introl eq_refl)).
    assert (IH' := IH (fun y Hy => Hl y (or_intror Hy))).
    destruct (Storage.likesPost u p x) eqn:Ep; simpl.
    + rewrite IH'. unfold Storage.likesVideo, Storage.likesPost in *.
      unfold likeTarget, exactlyOne in Hx.
      destruct (like_postId x), (like_videoId x); simpl in *;
        try discriminate; try (rewrite andb_false_r in Ep; discriminate).
      now rewrite andb_false_r.
    + now rewrite IH'.
  - intros u p u' v. unfold Storage.isSavedVideo, Storage.unsavePost,
      deleteWhere, selectWhere. simpl.
    rewrite Forall_forall in Hs.
    f_equal. f_equal. clear Hl. induction (saves db) as [|x l IH]; [reflexivity|].
    simpl. assert (Hx := Hs x (or_introl eq_refl)).
    assert (IH' := IH (fun y Hy => Hs y (or_intror Hy))).
    destruct (Storage.savesPost u p x) eqn:Ep; simpl.
    + rewrite IH'. unfold Storage.savesVideo, Storage.savesPost in *.
      unfold saveTarget, exactlyOne in Hx.
      destruct (save_postId x), (save_videoId x); simpl in *;
        try discriminate; try (rewrite andb_false_r in Ep; discriminate).
      now rewrite andb_false_r.
    + now rewrite IH'.
Qed.

Lemma reachable_like_save_targets_witness :
  Forall likeTarget (likes ownerlessDb) /\ Forall saveTarget (saves ownerlessDb).
Proof.
  destruct (reachable_like_save_targets ownerlessDb
              (run_reachable _ emptyDb reachable_empty)) as [Hl [Hs _]].
  split; [exact Hl | exact Hs].
Defined.

(** ** Profiles *)

Lemma filter_split_length {A} (q r : A -> bool) (l : list A) :
  (forall x, r x = true -> q x = true) ->
  length (filter q (filter (fun x => negb (r x)) l)) + length (filter r l)
  = length (filter q l).
Proof.
  intros H. induction l as [|x l IH]; simpl; [reflexivity|].
  destruct (r x) eqn:Er; simpl.
  - rewrite (H x Er). simpl. lia.
  - destruct (q x); simpl; lia.
Qed.

(** X7.  Every [followUser a b] call raises the [followersCount] of [b]'s
    profile and the [followingCount] of [a]'s profile by one, also when [a]
    already follows [b]; [unfollowUser a b] lowers [b]'s [followersCount]
    by the number of rows the pair had. *)
Theorem follow_counts :
  forall (db : Db) (now : Timestamp) (a b : Id) (viewer : option Id),
    option_map up_followersCount
      (Storage.getUserProfile b viewer (snd (Storage.followUser now a b db)))
    = option_map (fun p => S (up_followersCount p))
        (Storage.getUserProfile b viewer db)
    /\ option_map up_followingCount
         (Storage.getUserProfile a viewer (snd (Storage.followUser now a b db)))
       = option_map (fun p => S (up_followingCount p))
           (Storage.getUserProfile a viewer db)
    /\ option_map (fun p => up_followersCount p + length (followRows a b db))
         (Storage.getUserProfile b viewer (snd (Storage.unfollowUser a b db)))
       = option_map up_followersCount (Storage.getUserProfile b viewer db).
Proof.
  intros db now a b viewer. unfold Storage.getUserProfile.
  split; [|split].
  - simpl. destruct (hd_error _); simpl; [|reflexivity].
    unfold countWhere. rewrite filter_app, length_app. simpl.
    rewrite String.eqb_refl. simpl. f_equal. lia.
  - simpl. destruct (hd_error _); simpl; [|reflexivity].
    unfold countWhere. rewrite !filter_app, !length_app. simpl.
    rewrite String.eqb_refl. simpl. f_equal. lia.
  - unfold Storage.unfollowUser, deleteWhere. cbn [snd users follows with_follows].
    destruct (hd_error _); simpl; [|reflexivity].
    unfold countWhere, followRows, selectWhere. f_equal.
    apply filter_split_length. intros x Hx.
    apply andb_true_iff in Hx. tauto.
Qed.

Lemma hd_filter_holds {A} (q : A -> bool) (l : list A) x :
  hd_error (filter q l) = Some x -> In x l /\ q x = true.
Proof.
  intros H. apply filter_In. destruct (filter q l); [discriminate|].
  injection H as ->. now left.
Qed.

(** X8.  The profile route shows the caller's own profile when the path has
    no [:userId], answers 404 exactly when the user is not stored, and sets
    [isFollowing] only for a stored follow from a caller to another user:
    never on the caller's own profile, even if a row from the caller to
    the caller is stored. *)
Theorem profile_route :
  forall (sub : Id) (param : option string) (db : Db),
    let target := Api.orElse param sub in
    (truthy param = false -> target = sub)
    /\ match Storage.getUser target db with
       | None =>
           Api.getUsersProfile sub param db
           = Api.mkReply 404 (Api.JMessage "User not found")
       | Some user =>
           exists profile,
             Api.getUsersProfile sub param db = Api.ok (Api.JProfile profile)
             /\ up_user profile = user
             /\ user_id user = target
             /\ up_isFollowing profile
                = negb (sub =? "") && negb (sub =? target)
                  && Storage.isFollowing sub target db
             /\ (truthy param = false -> up_isFollowing profile = false)
       end.
Proof.
  intros sub param db target. split.
  - unfold target, Api.orElse. destruct param as [s|]; [|reflexivity].
    now intros ->.
  - unfold Api.getUsersProfile, Storage.getUserProfile, Storage.getUser.
    fold target.
    destruct (hd_error (selectWhere _ (users db))) as [user|] eqn:E;
      [|reflexivity].
    eexists. split; [reflexivity|]. simpl.
    split; [reflexivity|]. split.
    + apply hd_filter_holds in E. destruct E as [_ E].
      now apply String.eqb_eq in E.
    + split; [reflexivity|]. intros Hp.
      assert (target = sub) as ->.
      { unfold target, Api.orElse. destruct param as [s|]; [|reflexivity].
        now rewrite Hp. }
      rewrite String.eqb_refl. simpl. now rewrite andb_false_r.
Qed.

Lemma profile_route_witness :
  Api.getUsersProfile "u1" None feedDb <> Api.getUsersProfile "u2" None feedDb.
Proof.
  destruct (profile_route "u1" None feedDb) as [_ H1].
  destruct (profile_route "u2" None feedDb) as [_ H2].
  simpl in H1, H2. destruct H1 as [profile [E1 _]].
  rewrite E1, H2. discriminate.
Defined.

(** ** Posts: create, get, delete *)

Lemma generated_fresh {A} (key : A -> Id) (n : nat) (l : list A) :
  generated n (map key l) -> forall x, In x l -> key x <> idOfNat n.
Proof.
  intros [_ Hb] x Hx E. rewrite Forall_forall in Hb.
  destruct (Hb (key x) (in_map key l x Hx)) as [k [Hk Ek]].
  rewrite E in Ek. apply idOfNat_inj in Ek. lia.
Qed.

Lemma hd_filter_snoc {A} (q : A -> bool) (l : list A) (x : A) :
  hd_error (filter q (l ++ [x]))
  = match hd_error (filter q l) with
    | Some y => Some y
    | None => if q x then Some x else None
    end.
Proof.
  rewrite filter_app. destruct (filter q l); simpl; [|reflexivity].
  now destruct (q x).
Qed.

Lemma createPost_fresh_id db :
  reachable db -> filter (fun p => post_id p =? genId db) (posts db) = [].
Proof.
  intros Hr. apply filter_none. intros x Hx. apply String.eqb_neq.
  destruct (reachable_keysGenerated db Hr) as [Hp _].
  exact (generated_fresh post_id _ _ Hp x Hx).
Qed.

Lemma createPost_fetches db now postData :
  reachable db ->
  Storage.getPost (post_id (fst (Storage.createPost now postData db)))
                  (snd (Storage.createPost now postData db))
  = Some (fst (Storage.createPost now postData db)).
Proof.
  intros Hr. unfold Storage.getPost, selectWhere. simpl.
  rewrite hd_filter_snoc, (createPost_fresh_id db Hr). simpl.
  now rewrite String.eqb_refl.
Qed.

Lemma deletePostAdmin_fetches_nothing p db :
  Storage.getPost p (snd (Storage.deletePostAdmin p db)) = None.
Proof.
  unfold Storage.getPost, Storage.deletePostAdmin, deleteWhere, selectWhere.
  simpl. now rewrite filter_neg_idem.
Qed.

(** X9.  In every reachable store a created post can be fetched by the id
    it was given, every other id fetches what it fetched before, and the
    post is among its owner's posts. *)
Theorem createPost_getPost :
  forall (db : Db) (now : Timestamp) (postData : InsertPost),
    reachable db ->
    let created := Storage.createPost now postData db in
    Storage.getPost (post_id (fst created)) (snd created) = Some (fst created)
    /\ (forall id, id <> post_id (fst created) ->
          Storage.getPost id (snd created) = Storage.getPost id db)
    /\ In (fst created) (Storage.getUserPosts (ip_userId postData) (snd created))
    /\ Storage.getPost (post_id (fst created)) db = None.
Proof.
  intros db now postData Hr created.
  pose proof (createPost_fresh_id db Hr) as Hfresh.
  split; [|split; [|split]].
  - apply (createPost_fetches db now postData Hr).
  - intros id Hid. unfold Storage.getPost, selectWhere. simpl.
    rewrite hd_filter_snoc. destruct (hd_error _); [reflexivity|].
    apply not_eq_sym in Hid. apply String.eqb_neq in Hid.
    cbv beta. cbn [post_id fst created Storage.createPost] in *.
    now rewrite Hid.
  - unfold Storage.getUserPosts. apply orderByDesc_In.
    unfold selectWhere. simpl. rewrite filter_app. apply in_or_app. right.
    simpl. rewrite String.eqb_refl. now left.
  - unfold Storage.getPost, selectWhere. simpl. now rewrite Hfresh.
Qed.

Lemma createPost_getPost_witness :
  Storage.getPost "0"
    (snd (Storage.createPost 1%Z (mkInsertPost "u1" (Some "hello") None None)
            emptyDb))
  = Some (mkPost "0" "u1" (Some "hello") None None 1%Z).
Proof.
  exact (proj1 (createPost_getPost emptyDb 1%Z
                  (mkInsertPost "u1" (Some "hello") None None) reachable_empty)).
Defined.

Lemma unique_key_filter {A} (key : A -> Id) (l : list A) (x : A) :
  NoDup (map key l) -> In x l ->
  filter (fun y => key y =? key x) l = [x].
Proof.
  induction l as [|y l IH]; simpl; intros Hd Hin; [contradiction|].
  inversion Hd as [|? ? Hy Hd']; subst.
  destruct Hin as [->|Hin].
  - rewrite String.eqb_refl. f_equal. apply filter_none.
    intros z Hz. apply String.eqb_neq. intros E. apply Hy.
    rewrite <- E. now apply in_map.
  - destruct (key y =? key x) eqn:E.
    + apply String.eqb_eq in E. exfalso. apply Hy. rewrite E. now apply in_map.
    + now apply IH.
Qed.

(** X10.  After [deletePostAdmin] the id fetches nothing, whatever the
    store; in a reachable store the same holds after a [deletePost] that
    returned [true]; other ids fetch what they fetched before. *)
Theorem delete_then_getPost :
  forall (db : Db) (p owner : Id),
    Storage.getPost p (snd (Storage.deletePostAdmin p db)) = None
    /\ (forall q, q <> p ->
          Storage.getPost q (snd (Storage.deletePostAdmin p db))
          = Storage.getPost q db
          /\ Storage.getPost q (snd (Storage.deletePost p owner db))
             = Storage.getPost q db)
    /\ (reachable db -> fst (Storage.deletePost p owner db) = true ->
        Storage.getPost p (snd (Storage.deletePost p owner db)) = None).
Proof.
  intros db p owner. split; [|split].
  - apply deletePostAdmin_fetches_nothing.
  - intros q Hq. apply String.eqb_neq in Hq.
    unfold Storage.getPost, Storage.deletePostAdmin, Storage.deletePost,
      deleteWhere, selectWhere. simpl.
    split; (rewrite filter_filter_keep; [reflexivity|]); intros x Hx;
      apply String.eqb_eq in Hx; rewrite Hx, Hq; reflexivity.
  - intros Hr Hdel. rewrite deletePost_spec in Hdel. simpl in Hdel.
    apply filter_positive in Hdel. destruct Hdel as [x [Hx Ho]].
    destruct (reachable_keysGenerated db Hr) as [[Hd _] _].
    pose proof (unique_key_filter post_id (posts db) x Hd Hx) as Hone.
    unfold ownedPost in Ho. apply andb_true_iff in Ho. destruct Ho as [Hp Hu].
    apply String.eqb_eq in Hp. rewrite Hp in Hone.
    unfold Storage.getPost, Storage.deletePost, deleteWhere, selectWhere.
    simpl. rewrite (filter_none _ (filter _ (posts db))); [reflexivity|].
    intros y Hy. apply filter_In in Hy. destruct Hy as [Hy Hn].
    destruct (post_id y =? p) eqn:E; [|reflexivity].
    assert (In y (filter (fun y => post_id y =? p) (posts db))) as Hin
      by (apply filter_In; auto).
    rewrite Hone in Hin. destruct Hin as [<-|[]].
    cbv beta in Hn. rewrite Hu in Hn. discriminate.
Qed.

Lemma delete_then_getPost_witness :
  let db := snd (Storage.createPost 1%Z
                   (mkInsertPost "owner" (Some "hello") None None) emptyDb) in
  Storage.getPost "0" (snd (Storage.deletePost "0" "owner" db)) = None.
Proof.
  intros db.
  destruct (delete_then_getPost db "0" "owner") as [_ [_ H]].
  apply H; [|reflexivity].
  exact (reachable_step (CreatePost 1%Z _) emptyDb reachable_empty).
Defined.

(** ** The detail view, row by row *)

(** The first joined row whose left part passes [q] is the first left row
    that passes [q], with its first match on the right. *)
Lemma leftJoin_hd {A B} (on : A -> B -> bool) (q : A -> bool) l r :
  hd_error (filter (fun x => q (fst x)) (leftJoin on l r))
  = match hd_error (filter q l) with
    | Some a => Some (a, hd_error (filter (on a) r))
    | None => None
    end.
Proof.
  induction l as [|a l IH]; [reflexivity|].
  unfold leftJoin in *. simpl. rewrite filter_app.
  destruct (q a) eqn:Eq; simpl.
  - destruct (filter (on a) r) as [|b bs]; simpl; rewrite Eq; reflexivity.
  - rewrite <- IH.
    replace (filter _ (match filter (on a) r with
                       | [] => [(a, None)]
                       | b :: bs => map (fun b0 => (a, Some b0)) (b :: bs)
                       end)) with (@nil (A * option B)); [reflexivity|].
    symmetry. apply filter_none. intros x Hx.
    destruct (filter (on a) r).
    + destruct Hx as [<-|[]]. exact Eq.
    + apply in_map_iff in Hx. destruct Hx as [b' [<- _]]. exact Eq.
Qed.

Lemma getUser_join p db :
  hd_error (filter (fun u => post_userId p =? user_id u) (users db))
  = Storage.getUser (post_userId p) db.
Proof.
  unfold Storage.getUser, selectWhere. f_equal. apply filter_ext.
  intros u. apply String.eqb_sym.
Qed.

Lemma getLocation_join (pu : Post * option User) db :
  hd_error (filter (fun l => eqRef (post_locationId (fst pu)) (location_id l))
                   (locations db))
  = taggedLocation (post_locationId (fst pu)) db.
Proof.
  unfold taggedLocation, Storage.getLocation, selectWhere, eqRef.
  destruct (post_locationId (fst pu)) as [place|]; simpl.
  - f_equal. apply filter_ext. intros l. apply String.eqb_sym.
  - now rewrite (filter_none _ (locations db)).
Qed.

Lemma postRows_hd p db :
  hd_error (selectWhere (fun r => post_id (Storage.rowPost r) =? p)
                        (Storage.postRows db))
  = match Storage.getPost p db with
    | Some post =>
        Some (post, Storage.getUser (post_userId post) db,
              taggedLocation (post_locationId post) db)
    | None => None
    end.
Proof.
  unfold selectWhere, Storage.postRows, Storage.rowPost.
  rewrite (leftJoin_hd _ (fun pu : Post * option User => post_id (fst pu) =? p)).
  rewrite (leftJoin_hd _ (fun post : Post => post_id post =? p)).
  unfold Storage.getPost, selectWhere.
  destruct (hd_error (filter _ (posts db))) as [post|]; [|reflexivity].
  now rewrite getLocation_join, getUser_join.
Qed.

Lemma getPostWithDetails_getters :
  forall (p : Id) (viewer : option Id) (db : Db),
    Storage.getPostWithDetails p viewer db = detailsFromGetters p viewer db.
Proof.
  intros p viewer db. unfold Storage.getPostWithDetails, detailsFromGetters.
  rewrite postRows_hd.
  destruct (Storage.getPost p db) as [post|]; [|reflexivity].
  destruct (Storage.getUser (post_userId post) db) as [user|]; [|reflexivity].
  f_equal. f_equal. unfold likedBy, Storage.isLikedPost, selectWhere.
  destruct viewer as [cur|]; [|reflexivity].
  destruct (truthy (Some cur)); [|reflexivity]. simpl.
  f_equal. f_equal. apply filter_ext. intros l. apply andb_comm.
Qed.

(** X11.  The detail view, which joins the three tables, is what the
    single-row getters give one after the other: no view when the post is
    not stored or its owner is not, else the post with its owner, its tagged
    location, the number of Like and Comment rows of the post, and the like
    flag of a named viewer; [isSaved] is never part of it. *)
Theorem getPostWithDetails_by_getters :
  forall (p : Id) (viewer : option Id) (db : Db),
    Storage.getPostWithDetails p viewer db = detailsFromGetters p viewer db
    /\ (Storage.getPost p db = None ->
        Storage.getPostWithDetails p viewer db = None)
    /\ (forall post, Storage.getPost p db = Some post ->
          Storage.getUser (post_userId post) db = None ->
          Storage.getPostWithDetails p viewer db = None)
    /\ (forall d, Storage.getPostWithDetails p viewer db = Some d ->
          Storage.getPost p db = Some (pwd_post d) /\ pwd_isSaved d = None).
Proof.
  intros p viewer db. rewrite getPostWithDetails_getters.
  unfold detailsFromGetters. split; [reflexivity|]. split; [|split].
  - now intros ->.
  - intros post -> Hu. now rewrite Hu.
  - intros d. destruct (Storage.getPost p db) as [post|]; [|discriminate].
    destruct (Storage.getUser (post_userId post) db); [|discriminate].
    intros [= <-]. now split.
Qed.

(** X12.  The post route answers 404 for an id that [deletePostAdmin] has
    just removed; and in a reachable store, a post created for a stored user
    is served under its new id, with that user as owner. *)
Theorem post_route_after_write :
  forall (db : Db) (sub p : Id) (now : Timestamp) (postData : InsertPost)
         (owner : User),
    Api.getPostsById sub p (snd (Storage.deletePostAdmin p db))
    = Api.mkReply 404 (Api.JMessage "Post not found")
    /\ (reachable db ->
        Storage.getUser (ip_userId postData) db = Some owner ->
        let created := Storage.createPost now postData db in
        exists view,
          Api.getPostsById sub (post_id (fst created)) (snd created)
          = Api.ok (Api.JPost view)
          /\ pwd_post view = fst created
          /\ pwd_user view = Some owner).
Proof.
  intros db sub p now postData owner. split.
  - unfold Api.getPostsById.
    rewrite getPostWithDetails_getters. unfold detailsFromGetters.
    now rewrite deletePostAdmin_fetches_nothing.
  - intros Hr Ho created. unfold Api.getPostsById, created.
    rewrite getPostWithDetails_getters. unfold detailsFromGetters.
    rewrite (createPost_fetches db now postData Hr).
    assert (Storage.getUser
              (post_userId (fst (Storage.createPost now postData db)))
              (snd (Storage.createPost now postData db))
            = Some owner) as -> by exact Ho.
    eexists. split; [reflexivity|]. split; reflexivity.
Qed.

Lemma post_route_after_write_witness :
  exists view,
    Api.getPostsById "u2" "2"
      (snd (Storage.createPost 3%Z (mkInsertPost "u1" (Some "third") None None)
              feedDb))
    = Api.ok (Api.JPost view)
    /\ post_content (pwd_post view) = Some "third".
Proof.
  destruct (post_route_after_write feedDb "u2" "0" 3%Z
              (mkInsertPost "u1" (Some "third") None None)
              (mkUser "u1" (Some "u1@example.com") None None None None 0%Z 0%Z))
    as [_ H].
  destruct (H (run_reachable _ emptyDb reachable_empty) eq_refl)
    as [view [E [Hp _]]].
  exists view. split; [exact E|]. now rewrite Hp.
Defined.

(** ** Saved posts *)

Lemma innerJoin_In {A B} (on : A -> B -> bool) (l : list A) (r : list B) a b :
  In (a, b) (innerJoin on l r) <-> In a l /\ In b r /\ on a b = true.
Proof.
  unfold innerJoin. rewrite in_flat_map. split.
  - intros [a' [Ha Hb]]. apply in_map_iff in Hb.
    destruct Hb as [b' [E Hb]]. injection E as -> ->.
    apply filter_In in Hb. tauto.
  - intros [Ha [Hb Hon]]. exists a. split; [exact Ha|].
    apply in_map_iff. exists b. split; [reflexivity|].
    apply filter_In. tauto.
Qed.

Lemma savedPostRows_In db r :
  In r (Storage.savedPostRows db) ->
  In (Storage.rowSave r) (saves db)
  /\ In (snd (fst (fst r))) (posts db)
  /\ save_postId (Storage.rowSave r) = Some (post_id (snd (fst (fst r)))).
Proof.
  intros H. unfold Storage.savedPostRows in H.
  apply leftJoin_fst, leftJoin_fst in H.
  destruct r as [[[s p] u] l]. unfold Storage.rowSave. simpl in *.
  apply innerJoin_In in H. destruct H as [Hs [Hp Hon]].
  split; [exact Hs|]. split; [exact Hp|].
  unfold eqRef, eqCol in Hon. destruct (save_postId s); [|discriminate].
  apply String.eqb_eq in Hon. congruence.
Qed.

(** X13.  [getSavedPosts] returns the empty list for a user without Save
    rows; every item it returns is a stored post that the user has saved;
    so a post removed by [deletePostAdmin] is no longer listed, although its
    Save row is still there. *)
Theorem getSavedPosts_items :
  forall (db : Db) (u p : Id),
    ((forall s, In s (saves db) -> save_userId s <> u) ->
     Storage.getSavedPosts u db = [])
    /\ Forall (fun d => In (pwd_post d) (posts db)
                        /\ Storage.isSavedPost u (post_id (pwd_post d)) db = true)
              (Storage.getSavedPosts u db)
    /\ Forall (fun d => post_id (pwd_post d) <> p)
              (Storage.getSavedPosts u (snd (Storage.deletePostAdmin p db)))
    /\ Storage.isSavedPost u p (snd (Storage.deletePostAdmin p db))
       = Storage.isSavedPost u p db.
Proof.
  intros db u p.
  assert (Hitems : forall db0, Forall (fun d => In (pwd_post d) (posts db0)
                        /\ Storage.isSavedPost u (post_id (pwd_post d)) db0 = true)
              (Storage.getSavedPosts u db0)).
  { intros db0. apply Forall_forall. intros d Hd.
    unfold Storage.getSavedPosts in Hd. apply in_map_iff in Hd.
    destruct Hd as [r [<- Hr]]. apply orderByDesc_In in Hr.
    apply filter_In in Hr. destruct Hr as [Hr Hsel].
    apply savedPostRows_In in Hr. destruct Hr as [Hs [Hp Hid]].
    destruct r as [[[s post] user] location].
    unfold Storage.rowSave in *. simpl in *.
    split; [exact Hp|].
    apply andb_true_iff in Hsel. destruct Hsel as [Hu _].
    unfold Storage.isSavedPost.
    destruct (selectWhere _ (saves db0)) eqn:E; [|reflexivity].
    assert (In s (selectWhere (Storage.savesPost u (post_id post)) (saves db0))).
    { apply filter_In. split; [exact Hs|]. unfold Storage.savesPost.
      rewrite Hu, Hid. simpl. apply String.eqb_refl. }
    rewrite E in H. contradiction. }
  split; [|split; [|split]].
  - intros Hnone. unfold Storage.getSavedPosts, selectWhere.
    rewrite (filter_none _ (Storage.savedPostRows db)); [reflexivity|].
    intros r Hr. apply savedPostRows_In in Hr. destruct Hr as [Hs _].
    apply Hnone in Hs. apply String.eqb_neq in Hs. now rewrite Hs.
  - apply Hitems.
  - eapply Forall_impl; [|apply Hitems]. intros d [Hin _] E.
    rewrite deletePostAdmin_spec in Hin. simpl in Hin.
    apply filter_In in Hin. destruct Hin as [_ Hn].
    rewrite E, String.eqb_refl in Hn. discriminate.
  - reflexivity.
Qed.

Lemma getSavedPosts_items_witness :
  Storage.getSavedPosts "u1" emptyDb = [].
Proof.
  apply (proj1 (getSavedPosts_items emptyDb "u1" "p1")).
  intros s [].
Defined.

(** ** Listings by owner *)

(** X14.  [getUserPosts], [getUserVideos] and [getUserLocations] return
    exactly the rows of the user, each as often as stored, in non-increasing
    order of creation time. *)
Theorem user_listings :
  forall (db : Db) (u : Id),
    (Permutation (filter (fun p => post_userId p =? u) (posts db))
                 (Storage.getUserPosts u db)
     /\ StronglySorted (descending post_createdAt) (Storage.getUserPosts u db))
    /\ (Permutation (filter (fun v => video_userId v =? u) (videos db))
                    (Storage.getUserVideos u db)
        /\ StronglySorted (descending video_createdAt)
                          (Storage.getUserVideos u db))
    /\ (Permutation (filter (fun l => location_userId l =? u) (locations db))
                    (Storage.getUserLocations u db)
        /\ StronglySorted (descending location_createdAt)
                          (Storage.getUserLocations u db)).
Proof.
  intros db u. repeat split;
    try apply orderByDesc_perm; apply orderByDesc_sorted.
Qed.

(** ** Comments of a post *)

Lemma commentRows_In db c u :
  In (c, u) (Storage.commentRows db) ->
  In c (comments db)
  /\ match u with
     | Some user => In user (users db) /\ user_id user = comment_userId c
     | None => forall user, In user (users db) -> user_id user <> comment_userId c
     end.
Proof.
  intros H. split; [exact (leftJoin_fst _ _ _ _ H)|].
  unfold Storage.commentRows, leftJoin in H. apply in_flat_map in H.
  destruct H as [c' [_ H]].
  destruct (filter _ (users db)) as [|u0 us] eqn:E.
  - destruct H as [H|[]]. injection H as <- <-.
    intros user Hu Eid.
    assert (In user (filter (fun u => comment_userId c' =? user_id u) (users db))).
    { apply filter_In. split; [exact Hu|]. rewrite Eid. apply String.eqb_refl. }
    rewrite E in H. contradiction.
  - apply in_map_iff in H. destruct H as [user [Heq Hin]].
    injection Heq as <- <-. rewrite <- E in Hin. apply filter_In in Hin.
    destruct Hin as [Hin Hon]. apply String.eqb_eq in Hon. now split.
Qed.

Lemma Forall2_In_r {A B} (R : A -> B -> Prop) l1 l2 b :
  Forall2 R l1 l2 -> In b l2 -> exists a, In a l1 /\ R a b.
Proof.
  induction 1 as [|x y l1 l2 Hxy _ IH]; simpl; [contradiction|].
  intros [<-|Hb].
  - exists x. auto.
  - destruct (IH Hb) as [a [Ha Hr]]. exists a. auto.
Qed.

Lemma Forall2_In_l {A B} (R : A -> B -> Prop) l1 l2 a :
  Forall2 R l1 l2 -> In a l1 -> exists b, In b l2 /\ R a b.
Proof.
  induction 1 as [|x y l1 l2 Hxy _ IH]; simpl; [contradiction|].
  intros [<-|Ha].
  - exists y. auto.
  - destruct (IH Ha) as [b [Hb Hr]]. exists b. auto.
Qed.

Lemma withUser_ok r d :
  Storage.withUser r = Ok d -> r = (cwu_comment d, Some (cwu_user d)).
Proof.
  destruct r as [c [u|]]; simpl; [|discriminate]. now intros [= <-].
Qed.

(** X15.  [getPostComments] returns a list exactly when every comment of
    the post has its author stored, and throws "Comment has no user"
    otherwise; the list holds each comment of the post, with its author,
    and nothing else, in non-increasing order of creation time. *)
Theorem getPostComments_listing :
  forall (db : Db) (p : Id),
    (authorsStored p db <-> exists out, Storage.getPostComments p db = Ok out)
    /\ (forall m, Storage.getPostComments p db = Throw m ->
          m = "Comment has no user")
    /\ (forall out, Storage.getPostComments p db = Ok out ->
          StronglySorted
            (descending (fun d => comment_createdAt (cwu_comment d))) out
          /\ Forall (fun d => In (cwu_comment d) (comments db)
                              /\ comment_postId (cwu_comment d) = Some p
                              /\ In (cwu_user d) (users db)
                              /\ user_id (cwu_user d)
                                 = comment_userId (cwu_comment d)) out
          /\ (forall c, In c (comments db) -> comment_postId c = Some p ->
                exists d, In d out /\ cwu_comment d = c)).
Proof.
  intros db p. unfold Storage.getPostComments.
  set (rows := orderByDesc _ _).
  assert (Hrows : forall c u, In (c, u) rows <->
            In (c, u) (Storage.commentRows db)
            /\ eqCol (comment_postId c) p = true).
  { intros c u. unfold rows. rewrite orderByDesc_In. unfold selectWhere.
    now rewrite filter_In. }
  split; [split|split].
  - intros Ha. apply promiseAll_total. apply Forall_forall.
    intros [c [user|]] Hr; [eexists; reflexivity|]. exfalso.
    apply Hrows in Hr. destruct Hr as [Hr Hq].
    apply commentRows_In in Hr. destruct Hr as [Hc Hn].
    destruct (Ha c Hc Hq) as [user [Hu Eu]]. exact (Hn user Hu Eu).
  - intros [out Hout] c Hc Hq. apply promiseAll_ok in Hout.
    destruct (leftJoin_covers (fun c u => comment_userId c =? user_id u)
                (comments db) (users db) c Hc) as [u Hu].
    assert (Hin : In (c, u) rows) by (apply Hrows; split; assumption).
    destruct (Forall2_In_l _ _ _ _ Hout Hin) as [d [_ Hd]].
    apply withUser_ok in Hd. injection Hd as -> ->.
    apply commentRows_In in Hu. destruct Hu as [_ [Hu Eu]]. eauto.
  - intros m Hm.
    assert (G : forall l, promiseAll Storage.withUser l = Throw m ->
                          m = "Comment has no user").
    { clear. induction l as [|[c [u|]] l IH]; simpl; try discriminate.
      - destruct (promiseAll Storage.withUser l); [discriminate|].
        intros [= <-]. now apply IH.
      - now intros [= <-]. }
    exact (G rows Hm).
  - intros out Hout. apply promiseAll_ok in Hout.
    assert (Hmap : map cwu_comment out = map fst rows).
    { apply Forall2_map_eq. eapply Forall2_impl; [|exact Hout].
      intros r d Hd. apply withUser_ok in Hd. now rewrite Hd. }
    split; [|split].
    + apply (sorted_transport cwu_comment fst comment_createdAt _ _ Hmap).
      apply orderByDesc_sorted.
    + apply Forall_forall. intros d Hd.
      destruct (Forall2_In_r _ _ _ _ Hout Hd) as [r [Hr Hw]].
      apply withUser_ok in Hw. subst r. apply Hrows in Hr.
      destruct Hr as [Hr Hq]. apply commentRows_In in Hr.
      destruct Hr as [Hc [Hu Eu]].
      split; [exact Hc|]. split; [|split; assumption].
      unfold eqCol in Hq. destruct (comment_postId (cwu_comment d));
        [|discriminate]. apply String.eqb_eq in Hq. now subst.
    + intros c Hc Hp.
      destruct (leftJoin_covers (fun c u => comment_userId c =? user_id u)
                  (comments db) (users db) c Hc) as [u Hu].
      assert (Hin : In (c, u) rows).
      { apply Hrows. split; [exact Hu|]. rewrite Hp. simpl.
        apply String.eqb_refl. }
      destruct (Forall2_In_l _ _ _ _ Hout Hin) as [d [Hd Hw]].
      apply withUser_ok in Hw. injection Hw as -> _. now exists d.
Qed.

(** ** Deleting videos, locations and comments *)

Lemma deleteWhere_none {A} (q : A -> bool) (l : list A) :
  (forall x, In x l -> q x = false) -> deleteWhere q l = ([], l).
Proof.
  intros H. unfold deleteWhere.
  now rewrite (filter_none q l H), (filter_nil_neg q l (filter_none q l H)).
Qed.

Lemma owned_false (id v xid xowner : Id) :
  (xid = id -> xowner <> v) -> (xid =? id) && (xowner =? v) = false.
Proof.
  intros H. destruct (xid =? id) eqn:E; [|reflexivity].
  apply String.eqb_eq in E. simpl. apply String.eqb_neq. now apply H.
Qed.

(** X16.  [deleteVideo], [deleteLocation] and [deleteComment] called by a
    user who owns no row of that id return [false] and leave the store as
    it was; their admin variants remove every row of the id, whoever owns
    it. *)
Theorem delete_needs_owner :
  forall (db : Db) (id v : Id),
    ((forall x, In x (videos db) -> video_id x = id -> video_userId x <> v) ->
     Storage.deleteVideo id v db = (false, db))
    /\ ((forall x, In x (locations db) -> location_id x = id ->
                   location_userId x <> v) ->
        Storage.deleteLocation id v db = (false, db))
    /\ ((forall x, In x (comments db) -> comment_id x = id ->
                   comment_userId x <> v) ->
        Storage.deleteComment id v db = (false, db))
    /\ Storage.getVideo id (snd (Storage.deleteVideoAdmin id db)) = None
    /\ Storage.getLocation id (snd (Storage.deleteLocationAdmin id db)) = None
    /\ Forall (fun c => comment_id c <> id)
              (comments (snd (Storage.deleteCommentAdmin id db))).
Proof.
  intros db id v. split; [|split; [|split; [|split; [|split]]]].
  - intros H. unfold Storage.deleteVideo. rewrite deleteWhere_none.
    + now destruct db.
    + intros x Hx. cbv beta. apply owned_false. now apply H.
  - intros H. unfold Storage.deleteLocation. rewrite deleteWhere_none.
    + now destruct db.
    + intros x Hx. cbv beta. apply owned_false. now apply H.
  - intros H. unfold Storage.deleteComment. rewrite deleteWhere_none.
    + now destruct db.
    + intros x Hx. cbv beta. apply owned_false. now apply H.
  - unfold Storage.getVideo, Storage.deleteVideoAdmin, deleteWhere, selectWhere.
    simpl. now rewrite filter_neg_idem.
  - unfold Storage.getLocation, Storage.deleteLocationAdmin, deleteWhere,
      selectWhere. simpl. now rewrite filter_neg_idem.
  - apply Forall_forall. intros c Hc E.
    unfold Storage.deleteCommentAdmin, deleteWhere in Hc. simpl in Hc.
    apply filter_In in Hc. destruct Hc as [_ Hn].
    rewrite E, String.eqb_refl in Hn. discriminate.
Qed.

Lemma delete_needs_owner_witness :
  let db := snd (Storage.createComment 1%Z
                   (mkInsertComment "author" (Some "p1") None "nice!") emptyDb) in
  Storage.deleteComment "0" "visitor" db = (false, db).
Proof.
  intros db.
  destruct (delete_needs_owner db "0" "visitor") as [_ [_ [H _]]].
  apply H. intros x [<-|[]] _. discriminate.
Defined.

(** ** Users *)

Lemma filter_map_commute {A} (q : A -> bool) (f : A -> A) (l : list A) :
  (forall x, q (f x) = q x) -> filter q (map f l) = map f (filter q l).
Proof.
  intros H. induction l as [|x l IH]; simpl; [reflexivity|].
  rewrite H. destruct (q x); simpl; now rewrite IH.
Qed.

Lemma existing_by_email now d e db :
  uu_email d = Some e -> e <> "" ->
  (exists u, In u (users db) /\ user_email u = Some e) ->
  Storage.upsertUser now d db = Storage.updateUserByEmail now d e db.
Proof.
  intros He Hne [u [Hu Eu]]. unfold Storage.upsertUser. rewrite He.
  unfold truthy. apply String.eqb_neq in Hne. rewrite Hne. simpl.
  destruct (selectWhere (Storage.emailIs e) (users db)) eqn:E; [|reflexivity].
  assert (In u (selectWhere (Storage.emailIs e) (users db))) as Hin.
  { apply filter_In. split; [exact Hu|]. unfold Storage.emailIs.
    rewrite Eu. apply String.eqb_refl. }
  rewrite E in Hin. contradiction.
Qed.

(** X17.  When a stored user already has the e-mail of the login,
    [upsertUser] adds no row and changes no id, whatever [id] the login
    carries: it stamps the rows of that e-mail, writes the names the login
    brings, and returns the first of them. *)
Theorem upsertUser_known_email :
  forall (db : Db) (now : Timestamp) (d : Schema.UpsertUser) (e : string),
    uu_email d = Some e -> e <> "" ->
    (exists u, In u (users db) /\ user_email u = Some e) ->
    let r := Storage.upsertUser now d db in
    map user_id (users (snd r)) = map user_id (users db)
    /\ serial (snd r) = serial db
    /\ exists u0 u,
         hd_error (selectWhere (Storage.emailIs e) (users db)) = Some u0
         /\ fst r = Some u
         /\ In u (users (snd r))
         /\ user_id u = user_id u0
         /\ user_email u = Some e
         /\ user_updatedAt u = now
         /\ user_firstName u = Storage.orKeep (uu_firstName d) (user_firstName u0)
         /\ user_lastName u = Storage.orKeep (uu_lastName d) (user_lastName u0)
         /\ user_bio u = user_bio u0.
Proof.
  intros db now d e He Hne Hex r. unfold r.
  rewrite (existing_by_email now d e db He Hne Hex).
  unfold Storage.updateUserByEmail. simpl. split; [|split; [reflexivity|]].
  - rewrite map_map. apply map_ext. intros u. now destruct (Storage.emailIs e u).
  - unfold selectWhere. rewrite filter_map_commute.
    2:{ intros x. destruct (Storage.emailIs e x) eqn:Ex; [|exact Ex].
        unfold Storage.emailIs in *. simpl. exact Ex. }
    destruct (filter (Storage.emailIs e) (users db)) as [|u0 t] eqn:E.
    + destruct Hex as [u [Hu Eu]].
      assert (In u (filter (Storage.emailIs e) (users db))) as Hin.
      { apply filter_In. split; [exact Hu|]. unfold Storage.emailIs.
        rewrite Eu. apply String.eqb_refl. }
      rewrite E in Hin. contradiction.
    + assert (Hu0 : In u0 (users db) /\ Storage.emailIs e u0 = true).
      { apply filter_In. rewrite E. now left. }
      destruct Hu0 as [Hin0 Hsel]. simpl. rewrite Hsel.
      eexists u0, _. split; [reflexivity|]. split; [reflexivity|].
      split.
      { apply in_map_iff. exists u0. rewrite Hsel. auto. }
      simpl. repeat split.
      unfold Storage.emailIs in Hsel. destruct (user_email u0); [|discriminate].
      apply String.eqb_eq in Hsel. now subst.
Qed.

Lemma upsertUser_known_email_witness :
  map user_id
    (users (snd (Storage.upsertUser 9%Z
                   (mkUpsertUser (Some "other-id") (Some "u1@example.com")
                                 (Some "Ada") None None) feedDb)))
  = ["u1"].
Proof.
  refine (proj1 (upsertUser_known_email feedDb 9%Z
                   (mkUpsertUser (Some "other-id") (Some "u1@example.com")
                                 (Some "Ada") None None)
                   "u1@example.com" eq_refl _ _)).
  - discriminate.
  - eexists. split; [left; reflexivity | reflexivity].
Defined.

Lemma hd_filter_map_update (id : Id) (upd : User -> User) (l : list User) u :
  (forall x, user_id (upd x) = user_id x) ->
  hd_error (filter (fun x => user_id x =? id)
              (map (fun x => if user_id x =? id then upd x else x) l)) = Some u ->
  exists u0, hd_error (filter (fun x => user_id x =? id) l) = Some u0
             /\ u = upd u0.
Proof.
  intros Hid. induction l as [|x l IH]; simpl; [discriminate|].
  destruct (user_id x =? id) eqn:E; simpl.
  - rewrite Hid, E. simpl. intros [= <-]. now exists x.
  - rewrite E. exact IH.
Qed.

(** X18.  A login whose e-mail no stored user has is written under its own
    id: [upsertUser] returns the row that [getUser] then finds for that id,
    holding the e-mail, names and image of the login; a new id adds one row
    at the end, a known id rewrites its row and adds none. *)
Theorem upsertUser_by_id :
  forall (db : Db) (now : Timestamp) (d : Schema.UpsertUser) (id : Id),
    uu_id d = Some id ->
    (forall e u, uu_email d = Some e -> In u (users db) ->
                 user_email u <> Some e) ->
    let r := Storage.upsertUser now d db in
    exists u,
      fst r = Some u
      /\ Storage.getUser id (snd r) = Some u
      /\ user_id u = id
      /\ user_email u = uu_email d
      /\ user_firstName u = uu_firstName d
      /\ user_lastName u = uu_lastName d
      /\ user_profileImageUrl u = uu_profileImageUrl d
      /\ user_updatedAt u = now
      /\ match Storage.getUser id db with
         | None => users (snd r) = users db ++ [u] /\ user_createdAt u = now
         | Some old =>
             length (users (snd r)) = length (users db)
             /\ user_createdAt u = user_createdAt old
             /\ user_bio u = user_bio old
         end.
Proof.
  intros db now d id Hid Hmail r.
  assert (Hr : r = Storage.insertOrUpdateUser now d id db).
  { unfold r, Storage.upsertUser, selectWhere. rewrite Hid.
    destruct (uu_email d) as [e|]; [|reflexivity].
    destruct (truthy (Some e)); [|reflexivity].
    rewrite (filter_none (Storage.emailIs e) (users db)); [reflexivity|].
    intros u Hu. unfold Storage.emailIs.
    destruct (user_email u) as [e'|] eqn:Eu; [|reflexivity].
    apply String.eqb_neq. intros ->. exact (Hmail e u eq_refl Hu Eu). }
  rewrite Hr. unfold Storage.insertOrUpdateUser, Storage.getUser, selectWhere.
  destruct (filter (fun u => user_id u =? id) (users db)) as [|old t] eqn:E.
  - eexists. split; [reflexivity|]. simpl.
    rewrite filter_app, E. simpl. rewrite String.eqb_refl.
    repeat split; reflexivity.
  - simpl.
    destruct (hd_error (filter _ (map _ (users db)))) as [u|] eqn:Eh.
    + apply hd_filter_map_update in Eh; [|reflexivity].
      destruct Eh as [u0 [H0 ->]].
      rewrite E in H0. injection H0 as <-.
      exists (mkUser (user_id old) (uu_email d) (uu_firstName d) (uu_lastName d)
                     (user_bio old) (uu_profileImageUrl d) (user_createdAt old)
                     now).
      assert (Ho : user_id old = id).
      { assert (In old (filter (fun u => user_id u =? id) (users db)))
          as Hin by (rewrite E; now left).
        apply filter_In in Hin. now apply String.eqb_eq. }
      simpl. rewrite length_map. now repeat split.
    + exfalso. apply hd_error_none in Eh.
      assert (In old (filter (fun u => user_id u =? id) (users db)))
        as Hin by (rewrite E; now left).
      apply filter_In in Hin. destruct Hin as [Hin Ho].
      assert (In (mkUser (user_id old) (uu_email d) (uu_firstName d)
                    (uu_lastName d) (user_bio old) (uu_profileImageUrl d)
                    (user_createdAt old) now)
                 (filter (fun x => user_id x =? id)
                    (map (fun u => if user_id u =? id
                                   then mkUser (user_id u) (uu_email d)
                                          (uu_firstName d) (uu_lastName d)
                                          (user_bio u) (uu_profileImageUrl d)
                                          (user_createdAt u) now
                                   else u) (users db)))) as Hnew.
      { apply filter_In. split; [|exact Ho].
        apply in_map_iff. exists old. now rewrite Ho. }
      rewrite Eh in Hnew. contradiction.
Qed.

Lemma upsertUser_by_id_witness :
  exists u,
    Storage.getUser "u1"
      (snd (Storage.upsertUser 5%Z
              (mkUpsertUser (Some "u1") (Some "ada@example.com") (Some "Ada")
                            None None) emptyDb))
    = Some u
    /\ user_firstName u = Some "Ada".
Proof.
  destruct (upsertUser_by_id emptyDb 5%Z
              (mkUpsertUser (Some "u1") (Some "ada@example.com") (Some "Ada")
                            None None) "u1" eq_refl)
    as [u [_ [Hget [_ [_ [Hname _]]]]]].
  - intros e u _ [].
  - exists u. split; [exact Hget | exact Hname].
Defined.

(** X19.  [updateUserBio] for an id that is not stored returns no row,
    although its type promises one, and leaves the store as it was; for a
    stored id it returns the row with the new bio, which [getUser] then
    finds, and every other id keeps the row it had. *)
Theorem updateUserBio_rows :
  forall (db : Db) (now : Timestamp) (userId : Id) (bio : option string),
    (Storage.getUser userId db = None ->
     Storage.updateUserBio now userId bio db = (None, db))
    /\ (forall old, Storage.getUser userId db = Some old ->
          let r := Storage.updateUserBio now userId bio db in
          fst r = Some (mkUser (user_id old) (user_email old)
                          (user_firstName old) (user_lastName old) bio
                          (user_profileImageUrl old) (user_createdAt old) now)
          /\ Storage.getUser userId (snd r) = fst r)
    /\ (forall other, other <> userId ->
          Storage.getUser other (snd (Storage.updateUserBio now userId bio db))
          = Storage.getUser other db).
Proof.
  intros db now userId bio. unfold Storage.updateUserBio, Storage.getUser,
    selectWhere. simpl. split; [|split].
  - intros Hnone. apply hd_error_none in Hnone.
    assert (Hmap : map (fun u => if user_id u =? userId
                                 then mkUser (user_id u) (user_email u)
                                        (user_firstName u) (user_lastName u) bio
                                        (user_profileImageUrl u)
                                        (user_createdAt u) now
                                 else u) (users db) = users db).
    { rewrite <- (map_id (users db)) at 2. apply map_ext_in. intros u Hu.
      destruct (user_id u =? userId) eqn:E; [|reflexivity].
      assert (In u (filter (fun u => user_id u =? userId) (users db)))
        as Hin by (apply filter_In; auto).
      rewrite Hnone in Hin. contradiction. }
    rewrite Hmap, Hnone. simpl. f_equal. now destruct db.
  - intros old Hold. split; [|reflexivity].
    destruct (hd_error (filter _ (map _ (users db)))) as [u|] eqn:Eh.
    + apply hd_filter_map_update in Eh; [|reflexivity].
      destruct Eh as [u0 [H0 ->]].
      rewrite Hold in H0. now injection H0 as <-.
    + exfalso. apply hd_error_none in Eh.
      apply hd_filter_holds in Hold. destruct Hold as [Hin Ho].
      assert (In (mkUser (user_id old) (user_email old) (user_firstName old)
                    (user_lastName old) bio (user_profileImageUrl old)
                    (user_createdAt old) now)
                 (filter (fun x => user_id x =? userId)
                    (map (fun u => if user_id u =? userId
                                   then mkUser (user_id u) (user_email u)
                                          (user_firstName u) (user_lastName u)
                                          bio (user_profileImageUrl u)
                                          (user_createdAt u) now
                                   else u) (users db)))) as Hnew.
      { apply filter_In. split; [|exact Ho].
        apply in_map_iff. exists old. now rewrite Ho. }
      rewrite Eh in Hnew. contradiction.
  - intros other Hother. f_equal.
    assert (Hne : (userId =? other) = false)
      by (apply String.eqb_neq; congruence).
    induction (users db) as [|u l IH]; simpl; [reflexivity|].
    destruct (user_id u =? userId) eqn:E; simpl.
    + apply String.eqb_eq in E. rewrite E, Hne. exact IH.
    + destruct (user_id u =? other); now rewrite IH.
Qed.

Lemma updateUserBio_rows_witness :
  Storage.updateUserBio 5%Z "nobody" (Some "hi") feedDb = (None, feedDb).
Proof.
  exact (proj1 (updateUserBio_rows feedDb 5%Z "nobody" (Some "hi")) eq_refl).
Defined.

(** * The routes *)

(** ** Comments *)

(** X20.  The comment route stores the caller as the author, whatever
    [userId] the body carries: a body with a text, and with [postId] and
    [videoId] absent or strings, adds one Comment row with [userId] the
    caller's id and answers 200 with it; any other body is answered 400 and
    nothing is written. *)
Theorem postComments_author :
  forall (now : Timestamp) (sub : Id) (body : JsObject) (db : Db),
    let r := Routes.postComments now sub body db in
    if acceptableComment body then
      exists c,
        fst r = Routes.json (Routes.CommentJson c)
        /\ comments (snd r) = comments db ++ [c]
        /\ comment_userId c = sub
        /\ comment_text c = stringOf (getProp body "text")
        /\ comment_postId c = stringOf (getProp body "postId")
        /\ comment_videoId c = stringOf (getProp body "videoId")
        /\ comment_createdAt c = now
    else
      Routes.status (fst r) = 400 /\ snd r = db.
Proof.
  intros now sub body db. unfold acceptableComment, Routes.postComments,
    insertCommentSchema, spreadWith, bind. simpl.
  destruct (getProp body "postId") eqn:Ep; simpl;
    destruct (getProp body "videoId") eqn:Ev; simpl;
    destruct (getProp body "text") eqn:Et; simpl;
    try (split; reflexivity);
    (eexists; repeat split; reflexivity).
Qed.

(** A body that names another user as author is stored under the caller. *)
Example postComments_ignores_body_userId :
  comments (snd (Routes.postComments 1%Z "caller"
                   [("userId", JsString "victim"); ("postId", JsString "p1");
                    ("text", JsString "nice!")] emptyDb))
  = [mkComment "0" "caller" (Some "p1") None (Some "nice!") 1%Z].
Proof. reflexivity. Qed.

(** ** The admin allow-list *)

Lemma split_commaFree s :
  commaFree s = true -> AdminCheck.split "," s = [s].
Proof.
  induction s as [|c s IH]; simpl; [reflexivity|].
  intros H. apply andb_true_iff in H. destruct H as [Hc Hs].
  apply negb_true_iff in Hc. rewrite Hc, (IH Hs). reflexivity.
Qed.

Lemma split_app_comma s rest :
  commaFree s = true ->
  AdminCheck.split "," (s ++ String "," rest)%string
  = s :: AdminCheck.split "," rest.
Proof.
  induction s as [|c s IH]; simpl; [reflexivity|].
  intros H. apply andb_true_iff in H. destruct H as [Hc Hs].
  apply negb_true_iff in Hc. rewrite Hc, (IH Hs). reflexivity.
Qed.

(** Splitting at the commas undoes joining with commas. *)
Lemma split_concat es :
  es <> [] -> Forall (fun e => commaFree e = true) es ->
  AdminCheck.split "," (String.concat "," es) = es.
Proof.
  induction es as [|e es IH]; [congruence|]. intros _ H.
  inversion H as [|? ? He Hes]; subst.
  destruct es as [|e' es'].
  - simpl. now apply split_commaFree.
  - change (String.concat "," (e :: e' :: es'))
      with (e ++ String "," (String.concat "," (e' :: es')))%string.
    rewrite (split_app_comma _ _ He). f_equal. apply IH; [discriminate|exact Hes].
Qed.

Lemma orEmpty_some s : AdminCheck.orEmpty (Some s) = s.
Proof.
  unfold AdminCheck.orEmpty, truthy. destruct (s =? "") eqn:E; simpl.
  - apply String.eqb_eq in E. now subst.
  - reflexivity.
Qed.

Lemma includes_In l x : AdminCheck.includes l x = true <-> In x l.
Proof.
  unfold AdminCheck.includes. rewrite existsb_exists. split.
  - intros [y [Hy E]]. apply String.eqb_eq in E. now subst.
  - intros H. exists x. split; [exact H | apply String.eqb_refl].
Qed.

Lemma isAdmin_unset (toLowerCase trim : string -> string) env email :
  (forall s, toLowerCase s = "" -> s = "") ->
  toLowerCase (trim "") = "" ->
  AdminCheck.orEmpty env = "" ->
  AdminCheck.isAdmin toLowerCase trim env email = false.
Proof.
  intros Hl Ht He. unfold AdminCheck.isAdmin.
  destruct email as [e|]; [|reflexivity].
  unfold truthy. destruct (e =? "") eqn:E; [reflexivity|]. simpl.
  unfold AdminCheck.adminList. rewrite He. simpl. rewrite Ht.
  rewrite orb_false_r. apply String.eqb_neq. intros H.
  symmetry in H. apply Hl in H. apply String.eqb_neq in E. contradiction.
Qed.

(** X21.  Nobody is an admin without an e-mail, with an empty e-mail, or
    when [ADMIN_EMAILS] is unset or empty (lower-casing turns no other
    string into the empty one). *)
Theorem isAdmin_nobody :
  forall (toLowerCase trim : string -> string) (env email : option string),
    (forall s, toLowerCase s = "" -> s = "") ->
    toLowerCase (trim "") = "" ->
    AdminCheck.isAdmin toLowerCase trim env None = false
    /\ AdminCheck.isAdmin toLowerCase trim env (Some "") = false
    /\ AdminCheck.isAdmin toLowerCase trim None email = false
    /\ AdminCheck.isAdmin toLowerCase trim (Some "") email = false.
Proof.
  intros toLowerCase trim env email Hl Ht. repeat split;
    try reflexivity; now apply isAdmin_unset.
Qed.

Lemma asciiLower_empty s : AdminCheck.asciiLower s = "" -> s = "".
Proof. destruct s; [reflexivity | discriminate]. Qed.

Lemma isAdmin_nobody_witness :
  AdminCheck.isAdmin AdminCheck.asciiLower AdminCheck.asciiTrim None
    (Some "root@example.com") = false.
Proof.
  exact (proj1 (proj2 (proj2
    (isAdmin_nobody AdminCheck.asciiLower AdminCheck.asciiTrim None
       (Some "root@example.com") asciiLower_empty eq_refl)))).
Defined.

(** X22.  With [ADMIN_EMAILS] the comma-joined list of some entries, an
    e-mail is an admin's exactly when it is not empty and its lower-case
    form is the lower-case form of a trimmed entry. *)
Theorem isAdmin_listed :
  forall (toLowerCase trim : string -> string) (entries : list string)
         (e : string),
    entries <> [] -> Forall (fun x => commaFree x = true) entries ->
    (AdminCheck.isAdmin toLowerCase trim (Some (String.concat "," entries))
       (Some e) = true
     <-> e <> "" /\ exists x, In x entries
                              /\ toLowerCase (trim x) = toLowerCase e).
Proof.
  intros toLowerCase trim entries e Hne Hfree.
  unfold AdminCheck.isAdmin, AdminCheck.adminList.
  rewrite orEmpty_some, (split_concat entries Hne Hfree).
  unfold truthy. destruct (e =? "") eqn:E; simpl.
  - apply String.eqb_eq in E. split; [discriminate | tauto].
  - apply String.eqb_neq in E. rewrite includes_In, in_map_iff.
    split.
    + intros [x [Hx Hin]]. split; [exact E|]. now exists x.
    + intros [_ [x [Hin Hx]]]. now exists x.
Qed.

Lemma isAdmin_listed_witness :
  AdminCheck.isAdmin AdminCheck.asciiLower AdminCheck.asciiTrim
    (Some "root@example.com, Mod@Example.com") (Some "MOD@example.com") = true.
Proof.
  apply (isAdmin_listed AdminCheck.asciiLower AdminCheck.asciiTrim
           ["root@example.com"; " Mod@Example.com"] "MOD@example.com").
  - discriminate.
  - repeat constructor.
  - split; [discriminate|]. exists " Mod@Example.com".
    split; [right; left; reflexivity | reflexivity].
Defined.

(** ** Moderation *)

Lemma getAllPosts_total db :
  postOwnersStored db -> exists out, Storage.getAllPosts db = Ok out.
Proof.
  intros Ho. unfold Storage.getAllPosts.
  apply promiseAll_total. apply Forall_forall.
  intros [[post [user|]] location] Hr; [eexists; reflexivity|].
  exfalso. apply orderByDesc_In in Hr.
  destruct (Ho post (postRows_post _ _ Hr)) as [u [Hu Eu]].
  exact (postRows_owner _ _ _ Hr u Hu Eu).
Qed.

Lemma getAllPosts_ok db out :
  Storage.getAllPosts db = Ok out ->
  StronglySorted (descending (fun d => post_createdAt (pwd_post d))) out
  /\ Forall (fun d => pwd_isLiked d = false /\ pwd_isSaved d = None) out
  /\ (forall p, In p (posts db) -> exists d, In d out /\ pwd_post d = p).
Proof.
  unfold Storage.getAllPosts. intros H. apply promiseAll_ok in H.
  assert (Hrow : forall r d,
            (let '(post, user, location) := r in
             match user with
             | None => Throw "Post has no user"
             | Some user =>
                 Ok (mkPostWithDetails post (Some user) location
                       (countWhere (fun l => eqCol (like_postId l) (post_id post))
                                   (likes db))
                       (countWhere (fun c => eqCol (comment_postId c) (post_id post))
                                   (comments db))
                       false None)
             end) = Ok d ->
            pwd_post d = Storage.rowPost r
            /\ pwd_isLiked d = false /\ pwd_isSaved d = None).
  { intros [[post [user|]] location] d Hd; [|discriminate].
    injection Hd as <-. repeat split. }
  split; [|split].
  - eapply (sorted_transport pwd_post Storage.rowPost post_createdAt).
    + apply Forall2_map_eq. eapply Forall2_impl; [|exact H].
      intros r d Hd. now apply Hrow.
    + apply orderByDesc_sorted.
  - apply Forall_forall. intros d Hd.
    destruct (Forall2_In_r _ _ _ _ H Hd) as [r [_ Hr]].
    now apply Hrow in Hr.
  - intros p Hp.
    destruct (leftJoin_covers (fun p u => post_userId p =? user_id u)
                (posts db) (users db) p Hp) as [u Hu].
    destruct (leftJoin_covers
                (fun (pu : Post * option User) l =>
                   eqRef (post_locationId (fst pu)) (location_id l))
                _ (locations db) (p, u) Hu) as [l Hl].
    assert (Hin : In (p, u, l)
                     (orderByDesc (fun r => post_createdAt (Storage.rowPost r))
                                  (Storage.postRows db)))
      by (apply orderByDesc_In; exact Hl).
    destruct (Forall2_In_l _ _ _ _ H Hin) as [d [Hd Hr]].
    apply (Hrow (p, u, l)) in Hr. exists d. split; [exact Hd|].
    now destruct Hr as [-> _].
Qed.

(** X23.  A caller who is not an admin gets the same 403 from the four
    admin listings, whatever the store holds.  For an admin the listing of
    posts answers 500 when some post has no stored owner; when all have, it
    answers 200 with every stored post, newest first, none marked liked. *)
Theorem admin_listings :
  forall (toLowerCase trim : string -> string) (env email : option string)
         (db : Db),
    let admin := AdminCheck.isAdmin toLowerCase trim env email in
    (admin = false ->
       Api.getAdminPosts toLowerCase trim env email db = Api.forbidden
       /\ Api.getAdminVideos toLowerCase trim env email db = Api.forbidden
       /\ Api.getAdminLocations toLowerCase trim env email db = Api.forbidden
       /\ Api.getAdminComments toLowerCase trim env email db = Api.forbidden)
    /\ (admin = true ->
          (forall p, In p (posts db) ->
             (forall u, In u (users db) -> user_id u <> post_userId p) ->
             Api.getAdminPosts toLowerCase trim env email db
             = Api.mkReply 500 (Api.JMessage "Failed to fetch posts"))
          /\ (postOwnersStored db ->
              exists out,
                Api.getAdminPosts toLowerCase trim env email db
                = Api.ok (Api.JPosts out)
                /\ StronglySorted
                     (descending (fun d => post_createdAt (pwd_post d))) out
                /\ Forall (fun d => pwd_isLiked d = false
                                    /\ pwd_isSaved d = None) out
                /\ (forall p, In p (posts db) ->
                      exists d, In d out /\ pwd_post d = p))).
Proof.
  intros toLowerCase trim env email db admin.
  unfold Api.getAdminPosts, Api.getAdminVideos, Api.getAdminLocations,
    Api.getAdminComments, Api.isAdmin. fold admin.
  split; intros ->; simpl.
  - repeat split.
  - split.
    + intros p Hp Hn. now rewrite (getAllPosts_ownerless db p Hp Hn).
    + intros Ho. destruct (getAllPosts_total db Ho) as [out Hout].
      rewrite Hout. exists out. split; [reflexivity|].
      now apply getAllPosts_ok.
Qed.

Lemma admin_listings_witness :
  Api.getAdminPosts AdminCheck.asciiLower AdminCheck.asciiTrim
    (Some "root@example.com") (Some "u1@example.com") feedDb
  = Api.forbidden.
Proof.
  exact (proj1 (proj1
    (admin_listings AdminCheck.asciiLower AdminCheck.asciiTrim
       (Some "root@example.com") (Some "u1@example.com") feedDb) eq_refl)).
Defined.

(** X24.  The delete route of posts writes no table but [posts].  For a
    caller who is not an admin it never removes a post of another user; it
    answers 200 exactly when the caller owns a post of that id, and
    otherwise 404 with the store as it was.  For an admin it answers 200
    exactly when a post of that id is stored, and the id then fetches
    nothing. *)
Theorem deletePosts_route :
  forall (toLowerCase trim : string -> string) (env email : option string)
         (sub postId : Id) (db : Db),
    let admin := AdminCheck.isAdmin toLowerCase trim env email in
    let r := Api.deletePosts toLowerCase trim env sub email postId db in
    sameButPosts db (snd r)
    /\ (admin = false ->
          (forall p, In p (posts db) -> post_userId p <> sub ->
                     In p (posts (snd r)))
          /\ (fst r = Api.ok Api.JSuccess
              <-> exists p, In p (posts db) /\ post_id p = postId
                            /\ post_userId p = sub)
          /\ (fst r <> Api.ok Api.JSuccess ->
              fst r = Api.mkReply 404
                        (Api.JMessage "Post not found or unauthorized")
              /\ snd r = db))
    /\ (admin = true ->
          Storage.getPost postId (snd r) = None
          /\ (fst r = Api.ok Api.JSuccess
              <-> exists p, In p (posts db) /\ post_id p = postId)).
Proof.
  intros toLowerCase trim env email sub postId db admin r.
  unfold r, Api.deletePosts, Api.isAdmin. fold admin.
  split; [|split].
  - destruct admin; [rewrite deletePostAdmin_spec | rewrite deletePost_spec];
      destruct (Nat.ltb 0 _); simpl; repeat split.
  - intros ->. rewrite deletePost_spec.
    pose proof (filter_positive (ownedPost postId sub) (posts db)) as Hpos.
    destruct (Nat.ltb 0 (length (filter (ownedPost postId sub) (posts db))))
      eqn:E; simpl.
    + split; [|split].
      * intros p Hp Hn. apply filter_In. split; [exact Hp|].
        unfold ownedPost. apply String.eqb_neq in Hn. rewrite Hn.
        now rewrite andb_false_r.
      * split; [intros _ | reflexivity].
        destruct (proj1 Hpos eq_refl) as [p [Hp Ho]]. exists p.
        unfold ownedPost in Ho. apply andb_true_iff in Ho.
        rewrite !String.eqb_eq in Ho. tauto.
      * intros H. now contradiction H.
    + assert (Hnone : filter (ownedPost postId sub) (posts db) = []).
      { destruct (filter (ownedPost postId sub) (posts db)); [reflexivity|].
        discriminate E. }
      rewrite (filter_nil_neg _ _ Hnone), with_posts_same.
      split; [|split].
      * intros p Hp _. exact Hp.
      * split; [discriminate|]. intros [p [Hp [Hi Ho]]].
        assert (In p (filter (ownedPost postId sub) (posts db))) as Hin.
        { apply filter_In. split; [exact Hp|]. unfold ownedPost.
          now rewrite Hi, Ho, !String.eqb_refl. }
        rewrite Hnone in Hin. contradiction.
      * intros _. split; reflexivity.
  - intros ->. rewrite deletePostAdmin_spec.
    pose proof (filter_positive (fun p => post_id p =? postId) (posts db))
      as Hpos.
    split.
    + destruct (Nat.ltb 0 _); simpl;
        unfold Storage.getPost, selectWhere; simpl;
        now rewrite filter_neg_idem.
    + destruct (Nat.ltb 0 (length (filter (fun p => post_id p =? postId)
                                          (posts db)))) eqn:E; simpl.
      * split; [intros _ | reflexivity].
        destruct (proj1 Hpos eq_refl) as [p [Hp Ho]]. exists p.
        apply String.eqb_eq in Ho. tauto.
      * split; [discriminate|]. intros [p [Hp Hi]].
        assert (false = true) as Habs; [|discriminate Habs].
        apply Hpos. exists p. split; [exact Hp|].
        rewrite Hi. apply String.eqb_refl.
Qed.

Lemma deletePosts_route_witness :
  snd (Api.deletePosts AdminCheck.asciiLower AdminCheck.asciiTrim
         (Some "root@example.com") "u2" (Some "u2@example.com") "0" feedDb)
  = feedDb.
Proof.
  destruct (deletePosts_route AdminCheck.asciiLower AdminCheck.asciiTrim
              (Some "root@example.com") (Some "u2@example.com") "u2" "0" feedDb)
    as [_ [H _]].
  destruct (H eq_refl) as [_ [_ Hkeep]].
  apply Hkeep. discriminate.
Defined.

(** ** Following and unfollowing over HTTP *)

Lemma unfollow_not_following a b db :
  Storage.isFollowing a b db = false -> Storage.unfollowUser a b db = (false, db).
Proof.
  unfold Storage.isFollowing, Storage.unfollowUser, selectWhere. intros H.
  rewrite deleteWhere_none.
  - now destruct db.
  - intros x Hx.
    destruct ((follow_followerId x =? a) && (follow_followingId x =? b)) eqn:E;
      [|reflexivity].
    assert (In x (filter (fun f => (follow_followerId f =? a)
                                   && (follow_followingId f =? b)) (follows db)))
      as Hin by (apply filter_In; auto).
    destruct (filter _ (follows db)); [contradiction | discriminate].
Qed.

(** X25.  The unfollow route answers 404 and writes nothing when the
    caller does not follow the user; otherwise it answers 200 and the caller
    no longer follows the user.  After a follow request for another user it
    therefore answers 200, and then 404 when repeated. *)
Theorem deleteFollows_route :
  forall (now : Timestamp) (sub userId : Id) (db : Db),
    (let r := Routes.deleteFollows sub userId db in
     if Storage.isFollowing sub userId db then
       fst r = Routes.json Routes.Success
       /\ Storage.isFollowing sub userId (snd r) = false
     else
       r = (Routes.mkResponse 404
              (Routes.Message "Follow relationship not found"), db))
    /\ (sub <> userId ->
        let followed := snd (Routes.postFollows now sub userId db) in
        let once := Routes.deleteFollows sub userId followed in
        fst once = Routes.json Routes.Success
        /\ Routes.status (fst (Routes.deleteFollows sub userId (snd once)))
           = 404).
Proof.
  intros now sub userId db.
  assert (Hsw : forall d,
            fst (Storage.unfollowUser sub userId d)
            = Storage.isFollowing sub userId d
            /\ Storage.isFollowing sub userId
                 (snd (Storage.unfollowUser sub userId d)) = false).
  { intros d. split.
    - unfold Storage.unfollowUser, Storage.isFollowing, deleteWhere. simpl.
      apply positive_notNot.
    - unfold Storage.unfollowUser, Storage.isFollowing, deleteWhere,
        selectWhere. simpl. now rewrite filter_neg_idem. }
  assert (Hroute : forall d,
            let r := Routes.deleteFollows sub userId d in
            if Storage.isFollowing sub userId d then
              fst r = Routes.json Routes.Success
              /\ Storage.isFollowing sub userId (snd r) = false
            else
              r = (Routes.mkResponse 404
                     (Routes.Message "Follow relationship not found"), d)).
  { intros d. unfold Routes.deleteFollows.
    destruct (Storage.isFollowing sub userId d) eqn:E.
    - destruct (Hsw d) as [Hf Hs]. rewrite E in Hf.
      destruct (Storage.unfollowUser sub userId d) as [b d']. simpl in *.
      subst b. now split.
    - now rewrite (unfollow_not_following sub userId d E). }
  split; [apply Hroute|].
  intros Hne followed once.
  assert (Hf : Storage.isFollowing sub userId followed = true).
  { unfold followed. rewrite (postFollows_other now sub userId db Hne). simpl.
    unfold Storage.isFollowing, selectWhere. simpl.
    rewrite filter_app, notNot_hd_app. simpl.
    rewrite !String.eqb_refl. simpl. apply orb_true_r. }
  pose proof (Hroute followed) as H1. rewrite Hf in H1. fold once in H1.
  destruct H1 as [H1 H2]. split; [exact H1|].
  pose proof (Hroute (snd once)) as H3. rewrite H2 in H3.
  simpl in H3. now rewrite H3.
Qed.

Lemma deleteFollows_route_witness :
  fst (Routes.deleteFollows "u1" "u2"
         (snd (Routes.postFollows 1%Z "u1" "u2" emptyDb)))
  = Routes.json Routes.Success.
Proof.
  destruct (deleteFollows_route 1%Z "u1" "u2" emptyDb) as [_ H].
  apply H. discriminate.
Defined.

(** * One row per post *)

Lemma key_at_most_once {A} (key : A -> Id) (l : list A) (id : Id) :
  NoDup (map key l) -> length (filter (fun y => id =? key y) l) <= 1.
Proof.
  induction l as [|x l IH]; simpl; intros Hd; [lia|].
  inversion Hd as [|? ? Hx Hd']; subst. specialize (IH Hd').
  destruct (id =? key x) eqn:E; simpl; [|exact IH].
  apply String.eqb_eq in E. subst id.
  rewrite (filter_none _ l); [simpl; lia|].
  intros y Hy. apply String.eqb_neq. intros Ey. apply Hx.
  rewrite Ey. now apply in_map.
Qed.

Lemma leftJoin_one_each {A B} (on : A -> B -> bool) (l : list A) (r : list B) :
  (forall a, length (filter (on a) r) <= 1) ->
  map fst (leftJoin on l r) = l.
Proof.
  intros H. induction l as [|a l IH]; [reflexivity|].
  change (leftJoin on (a :: l) r)
    with (match filter (on a) r with
          | [] => [(a, None)]
          | ms => map (fun b => (a, Some b)) ms
          end ++ leftJoin on l r).
  rewrite map_app, IH. specialize (H a).
  destruct (filter (on a) r) as [|b [|b' t]]; simpl in *; try reflexivity; lia.
Qed.

Lemma insertDesc_map {A B} (f : A -> B) (key : B -> Timestamp) x l :
  map f (insertDesc (fun a => key (f a)) x l) = insertDesc key (f x) (map f l).
Proof.
  induction l as [|y l IH]; simpl; [reflexivity|].
  destruct (key (f x) <? key (f y))%Z; simpl; [now rewrite IH | reflexivity].
Qed.

Lemma orderByDesc_map {A B} (f : A -> B) (key : B -> Timestamp) l :
  map f (orderByDesc (fun a => key (f a)) l) = orderByDesc key (map f l).
Proof.
  induction l as [|x l IH]; simpl; [reflexivity|].
  now rewrite insertDesc_map, IH.
Qed.

Lemma postRows_one_each db :
  reachable db -> map Storage.rowPost (Storage.postRows db) = posts db.
Proof.
  intros Hr.
  pose proof (reachable_userKeysUnique db Hr) as Hu.
  destruct (reachable_keysGenerated db Hr) as [_ [_ [[Hl _] _]]].
  unfold Storage.postRows.
  change (map Storage.rowPost ?rows) with (map (fun r => fst (fst r)) rows).
  rewrite <- map_map.
  - rewrite leftJoin_one_each.
    + apply leftJoin_one_each. intros p.
      exact (key_at_most_once user_id (users db) (post_userId p) Hu).
    + intros [p u]. unfold eqRef, eqCol. simpl.
      destruct (post_locationId p) as [place|].
      * exact (key_at_most_once location_id (locations db) place Hl).
      * rewrite (filter_none _ (locations db)); [simpl; lia | reflexivity].
Qed.

Lemma getAllPosts_rows db out :
  Storage.getAllPosts db = Ok out ->
  map pwd_post out
  = map Storage.rowPost
      (orderByDesc (fun r => post_createdAt (Storage.rowPost r))
                   (Storage.postRows db)).
Proof.
  unfold Storage.getAllPosts. intros H. apply promiseAll_ok in H.
  apply Forall2_map_eq. eapply Forall2_impl; [|exact H].
  intros [[post [user|]] location] d Hd; [|discriminate].
  now injection Hd as <-.
Qed.

Lemma map_fetched {A B} (f : A -> B) n l :
  map f (fetched n l) = fetched n (map f l).
Proof.
  unfold fetched. destruct (n <? 0)%Z; [reflexivity | symmetry; apply firstn_map].
Qed.

Lemma getFeedPosts_posts db viewer n out :
  reachable db ->
  Storage.getFeedPosts viewer (Some n) db = Ok out ->
  map pwd_post out = fetched n (orderByDesc post_createdAt (posts db)).
Proof.
  intros Hr H. apply getFeedPosts_ok in H. rewrite H.
  now rewrite map_fetched, orderByDesc_map, (postRows_one_each db Hr).
Qed.

Lemma fetched_split {A} (key : A -> Timestamp) n (l : list A) :
  StronglySorted (descending key) l ->
  exists rest,
    fetched n l ++ rest = l
    /\ Forall (fun y => Forall (fun x => (key y <= key x)%Z) (fetched n l)) rest
    /\ length (fetched n l)
       = if (n <? 0)%Z then length l else Nat.min (Z.to_nat n) (length l).
Proof.
  intros Hs. unfold fetched. destruct (n <? 0)%Z.
  - exists []. split; [apply app_nil_r|]. split; [constructor | reflexivity].
  - exists (skipn (Z.to_nat n) l). split; [apply firstn_skipn|].
    split; [|apply length_firstn].
    rewrite <- (firstn_skipn (Z.to_nat n) l) in Hs.
    apply Forall_forall. intros y Hy. apply Forall_forall. intros x Hx.
    exact (sorted_app_older key _ _ x y Hs Hx Hy).
Qed.

(** X26.  In a reachable store the joins add no rows, so a listing shows a
    stored post once.  The list a feed returns is newest first; with the
    stored posts it leaves out it makes up the [posts] table, none of those
    left out is newer than a listed one, and it has [n] items, or all when
    there are fewer or [n] is negative.  The admin listing is the [posts]
    table rearranged newest first.  Posts of equal creation time may come in
    either order. *)
Theorem listings_show_each_post_once :
  forall (db : Db),
    reachable db ->
    (forall viewer n out,
       Storage.getFeedPosts viewer (Some n) db = Ok out ->
       StronglySorted (descending (fun d => post_createdAt (pwd_post d))) out
       /\ exists rest,
            Permutation (map pwd_post out ++ rest) (posts db)
            /\ Forall (fun p =>
                         Forall (fun d => (post_createdAt p
                                           <= post_createdAt (pwd_post d))%Z)
                                out) rest
            /\ length out
               = if (n <? 0)%Z then length (posts db)
                 else Nat.min (Z.to_nat n) (length (posts db)))
    /\ (forall out,
          Storage.getAllPosts db = Ok out ->
          StronglySorted (descending (fun d => post_createdAt (pwd_post d))) out
          /\ Permutation (map pwd_post out) (posts db)).
Proof.
  intros db Hr. split.
  - intros viewer n out H. apply (getFeedPosts_posts db viewer n out Hr) in H.
    pose proof (orderByDesc_sorted post_createdAt (posts db)) as Hs.
    pose proof (orderByDesc_perm post_createdAt (posts db)) as Hp.
    split.
    + apply sorted_of_map. rewrite H. now apply fetched_sorted.
    + destruct (fetched_split post_createdAt n _ Hs) as [rest [Ea [Hold Hlen]]].
      exists rest. rewrite H. split; [|split].
      * rewrite Ea. now symmetry.
      * rewrite <- H in Hold. eapply Forall_impl; [|exact Hold].
        intros p Hp'. apply Forall_forall. intros d Hd.
        rewrite Forall_forall in Hp'. apply Hp'. now apply in_map.
      * rewrite <- (length_map pwd_post), H, Hlen.
        now rewrite <- (Permutation_length Hp).
  - intros out H. apply getAllPosts_rows in H.
    rewrite orderByDesc_map, (postRows_one_each db Hr) in H. split.
    + apply sorted_of_map. rewrite H. apply orderByDesc_sorted.
    + rewrite H. symmetry. apply orderByDesc_perm.
Qed.

Lemma listings_show_each_post_once_witness :
  exists out,
    Storage.getFeedPosts "u2" (Some 1%Z) feedDb = Ok out
    /\ StronglySorted (descending (fun d => post_createdAt (pwd_post d))) out
    /\ exists rest,
         Permutation (map pwd_post out ++ rest) (posts feedDb)
         /\ Forall (fun p =>
                      Forall (fun d => (post_createdAt p
                                        <= post_createdAt (pwd_post d))%Z)
                             out) rest
         /\ length out = 1.
Proof.
  eexists. split; [reflexivity|].
  exact (proj1 (listings_show_each_post_once feedDb
                  (run_reachable _ emptyDb reachable_empty))
               "u2" 1%Z _ eq_refl).
Defined.

(** * Videos and locations *)

Lemma videoRows_hd v db :
  hd_error (selectWhere (fun r => video_id (Storage.rowVideo r) =? v)
                        (Storage.videoRows db))
  = match Storage.getVideo v db with
    | Some video =>
        Some (video, Storage.getUser (video_userId video) db,
              taggedLocation (video_locationId video) db)
    | None => None
    end.
Proof.
  unfold selectWhere, Storage.videoRows, Storage.rowVideo.
  rewrite (leftJoin_hd _ (fun vu : Video * option User => video_id (fst vu) =? v)).
  rewrite (leftJoin_hd _ (fun video : Video => video_id video =? v)).
  unfold Storage.getVideo, selectWhere.
  destruct (hd_error (filter _ (videos db))) as [video|]; [|reflexivity].
  f_equal. f_equal.
  - f_equal. unfold Storage.getUser, selectWhere. f_equal. apply filter_ext.
    intros u. apply String.eqb_sym.
  - unfold taggedLocation, Storage.getLocation, selectWhere, eqRef. simpl.
    destruct (video_locationId video) as [place|]; simpl.
    + f_equal. apply filter_ext. intros l. apply String.eqb_sym.
    + now rewrite (filter_none _ (locations db)).
Qed.

(** X27.  The detail view of a video is likewise what [getVideo],
    [getUser] and [getLocation] give one after the other: none when the
    video or its owner is not stored, and never an [isSaved]. *)
Theorem getVideoWithDetails_by_getters :
  forall (v : Id) (viewer : option Id) (db : Db),
    Storage.getVideoWithDetails v viewer db = videoDetailsFromGetters v viewer db.
Proof.
  intros v viewer db.
  unfold Storage.getVideoWithDetails, videoDetailsFromGetters.
  rewrite videoRows_hd.
  destruct (Storage.getVideo v db) as [video|]; [|reflexivity].
  destruct (Storage.getUser (video_userId video) db) as [user|]; [|reflexivity].
  f_equal. f_equal. unfold videoLikedBy, Storage.isLikedVideo, selectWhere.
  destruct viewer as [cur|]; [|reflexivity].
  destruct (truthy (Some cur)); [|reflexivity]. simpl.
  f_equal. f_equal. apply filter_ext. intros l. apply andb_comm.
Qed.

(** X28.  Deleting a location leaves the posts that carry its id as they
    are, tag included; the detail view of such a post then comes without a
    location. *)
Theorem deleteLocation_leaves_tags :
  forall (db : Db) (place : Id) (p : Id) (viewer : option Id) (d : PostWithDetails),
    let db' := snd (Storage.deleteLocationAdmin place db) in
    posts db' = posts db
    /\ Storage.getLocation place db' = None
    /\ (Storage.getPostWithDetails p viewer db = Some d ->
        post_locationId (pwd_post d) = Some place ->
        exists d',
          Storage.getPostWithDetails p viewer db' = Some d'
          /\ pwd_post d' = pwd_post d
          /\ pwd_location d' = None).
Proof.
  intros db place p viewer d db'. split; [reflexivity|]. split.
  - unfold db', Storage.getLocation, Storage.deleteLocationAdmin, deleteWhere,
      selectWhere. simpl. now rewrite filter_neg_idem.
  - rewrite !getPostWithDetails_getters. unfold detailsFromGetters.
    change (Storage.getPost p db') with (Storage.getPost p db).
    destruct (Storage.getPost p db) as [post|]; [|discriminate].
    change (Storage.getUser (post_userId post) db')
      with (Storage.getUser (post_userId post) db).
    destruct (Storage.getUser (post_userId post) db) as [user|]; [|discriminate].
    intros [= <-]. simpl. intros Ht. eexists. split; [reflexivity|].
    split; [reflexivity|]. simpl. rewrite Ht. simpl.
    unfold db', Storage.getLocation, Storage.deleteLocationAdmin, deleteWhere,
      selectWhere. simpl. now rewrite filter_neg_idem.
Qed.

Lemma deleteLocation_leaves_tags_witness :
  let db := run [UpsertUser 0%Z (mkUpsertUser (Some "u1") None None None None);
                 CreateLocation 1%Z (mkInsertLocation "u1" "48.1" "11.5" None);
                 CreatePost 2%Z (mkInsertPost "u1" (Some "here") None (Some "0"))]
                emptyDb in
  exists d',
    Storage.getPostWithDetails "1" None
      (snd (Storage.deleteLocationAdmin "0" db)) = Some d'
    /\ pwd_location d' = None.
Proof.
  intros db.
  destruct (Storage.getPostWithDetails "1" None db) as [d|] eqn:E;
    [|discriminate E].
  destruct (deleteLocation_leaves_tags db "0" "1" None d) as [_ [_ H]].
  destruct (H E) as [d' [E' [_ Hloc]]].
  - vm_compute in E. injection E as <-. reflexivity.
  - exists d'. split; [exact E' | exact Hloc].
Defined.

(** * The feed over HTTP *)



Lemma getPostComments_listing_witness :
  exists out, Storage.getPostComments "p1" emptyDb = Ok out.
Proof.
  apply (proj1 (getPostComments_listing emptyDb "p1")).
  intros c [].
Defined.
